(** * locolive-backend: real-time delivery, location gate and feed cache

    A shallow embedding of the Go code of
    - package [api]: the handlers [updateLocation], [getFeed],
      [deleteUserStory] and [removeReaction],
    - package [story]: [CreateStory], [GetFeed], [DeleteStory] and
      [invalidateFeedCache],
    - package [realtime]: the hub ([NewHub], [Hub.Run],
      [listenRedisStream], [broadcastToLocal], [SendToUser],
      [IsUserOnline]) and the client pumps ([WritePump], [ReadPump]),
    followed by the properties of the specification that concern them
    and by further properties of the same code.

    Conventions.
    - Code that talks to a collaborator (relational store, Redis, the
      movement monitor, the clock, the logger) is a program in a small
      free monad [Prog] over the signature [Call]; running a program
      against any semantics of the calls yields its result together with
      the ordered list of calls it made.
    - The hub, its channels and the pumps are state machines: functions
      from state to state, [None] standing for a Go panic.
    - Go values: [uuid.UUID] (16 bytes) is the 128-bit number [N];
      [time.Time] is an integer number of nanoseconds since the Unix
      epoch; [[]byte] and [string] are both byte strings, so the
      conversions [string(b)] and [[]byte(s)] are the identity;
      [float64] is the binary64 type [float].
    - A [*Client] is an address [ptr]; the objects live in a heap.
    - Log lines of the hub and the pumps are left out; those of the
      handlers and of [SendToUser] are calls. *)

From Stdlib Require Import ZArith String Ascii List Floats.
From stdpp Require Import base option list sorting gmap strings.

Local Open Scope string_scope.

(** ** Go base types *)

Definition UUID : Type := N.
Definition error : Type := string.
Definition Time : Type := Z.
Definition Duration : Type := Z.

Definition Second : Duration := 1000000000%Z.
Definition Minute : Duration := (60 * Second)%Z.
Definition Hour : Duration := (60 * Minute)%Z.

(** [t.After(u)], [t.Add(d)] and [t.Truncate(d)] of package [time].
    [Truncate] rounds down to a multiple of [d] since the zero time; the
    zero time and the Unix epoch differ by a whole number of days, so for
    the durations used here the rounding is the same on epoch time. *)
Definition Time_After (t u : Time) : bool := (u <? t)%Z.
Definition Time_Add (t : Time) (d : Duration) : Time := (t + d)%Z.
Definition Time_Truncate (t : Time) (d : Duration) : Time :=
  if (d <=? 0)%Z then t else (t - t mod d)%Z.

Inductive result (A : Type) : Type :=
  | Ok (a : A)
  | Err (e : error).
Arguments Ok {A} a.
Arguments Err {A} e.

(** [sql.NullTime] and [sql.NullBool]. *)
Record NullTime : Type := mkNullTime { NullTime_Time : Time; NullTime_Valid : bool }.
Record NullBool : Type := mkNullBool { NullBool_Bool : bool; NullBool_Valid : bool }.
Record NullString : Type := mkNullString { NullString_String : string; NullString_Valid : bool }.

(** The zero value [sql.NullTime{}]. *)
Definition NullTime_zero : NullTime := mkNullTime 0%Z false.

(** The fields of [db.User] that the code under study reads. *)
Record User : Type := mkUser {
  User_ID : UUID;
  IsGhostMode : bool;
  GhostModeExpiresAt : NullTime;
  IsPremium : NullBool
}.

Record ToggleGhostModeParams : Type := mkToggleGhostModeParams {
  tgm_ID : UUID;
  tgm_IsGhostMode : bool;
  tgm_GhostModeExpiresAt : NullTime
}.

Record BanUserParams : Type := mkBanUserParams {
  ban_ID : UUID;
  ban_IsShadowBanned : bool
}.

Record CreateLocationParams : Type := mkCreateLocationParams {
  cl_UserID : UUID;
  cl_Geohash : string;
  cl_Lng : float;
  cl_Lat : float;
  cl_TimeBucket : Time;
  cl_ExpiresAt : Time
}.

(** The result of [safety.Monitor.ValidateUserMovement]. *)
Record ValidationResult : Type := mkValidationResult {
  Allowed : bool;
  ShouldBan : bool
}.

(** [db.CreateStoryParams] and the story row of the store. *)
Record db_CreateStoryParams : Type := mkDbCreateStoryParams {
  cs_UserID : UUID;
  cs_MediaUrl : string;
  cs_MediaType : string;
  cs_Caption : NullString;
  cs_Geohash : string;
  cs_Lng : float;
  cs_Lat : float;
  cs_IsAnonymous : bool;
  cs_ShowLocation : bool;
  cs_IsPremium : NullBool;
  cs_ExpiresAt : Time
}.

Record Story : Type := mkStory {
  Story_ID : UUID;
  Story_UserID : UUID;
  Story_Geohash : string
}.

Record GetStoriesWithinRadiusParams : Type := mkGetStoriesWithinRadiusParams {
  gs_Lng : float;
  gs_Lat : float;
  gs_RadiusMeters : float;
  gs_UserID : UUID
}.

(** A Go [interface{}] value, as far as the code tells them apart: the
    fields of a stream entry and the members of a JSON payload. *)
Inductive GoValue : Type :=
  | VString (s : string)
  | VUUID (u : UUID)
  | VInt (z : Z)
  | VNil.

(** [redis.XAddArgs] as filled in by [SendToUser]; [Values] is a Go
    [map[string]interface{}]. *)
Record XAddArgs : Type := mkXAddArgs {
  xa_Stream : string;
  xa_Values : gmap string GoValue;
  xa_MaxLen : Z;
  xa_Approx : bool
}.

(** ** Calls to collaborators

    The index of a call is the type of what it returns.  The store
    methods return a row and an error in Go; a row that the caller never
    reads is left out and only the error is kept. *)

Inductive Call : Type -> Type :=
  (* repository.Store *)
  | GetUserByID (id : UUID) : Call (result User)
  | ToggleGhostMode (p : ToggleGhostModeParams) : Call (option error)
  | BanUser (p : BanUserParams) : Call (option error)
  | CreateLocation (p : CreateLocationParams) : Call (option error)
  | UpdateUserActivity (id : UUID) : Call (option error)
  | StoreCreateStory (p : db_CreateStoryParams) : Call (result Story)
  | GetStoryByID (id : UUID) : Call (result Story)
  | StoreDeleteStory (id : UUID) : Call (option error)
  | GetStoriesWithinRadius (p : GetStoriesWithinRadiusParams) : Call (result (list Story))
  (* safety.Monitor *)
  | ValidateUserMovement (userID : string) (lat lng : float) : Call ValidationResult
  (* location service (Redis geo index) *)
  | UpdateUserLocation (id : UUID) (lat lng : float) : Call (option error)
  (* time.Now() *)
  | TimeNow : Call Time
  (* Redis key-value commands *)
  | RedisGet (key : string) : Call (result string)
  | RedisSet (key value : string) (ttl : Duration) : Call unit
  | RedisDel (key : string) : Call unit
  (* Redis stream append *)
  | XAdd (args : XAddArgs) : Call (option error)
  (* zerolog *)
  | LogWarn (msg : string) : Call unit
  | LogError (msg : string) : Call unit.

(** One performed call with the answer it got. *)
Inductive Event : Type :=
  | Ev {X : Type} (c : Call X) (x : X).

Inductive Prog (R : Type) : Type :=
  | Ret (r : R)
  | Do {X : Type} (c : Call X) (k : X -> Prog R).
Arguments Ret {R} r.
Arguments Do {R X} c k.

Fixpoint pbind {A B : Type} (p : Prog A) (f : A -> Prog B) : Prog B :=
  match p with
  | Ret a => f a
  | Do c k => Do c (fun x => pbind (k x) f)
  end.

Definition call {X : Type} (c : Call X) : Prog X := Do c Ret.

#[export] Instance Prog_ret : MRet Prog := @Ret.
#[export] Instance Prog_bind : MBind Prog := fun A B f p => pbind p f.

(** A semantics answers every call and moves the world on. *)
Definition Sem (W : Type) : Type := forall X : Type, Call X -> W -> X * W.

Fixpoint run {W R : Type} (sem : Sem W) (p : Prog R) (w : W) : R * list Event * W :=
  match p with
  | Ret r => (r, [], w)
  | Do c k =>
      let '(x, w1) := sem _ c w in
      let '(r, tr, w2) := run sem (k x) w1 in
      (r, Ev c x :: tr, w2)
  end.

Definition result_of {W R : Type} (sem : Sem W) (p : Prog R) (w : W) : R :=
  (run sem p w).1.1.
Definition trace_of {W R : Type} (sem : Sem W) (p : Prog R) (w : W) : list Event :=
  (run sem p w).1.2.

(** Classifiers of events. *)
Definition is_CreateLocation (e : Event) : bool :=
  match e with Ev (CreateLocation _) _ => true | _ => false end.
Definition is_ValidateUserMovement (e : Event) : bool :=
  match e with Ev (ValidateUserMovement _ _ _) _ => true | _ => false end.
Definition is_store_write (e : Event) : bool :=
  match e with
  | Ev (ToggleGhostMode _) _ | Ev (BanUser _) _ | Ev (CreateLocation _) _
  | Ev (UpdateUserActivity _) _ | Ev (StoreCreateStory _) _
  | Ev (StoreDeleteStory _) _ => true
  | _ => false
  end.
(** The movement monitor was asked and refused. *)
Definition is_monitor_reject (e : Event) : bool :=
  match e with
  | Ev (ValidateUserMovement _ _ _) v => negb (Allowed v)
  | _ => false
  end.
(** A location row was written without error. *)
Definition is_location_stored (e : Event) : bool :=
  match e with
  | Ev (CreateLocation _) None => true
  | _ => false
  end.

(** ** HTTP responses of the gin handlers *)

Inductive Body : Type :=
  | H (fields : gmap string string)          (* gin.H with string values *)
  | errorResponse (err : error)               (* helper of package api *)
  | Data (contentType : string) (data : string) (* ctx.Data *)
  | FeedBody (stories : list Story) (count : Z) (message : string)
      (search_radius : float).             (* the gin.H of getFeed *)

Record Response : Type := mkResponse {
  status : Z;
  headers : list (string * string);
  body : Body
}.

Definition StatusOK : Z := 200.
Definition StatusBadRequest : Z := 400.
Definition StatusForbidden : Z := 403.
Definition StatusNotFound : Z := 404.
Definition StatusInternalServerError : Z := 500.

(** [ctx.JSON(code, obj)]. *)
Definition JSON (code : Z) (obj : Body) : Response := mkResponse code [] obj.

(** [realtime.WSMessage], the envelope sent to clients.  [Payload] is an
    [interface{}]; the code under study stores a map in it. *)
Record WSMessage : Type := mkWSMessage {
  WSMessage_Type : string;
  WSMessage_Payload : gmap string GoValue;
  WSMessage_SenderID : UUID;
  WSMessage_CreatedAt : Time
}.

(** Zero values [uuid.Nil] and [time.Time{}] (1 January of year 1). *)
Definition uuid_Nil : UUID := 0%N.
Definition Time_zero : Time := (-62135596800 * Second)%Z.

(** ** Library functions

    Functions of third-party Go packages that the code calls and whose
    text is not part of the repository.  Every definition and theorem
    below is parametric in them. *)
Class GoLibs : Type := {
  (* github.com/mmcloughlin/geohash: Encode(lat, lng) *)
  geohash_Encode : float -> float -> string;
  (* github.com/google/uuid: UUID.String() and Parse *)
  uuid_String : UUID -> string;
  uuid_Parse : string -> option UUID;
  (* encoding/json: Unmarshal into struct{Type string; ReceiverID uuid.UUID}
     (None when it returns an error) and Marshal of a WSMessage *)
  json_Unmarshal : string -> option (string * UUID);
  json_Marshal : WSMessage -> string;
  (* encoding/json: Marshal of the feed response of getFeed *)
  json_Marshal_feed : list Story -> Z -> string -> float -> string
}.

(** The idiom [if len(s) > n { s = s[:n] }]. *)
Definition truncate_hash (n : nat) (hash : string) : string :=
  if (n <? String.length hash)%nat then substring 0 n hash else hash.


(** ** Package story: the story service *)

Module story.
Section service.
Context `{GoLibs}.

Record CreateStoryParams : Type := mkCreateStoryParams {
  UserID : UUID;
  MediaURL : string;
  MediaType : string;
  Latitude : float;
  Longitude : float;
  Caption : string;
  IsAnonymous : bool;
  ShowLocation : bool
}.

Record GetFeedParams : Type := mkGetFeedParams {
  gf_UserID : UUID;
  gf_Latitude : float;
  gf_Longitude : float
}.

(** [sql.ErrNoRows]. *)
Definition ErrNoRows : error := "sql: no rows in result set".

(** [invalidateFeedCache]. *)
Definition invalidateFeedCache (geohash : string) : Prog unit :=
  let cacheKey := "feed:" ++ geohash in
  call (RedisDel cacheKey).

(** [CreateStory]. *)
Definition CreateStory (req : CreateStoryParams) : Prog (result Story) :=
  let hash := geohash_Encode (Latitude req) (Longitude req) in
  val ← call (ValidateUserMovement (uuid_String (UserID req))
                (Latitude req) (Longitude req));
  (if negb (Allowed val) then
     if ShouldBan val
     then call (LogWarn "Fake GPS detected (Dev Bypass: User not banned)")
     else mret tt
   else mret tt);;
  userRes ← call (GetUserByID (UserID req));
  match userRes with
  | Err e => mret (Err ("failed to get user: " ++ e))
  | Ok user =>
      let premium := NullBool_Valid (IsPremium user) && NullBool_Bool (IsPremium user) in
      let expiryDuration := if premium then (48 * Hour)%Z else (24 * Hour)%Z in
      now ← call TimeNow;
      let expiresAt := Time_Add now expiryDuration in
      let captionNull :=
        if decide (Caption req = EmptyString) then mkNullString EmptyString false
        else mkNullString (Caption req) true in
      storyRes ← call (StoreCreateStory
                         (mkDbCreateStoryParams (UserID req) (MediaURL req)
                            (MediaType req) captionNull hash
                            (Longitude req) (Latitude req)
                            (IsAnonymous req) (ShowLocation req)
                            (mkNullBool premium true) expiresAt));
      match storyRes with
      | Err e => mret (Err e)
      | Ok story =>
          err ← call (UpdateUserActivity (UserID req));
          (match err with
           | Some _ => call (LogError "Failed to update user activity")
           | None => mret tt
           end);;
          let userGeohash := truncate_hash 5 hash in
          invalidateFeedCache userGeohash;;
          mret (Ok story)
      end
  end.

(** The constant [maxRadius] of [GetFeed]: 50 km. *)
Definition maxRadius : float := 50000%float.

(** [GetFeed]: rows, message and radius, or the error. *)
Definition GetFeed (params : GetFeedParams)
    : Prog (result (list Story * string * float)) :=
  storiesRes ← call (GetStoriesWithinRadius
                       (mkGetStoriesWithinRadiusParams (gf_Longitude params)
                          (gf_Latitude params) maxRadius (gf_UserID params)));
  match storiesRes with
  | Err e => mret (Err e)
  | Ok stories =>
      let message :=
        if decide (length stories = 0%nat) then "No stories found within 50km"
        else "Stories found nearby" in
      mret (Ok (stories, message, maxRadius))
  end.

(** [DeleteStory]: [None] is the nil error. *)
Definition DeleteStory (storyID userID : UUID) : Prog (option error) :=
  storyRes ← call (GetStoryByID storyID);
  match storyRes with
  | Err e =>
      if decide (e = ErrNoRows) then mret (Some "story not found")
      else mret (Some e)
  | Ok story =>
      if decide (Story_UserID story = userID) then
        err ← call (StoreDeleteStory storyID);
        match err with
        | Some e => mret (Some e)
        | None =>
            let userGeohash := truncate_hash 5 (Story_Geohash story) in
            invalidateFeedCache userGeohash;;
            mret None
        end
      else mret (Some "you can only delete your own stories")
  end.

End service.
End story.

(** ** Package api: the location and feed handlers *)

Module api.
Section handlers.
Context `{GoLibs}.

Definition locationPrecision : nat := 7.
Definition bucketDuration : Duration := (10 * Minute)%Z.
Definition locationTTL : Duration := (24 * Hour)%Z.

Record updateLocationRequest : Type := mkUpdateLocationRequest {
  Latitude : float;
  Longitude : float
}.

(** [*token.Payload], set by the authentication middleware. *)
Record Payload : Type := mkPayload { UserID : UUID }.

Definition status_updated : Body := H {[ "status" := "updated" ]}.
Definition status_ghost : Body := H {[ "status" := "ghost" ]}.

(** [updateLocation] from the comment "Privacy: Convert to Geohash" to
    its end: the movement check and the writes.  The handler reaches this
    part on every path that does not answer earlier. *)
Definition updateLocation_checkAndPersist
    (req : updateLocationRequest) (authPayload : Payload) : Prog Response :=
  let hash := truncate_hash locationPrecision
                (geohash_Encode (Latitude req) (Longitude req)) in
  val ← call (ValidateUserMovement (uuid_String (UserID authPayload))
                (Latitude req) (Longitude req));
  if negb (Allowed val) then
    (if ShouldBan val then
       _ ← call (BanUser (mkBanUserParams (UserID authPayload) true));
       call (LogWarn "User shadow-banned for fake GPS")
     else mret tt);;
    mret (JSON StatusOK status_updated)
  else
    now ← call TimeNow;
    let bucketTime := Time_Truncate now bucketDuration in
    let expiresAt := Time_Add now locationTTL in
    err ← call (CreateLocation
                  (mkCreateLocationParams (UserID authPayload) hash
                     (Longitude req) (Latitude req) bucketTime expiresAt));
    match err with
    | Some e => mret (JSON StatusInternalServerError (errorResponse e))
    | None =>
        err1 ← call (UpdateUserActivity (UserID authPayload));
        (match err1 with
         | Some _ => call (LogError "Failed to update user activity on location ping")
         | None => mret tt
         end);;
        err2 ← call (UpdateUserLocation (UserID authPayload)
                       (Latitude req) (Longitude req));
        (match err2 with
         | Some _ => call (LogError "Failed to update redis location service")
         | None => mret tt
         end);;
        mret (JSON StatusOK status_updated)
    end.

(** [updateLocation].  [bound] is what [ctx.ShouldBindJSON(&req)] gave:
    the decoded request or the binding error. *)
Definition updateLocation
    (bound : result updateLocationRequest) (authPayload : Payload) : Prog Response :=
  match bound with
  | Err err => mret (JSON StatusBadRequest (errorResponse err))
  | Ok req =>
      userRes ← call (GetUserByID (UserID authPayload));
      match userRes with
      | Ok user =>
          if IsGhostMode user then
            if NullTime_Valid (GhostModeExpiresAt user) then
              now ← call TimeNow;
              if Time_After now (NullTime_Time (GhostModeExpiresAt user)) then
                _ ← call (ToggleGhostMode
                            (mkToggleGhostModeParams (UserID authPayload) false NullTime_zero));
                updateLocation_checkAndPersist req authPayload
              else mret (JSON StatusOK status_ghost)
            else mret (JSON StatusOK status_ghost)
          else updateLocation_checkAndPersist req authPayload
      | Err _ => updateLocation_checkAndPersist req authPayload
      end
  end.

Definition feedCacheTTL : Duration := (5 * Minute)%Z.

Record getFeedRequest : Type := mkGetFeedRequest {
  gf_Latitude : float;
  gf_Longitude : float
}.

(** The cache key [getFeed] reads and fills for a viewer. *)
Definition feedCacheKey (req : getFeedRequest) : string :=
  let userGeohash :=
    truncate_hash 5 (geohash_Encode (gf_Latitude req) (gf_Longitude req)) in
  "feed:" ++ userGeohash.

(** [getFeed] after a cache miss. *)
Definition getFeed_miss (req : getFeedRequest) (authPayload : Payload)
    (cacheKey : string) : Prog Response :=
  res ← story.GetFeed (story.mkGetFeedParams (UserID authPayload)
                         (gf_Latitude req) (gf_Longitude req));
  match res with
  | Err e => mret (JSON StatusInternalServerError (errorResponse e))
  | Ok (stories, message, radius) =>
      let count := Z.of_nat (length stories) in
      let responseJSON := json_Marshal_feed stories count message radius in
      call (RedisSet cacheKey responseJSON feedCacheTTL);;
      mret (mkResponse StatusOK [("X-Cache", "MISS")]
              (FeedBody stories count message radius))
  end.

(** [getFeed].  [bound] is what [ctx.ShouldBindQuery(&req)] gave. *)
Definition getFeed (bound : result getFeedRequest) (authPayload : Payload)
    : Prog Response :=
  match bound with
  | Err err => mret (JSON StatusBadRequest (errorResponse err))
  | Ok req =>
      let cacheKey := feedCacheKey req in
      cached ← call (RedisGet cacheKey);
      match cached with
      | Ok cachedData =>
          if decide (cachedData = EmptyString) then getFeed_miss req authPayload cacheKey
          else mret (mkResponse StatusOK [("X-Cache", "HIT")]
                       (Data "application/json" cachedData))
      | Err _ => getFeed_miss req authPayload cacheKey
      end
  end.

(** [deleteUserStory].  [parsed] is what [uuid.Parse(ctx.Param("id"))]
    gave: the story ID or the parse error.  The handler tells the
    failures of the service apart by their text. *)
Definition deleteUserStory (parsed : result UUID) (authPayload : Payload)
    : Prog Response :=
  match parsed with
  | Err err => mret (JSON StatusBadRequest (errorResponse err))
  | Ok storyID =>
      err ← story.DeleteStory storyID (UserID authPayload);
      match err with
      | Some e =>
          if decide (e = "story not found") then
            mret (JSON StatusNotFound (H {[ "error" := "story not found" ]}))
          else if decide (e = "you can only delete your own stories") then
            mret (JSON StatusForbidden (H {[ "error" := e ]}))
          else mret (JSON StatusInternalServerError (errorResponse e))
      | None =>
          mret (JSON StatusOK (H {[ "message" := "story deleted successfully" ]}))
      end
  end.

End handlers.
End api.

(** ** Package realtime: channels, clients and the hub *)

Module realtime.

Definition streamKey : string := "locolive:stream:routing".

(** *** Go channels of byte slices

    A buffered channel: the queued values, the capacity given to [make]
    and whether [close] was called.  The channel of a client is made
    where the websocket endpoint creates the client; its capacity is a
    parameter here.  A send on an open channel proceeds exactly when
    the buffer has room (a value handed to a waiting receiver counts as
    queued and taken at once). *)
Record Chan : Type := mkChan {
  buf : list string;
  cap : nat;
  closed : bool
}.

(** [close(ch)]: closing a closed channel panics ([None]). *)
Definition close_chan (ch : Chan) : option Chan :=
  if closed ch then None else Some (mkChan (buf ch) (cap ch) true).

(** The three ways [select { case ch <- v: ... default: ... }] can go:
    a send on a closed channel panics, a send with room in the buffer
    proceeds, otherwise the [default] branch is taken. *)
Inductive send_outcome : Type :=
  | SendPanic
  | Sent (ch : Chan)
  | WouldBlock.

Definition try_send (ch : Chan) (v : string) : send_outcome :=
  if closed ch then SendPanic
  else if (length (buf ch) <? cap ch)%nat
       then Sent (mkChan (buf ch ++ [v])%list (cap ch) false)
       else WouldBlock.

(** [v, ok := <-ch]. *)
Inductive recv_outcome : Type :=
  | Received (v : string) (ch : Chan)
  | RecvClosed
  | RecvBlocks.

Definition recv (ch : Chan) : recv_outcome :=
  match buf ch with
  | v :: rest => Received v (mkChan rest (cap ch) (closed ch))
  | [] => if closed ch then RecvClosed else RecvBlocks
  end.

(** *** Clients and the hub *)

Definition ptr : Type := positive.

(** [Client]; the fields [Hub] and [Conn] are left to the pumps. *)
Record Client : Type := mkClient {
  UserID : UUID;
  Username : string;
  Send : Chan
}.

Definition with_Send (cl : Client) (ch : Chan) : Client :=
  mkClient (UserID cl) (Username cl) ch.

(** The hub's registry [clients map[uuid.UUID]map[*Client]bool] (the
    inner map is used as a set: only [true] is ever stored and only
    the keys are read) together with the client objects the pointers
    refer to. *)
Record Hub : Type := mkHub {
  clients : gmap UUID (gset ptr);
  heap : gmap ptr Client
}.

(** [NewHub]: an empty registry; [objects] are the client objects in
    memory at that moment (none when the process starts). *)
Definition NewHub (objects : gmap ptr Client) : Hub := mkHub ∅ objects.

(** The [Register] case of [Hub.Run]. *)
Definition Register (client : ptr) (h : Hub) : option Hub :=
  cl ← heap h !! client;
  let userClients := default ∅ (clients h !! UserID cl) in
  Some (mkHub (<[UserID cl := {[client]} ∪ userClients]> (clients h)) (heap h)).

(** The [Unregister] case of [Hub.Run]. *)
Definition Unregister (client : ptr) (h : Hub) : option Hub :=
  cl ← heap h !! client;
  match clients h !! UserID cl with
  | Some userClients =>
      if decide (client ∈ userClients) then
        let userClients' := userClients ∖ {[client]} in
        ch ← close_chan (Send cl);
        let heap' := <[client := with_Send cl ch]> (heap h) in
        if decide (size userClients' = 0%nat)
        then Some (mkHub (delete (UserID cl) (clients h)) heap')
        else Some (mkHub (<[UserID cl := userClients']> (clients h)) heap')
      else Some h
  | None => Some h
  end.

(** One round of the [for client := range clients] loop of
    [broadcastToLocal]. *)
Definition broadcast_one (userID : UUID) (message : string)
    (h : Hub) (client : ptr) : option Hub :=
  cl ← heap h !! client;
  match try_send (Send cl) message with
  | SendPanic => None
  | Sent ch => Some (mkHub (clients h) (<[client := with_Send cl ch]> (heap h)))
  | WouldBlock =>
      ch ← close_chan (Send cl);
      let userClients := default ∅ (clients h !! userID) in
      Some (mkHub (<[userID := userClients ∖ {[client]}]> (clients h))
                  (<[client := with_Send cl ch]> (heap h)))
  end.

Fixpoint broadcast_range (userID : UUID) (message : string)
    (order : list ptr) (h : Hub) : option Hub :=
  match order with
  | [] => Some h
  | client :: rest =>
      h' ← broadcast_one userID message h client;
      broadcast_range userID message rest h'
  end.

(** [broadcastToLocal].  Go visits the keys of a map in an unspecified
    order; [order] is the order of this visit, an enumeration of the
    user's set (see [range_of]). *)
Definition broadcastToLocal (userID : UUID) (message : string)
    (order : list ptr) (h : Hub) : option Hub :=
  match clients h !! userID with
  | Some _ => broadcast_range userID message order h
  | None => Some h
  end.

(** The set registered for a user (empty without a key). *)
Definition sessions (h : Hub) (userID : UUID) : gset ptr :=
  default ∅ (clients h !! userID).

(** [order] is a possible visiting order of [range] over the set
    registered for [userID]. *)
Definition range_of (h : Hub) (userID : UUID) (order : list ptr) : Prop :=
  order ≡ₚ elements (sessions h userID).

(** The buffer of the channel has room; the client after one value was
    queued on its channel; the client after its channel was closed. *)
Definition has_room (ch : Chan) : bool := (length (buf ch) <? cap ch)%nat.
Definition enqueued (cl : Client) (v : string) : Client :=
  with_Send cl (mkChan (buf (Send cl) ++ [v]) (cap (Send cl)) false).
Definition shut (cl : Client) : Client :=
  with_Send cl (mkChan (buf (Send cl)) (cap (Send cl)) true).

(** [IsUserOnline]. *)
Definition IsUserOnline (userID : UUID) (h : Hub) : bool :=
  match clients h !! userID with
  | Some cs => (0 <? size cs)%nat
  | None => false
  end.


(** *** The router: publishing to and tailing the shared stream *)

Section router.
Context `{GoLibs}.

(** [SendToUser]. *)
Definition SendToUser (userID : UUID) (message : string) : Prog unit :=
  err ← call (XAdd (mkXAddArgs streamKey
                      {[ "target_user_id" := VString (uuid_String userID);
                         "payload" := VString message ]}
                      100000 true));
  match err with
  | Some _ => call (LogError "Failed to publish message to Redis Stream")
  | None => mret tt
  end.

(** IDs of stream entries.  Redis writes them [<ms>-<seq>] and orders
    them by the pair; the model keeps the rank of an ID in that order.
    The cursor of the tailing loop is the string ["$"] or such an ID. *)
Definition EntryID : Type := N.

Inductive StreamID : Type :=
  | Dollar
  | Entry (id : EntryID).

(** [redis.XMessage] and [redis.XStream]. *)
Record XMessage : Type := mkXMessage {
  ID : EntryID;
  Values : gmap string GoValue
}.

Record XStream : Type := mkXStream {
  Stream : string;
  Messages : list XMessage
}.

(** What [XRead(...).Result()] returned: [redis.Nil], another error, or
    the streams read. *)
Inductive XReadResult : Type :=
  | XReadNil
  | XReadErr (e : error)
  | XReadOk (streams : list XStream).

(** The type assertion [v.(string)] on a map lookup. *)
Definition as_string (v : option GoValue) : option string :=
  match v with
  | Some (VString s) => Some s
  | _ => None
  end.

(** The checks of the inner loop body of [listenRedisStream]: the target
    and payload of a well-formed entry, [None] where the code
    [continue]s. *)
Definition decode_entry (msg : XMessage) : option (UUID * string) :=
  targetUserIDStr ← as_string (Values msg !! "target_user_id");
  payload ← as_string (Values msg !! "payload");
  userID ← uuid_Parse targetUserIDStr;
  Some (userID, payload).

(** State of the tailing goroutine: the cursor and the hub it shares. *)
Record Tail : Type := mkTail {
  lastID : StreamID;
  hub : Hub
}.

(** The body of [for _, msg := range stream.Messages]; [order] is the
    visiting order of the broadcast it may make. *)
Definition listen_message (order : list ptr) (msg : XMessage) (t : Tail) : option Tail :=
  let lastID' := Entry (ID msg) in
  match decode_entry msg with
  | Some (userID, payload) =>
      h' ← broadcastToLocal userID payload order (hub t);
      Some (mkTail lastID' h')
  | None => Some (mkTail lastID' (hub t))
  end.

(** The same body over the messages of a batch, each with its own
    visiting order. *)
Fixpoint listen_messages (msgs : list (XMessage * list ptr)) (t : Tail) : option Tail :=
  match msgs with
  | [] => Some t
  | (msg, order) :: rest =>
      t' ← listen_message order msg t;
      listen_messages rest t'
  end.

(** One round of the outer [for] of [listenRedisStream], given what
    [XRead] returned.  [orders] supplies the visiting order for each
    message of each stream, in sequence. *)
Definition flatten_streams (streams : list XStream) : list XMessage :=
  concat (Messages <$> streams).

Definition listen_round (res : XReadResult) (orders : list (list ptr))
    (t : Tail) : option Tail :=
  match res with
  | XReadNil => Some t
  | XReadErr _ => Some t
  | XReadOk streams => listen_messages (zip (flatten_streams streams) orders) t
  end.

(** The cursor [listenRedisStream] starts with. *)
Definition listen_start (h : Hub) : Tail := mkTail Dollar h.

End router.


(** *** The pumps of a client *)

(** Frames a pump puts on or takes off the connection. *)
Inductive Frame : Type :=
  | TextMessage (data : string)
  | PingMessage
  | CloseMessage.

(** Which case of the [select] in [WritePump] fired. *)
Inductive SelectCase : Type :=
  | CaseSend
  | CaseTicker.

(** How the writes of one round went: all fine, [NextWriter] failed,
    [w.Close] failed (for a ping: [WriteMessage] failed). *)
Inductive WriteOutcome : Type :=
  | WriteOk
  | NextWriterErr
  | CloseErr.

(** One round of the loop of [WritePump] on the client's [Send]
    channel: the channel afterwards, or [None] when the function
    returns, and the frames written in this round.  A round whose case
    is not ready does nothing. *)
Definition WritePump_round (case : SelectCase) (io : WriteOutcome)
    (ch : Chan) : option Chan * list Frame :=
  match case with
  | CaseSend =>
      match recv ch with
      | RecvClosed => (None, [CloseMessage])
      | Received message ch' =>
          match io with
          | NextWriterErr => (None, [])
          | CloseErr => (None, [TextMessage message])
          | WriteOk => (Some ch', [TextMessage message])
          end
      | RecvBlocks => (Some ch, [])
      end
  | CaseTicker =>
      match io with
      | WriteOk => (Some ch, [PingMessage])
      | _ => (None, [])
      end
  end.

(** [WritePump] along a schedule of rounds: whether it has returned
    (and so closed the connection), and everything written. *)
Fixpoint WritePump (sched : list (SelectCase * WriteOutcome)) (ch : Chan)
    : bool * list Frame :=
  match sched with
  | [] => (false, [])
  | (case, io) :: rest =>
      match WritePump_round case io ch with
      | (None, out) => (true, out)
      | (Some ch', out) =>
          let '(returned, out') := WritePump rest ch' in
          (returned, (out ++ out')%list)
      end
  end.

(** The read side of a [*websocket.Conn] as [ReadPump] configures it. *)
Record Conn : Type := mkConn {
  readLimit : Z;
  readDeadline : Time
}.

Definition maxMessageSize : Z := 4096.
Definition pongWait : Duration := (60 * Second)%Z.

(** The three statements before the loop of [ReadPump], run at [now]. *)
Definition ReadPump_setup (now : Time) : Conn :=
  mkConn maxMessageSize (Time_Add now pongWait).

(** The handler installed by [SetPongHandler], run at [now]. *)
Definition pongHandler (now : Time) (conn : Conn) : Conn :=
  mkConn (readLimit conn) (Time_Add now pongWait).

(** What arrives on the connection while [ReadPump] sits in
    [ReadMessage], with the arrival time: a pong control frame (the
    library runs the pong handler and keeps reading), a data message,
    or a failure of the read (close frame, network error). *)
Inductive WireEvent : Type :=
  | PongFrame (at_time : Time)
  | DataFrame (at_time : Time) (message : string)
  | ReadFailure (at_time : Time).

Inductive ReadExit : Type :=
  | ExitTimeout        (* read deadline passed *)
  | ExitReadLimit      (* websocket.ErrReadLimit *)
  | ExitReadError.     (* any other error of ReadMessage *)

(** Where [ReadPump] stands after a sequence of events: still in its
    loop, or returned, in which case the deferred function has sent the
    client to [Hub.Unregister] and closed the connection. *)
Inductive ReadState : Type :=
  | Reading (conn : Conn)
  | Exited (conn : Conn) (why : ReadExit).

Section pumps.
Context `{GoLibs}.

(** The body of the loop of [ReadPump] after a successful
    [ReadMessage]. *)
Definition ReadPump_frame (c : Client) (message : string) : Prog unit :=
  match json_Unmarshal message with
  | Some (type, receiverID) =>
      if decide (type = "typing") then
        let typingMsg :=
          mkWSMessage "typing"
            {[ "user_id" := VUUID (UserID c); "username" := VString (Username c) ]}
            uuid_Nil Time_zero in
        SendToUser receiverID (json_Marshal typingMsg)
      else mret tt
  | None => mret tt
  end.

(** The loop of [ReadPump] over the events of the connection.  The
    library fails a read once the deadline has passed and fails it with
    [ErrReadLimit] for a message longer than the read limit. *)
Fixpoint ReadPump_loop (c : Client) (conn : Conn) (evs : list WireEvent)
    : Prog ReadState :=
  match evs with
  | [] => mret (Reading conn)
  | PongFrame t :: rest =>
      if Time_After t (readDeadline conn) then mret (Exited conn ExitTimeout)
      else ReadPump_loop c (pongHandler t conn) rest
  | DataFrame t message :: rest =>
      if Time_After t (readDeadline conn) then mret (Exited conn ExitTimeout)
      else if (readLimit conn <? Z.of_nat (String.length message))%Z
      then mret (Exited conn ExitReadLimit)
      else ReadPump_frame c message;; ReadPump_loop c conn rest
  | ReadFailure t :: _ =>
      if Time_After t (readDeadline conn) then mret (Exited conn ExitTimeout)
      else mret (Exited conn ExitReadError)
  end.

(** [ReadPump] started at [start]. *)
Definition ReadPump (c : Client) (start : Time) (evs : list WireEvent)
    : Prog ReadState :=
  ReadPump_loop c (ReadPump_setup start) evs.

End pumps.

(** *** The hub as a transition system

    What the goroutines of one process do to the hub, one atomic action
    (one critical section of [mutex], or one channel operation) at a
    time. *)

(** The client is in the registry, under some user. *)
Definition registered (h : Hub) (client : ptr) : Prop :=
  exists (userID : UUID) (userClients : gset ptr),
    clients h !! userID = Some userClients /\ client ∈ userClients.

(** Every registered pointer refers to a client of that user whose
    [Send] channel is open. *)
Definition hub_inv (h : Hub) : Prop :=
  forall (userID : UUID) (userClients : gset ptr) (client : ptr),
    clients h !! userID = Some userClients -> client ∈ userClients ->
    exists cl : Client,
      heap h !! client = Some cl /\ UserID cl = userID /\ closed (Send cl) = false.

(** Modelled from the spec: the websocket endpoint, which creates the
    clients and is not part of the code under study.  A Session starts
    with an open outbound queue of fixed capacity and is registered
    with the hub before its pumps run: the endpoint allocates the
    client at a fresh address ([None] when the address is taken) and
    hands it to [Register]. *)
Definition connect (client : ptr) (userID : UUID) (name : string) (n : nat)
    (h : Hub) : option Hub :=
  match heap h !! client with
  | Some _ => None
  | None =>
      Register client
        (mkHub (clients h)
           (<[client := mkClient userID name (mkChan [] n false)]> (heap h)))
  end.

Inductive hub_step : Hub -> Hub -> Prop :=
  (* a client connects *)
  | hs_connect (h h' : Hub) (client : ptr) (userID : UUID) (name : string) (n : nat) :
      connect client userID name n h = Some h' ->
      hub_step h h'
  (* [ReadPump] returned and its client reached [Unregister] *)
  | hs_unregister (h h' : Hub) (client : ptr) :
      Unregister client h = Some h' ->
      hub_step h h'
  (* [WritePump] took a value off the client's channel *)
  | hs_drain (h : Hub) (client : ptr) (cl : Client) (v : string) (ch : Chan) :
      heap h !! client = Some cl ->
      recv (Send cl) = Received v ch ->
      hub_step h (mkHub (clients h) (<[client := with_Send cl ch]> (heap h)))
  (* the tailing loop delivered an entry *)
  | hs_broadcast (h h' : Hub) (userID : UUID) (message : string) (order : list ptr) :
      range_of h userID order ->
      broadcastToLocal userID message order h = Some h' ->
      hub_step h h'.

(** *** The shared stream and the tailing loop as a transition system

    The Redis stream, as its commands are documented: entries in
    increasing ID order and the greatest ID ever generated (which stays
    when entries are trimmed). *)
Record RedisStream : Type := mkRedisStream {
  entries : list XMessage;
  last_id : EntryID
}.

(** [XADD key MAXLEN ~ n * field value ...] with the generated ID [id]. *)
Definition xadd (id : EntryID) (vals : gmap string GoValue) (s : RedisStream)
    : RedisStream :=
  mkRedisStream (entries s ++ [mkXMessage id vals]) id.

(** Trimming to the cap evicts the [k] oldest entries. *)
Definition xtrim (k : nat) (s : RedisStream) : RedisStream :=
  mkRedisStream (drop k (entries s)) (last_id s).

(** [XREAD COUNT n BLOCK ms STREAMS key id]: the ID to read after (for
    ["$"], the greatest ID of the stream when the command arrives) and
    the entries it returns. *)
Definition xread_from (cursor : StreamID) (s : RedisStream) : EntryID :=
  match cursor with
  | Dollar => last_id s
  | Entry id => id
  end.

Definition xread_entries (from : EntryID) (count : nat) (s : RedisStream)
    : list XMessage :=
  take count (filter (fun m => (from < ID m)%N) (entries s)).

(** The stream is well formed: IDs increase along the entries and none
    exceeds the greatest generated ID. *)
Definition stream_ok (s : RedisStream) : Prop :=
  StronglySorted N.lt (ID <$> entries s) /\
  Forall (fun m => (ID m <= last_id s)%N) (entries s).

(** One process tailing the stream.  [pending] is the [XRead] in flight
    (the ID it reads after); [processed] records, oldest first, the IDs
    of the entries the loop body has run on. *)
Record Sys : Type := mkSys {
  stream : RedisStream;
  tail : Tail;
  pending : option EntryID;
  processed : list EntryID
}.

(** The process starts [listenRedisStream] on a stream that may already
    hold entries. *)
Definition sys_start (s0 : RedisStream) (h : Hub) : Sys :=
  mkSys s0 (listen_start h) None [].

Section system.
Context `{GoLibs}.

(** Each visiting order of a batch enumerates the set registered for
    the target of its entry at the moment the entry is handled. *)
Fixpoint ranges_ok (batch : list (XMessage * list ptr)) (t : Tail) : Prop :=
  match batch with
  | [] => True
  | (msg, order) :: rest =>
      match decode_entry msg with
      | Some (userID, _) => range_of (hub t) userID order
      | None => True
      end /\
      match listen_message order msg t with
      | Some t' => ranges_ok rest t'
      | None => True
      end
  end.

Inductive step : Sys -> Sys -> Prop :=
  (* some process publishes *)
  | step_xadd (s : RedisStream) (t : Tail) (p : option EntryID) (pr : list EntryID)
      (id : EntryID) (vals : gmap string GoValue) :
      (last_id s < id)%N ->
      step (mkSys s t p pr) (mkSys (xadd id vals s) t p pr)
  (* the cap evicts old entries *)
  | step_xtrim (s : RedisStream) (t : Tail) (p : option EntryID) (pr : list EntryID)
      (k : nat) :
      step (mkSys s t p pr) (mkSys (xtrim k s) t p pr)
  (* the loop issues XRead with its cursor *)
  | step_xread_call (s : RedisStream) (t : Tail) (pr : list EntryID) :
      step (mkSys s t None pr) (mkSys s t (Some (xread_from (lastID t) s)) pr)
  (* XRead timed out (redis.Nil) or failed: the round changes nothing *)
  | step_xread_none (s : RedisStream) (t : Tail) (from : EntryID) (pr : list EntryID)
      (res : XReadResult) (t' : Tail) :
      res = XReadNil \/ (exists e, res = XReadErr e) ->
      listen_round res [] t = Some t' ->
      step (mkSys s t (Some from) pr) (mkSys s t' None pr)
  (* XRead returned entries and the loop body ran on each of them *)
  | step_xread_ok (s : RedisStream) (t t' : Tail) (from : EntryID) (pr : list EntryID)
      (msgs : list XMessage) (orders : list (list ptr)) :
      msgs = xread_entries from 10 s ->
      msgs <> [] ->
      length orders = length msgs ->
      ranges_ok (zip msgs orders) t ->
      listen_round (XReadOk [mkXStream streamKey msgs]) orders t = Some t' ->
      step (mkSys s t (Some from) pr) (mkSys s t' None (pr ++ (ID <$> msgs)))
  (* the other goroutines act on the hub *)
  | step_hub (s : RedisStream) (l : StreamID) (h h' : Hub) (p : option EntryID)
      (pr : list EntryID) :
      hub_step h h' ->
      step (mkSys s (mkTail l h) p pr) (mkSys s (mkTail l h') p pr).

(** States the process can be in after it started on stream [s0]. *)
Inductive reachable (s0 : RedisStream) (h0 : Hub) : Sys -> Prop :=
  | reach_start : reachable s0 h0 (sys_start s0 h0)
  | reach_step (x y : Sys) : reachable s0 h0 x -> step x y -> reachable s0 h0 y.

End system.

(** *** Vocabulary of the properties of this package *)

(** The client was visited by the loop and its buffer was full. *)
Definition dropped (h : Hub) (order : list ptr) (client : ptr) : Prop :=
  client ∈ order /\
  exists cl, heap h !! client = Some cl /\ has_room (Send cl) = false.

(** The whole life of a channel: registered clients have open channels
    and a client that is no longer registered has a closed one. *)
Definition hub_life (h : Hub) : Prop :=
  hub_inv h /\
  forall (client : ptr) (cl : Client),
    heap h !! client = Some cl -> ~ registered h client -> closed (Send cl) = true.

(** Hubs a process can be in: it starts with [NewHub] and no client. *)
Definition hub_reachable (h : Hub) : Prop := rtc hub_step (NewHub ∅) h.

(** Rounds of a schedule in which the [Send] case fires. *)
Fixpoint send_rounds (sched : list (SelectCase * WriteOutcome)) : nat :=
  match sched with
  | [] => 0
  | (CaseSend, _) :: rest => S (send_rounds rest)
  | (CaseTicker, _) :: rest => send_rounds rest
  end.

(** What holds of every state of a process started on stream [s0]. *)
Record sys_inv (s0 : RedisStream) (x : Sys) : Prop := mkSysInv {
  inv_stream : stream_ok (stream x);
  inv_grow : (last_id s0 <= last_id (stream x))%N;
  inv_new : Forall (fun id => (last_id s0 < id)%N) (processed x);
  inv_sorted : StronglySorted N.lt (processed x);
  inv_cursor :
    lastID (tail x) =
      match last (processed x) with Some i => Entry i | None => Dollar end;
  inv_pending :
    forall from, pending x = Some from ->
      (last_id s0 <= from)%N /\ Forall (fun id => (id <= from)%N) (processed x)
}.

End realtime.

(** ** Package api: a chat handler that publishes

    [removeReaction] of chat_http.go calls two store methods that the
    signature [Call] does not have; its programs run over [ChatCall],
    which adds them, and a program over [Call] runs inside unchanged
    ([lift]). *)

Module chat.

(** [uuid.NullUUID] and the fields of [db.Message] the handler reads. *)
Record NullUUID : Type := mkNullUUID { NullUUID_UUID : UUID; NullUUID_Valid : bool }.

Record Message : Type := mkMessage {
  SenderID : UUID;
  ReceiverID : NullUUID
}.

Record DeleteMessageReactionParams : Type := mkDeleteMessageReactionParams {
  dr_MessageID : UUID;
  dr_UserID : UUID;
  dr_Emoji : string
}.

Record reactionRequest : Type := mkReactionRequest { Emoji : string }.

Inductive ChatCall : Type -> Type :=
  | GetMessage (id : UUID) : ChatCall (result Message)
  | DeleteMessageReaction (p : DeleteMessageReactionParams) : ChatCall (option error)
  | Base {X : Type} (c : Call X) : ChatCall X.

Inductive ChatEvent : Type :=
  | CEv {X : Type} (c : ChatCall X) (x : X).

Inductive ChatProg (R : Type) : Type :=
  | CRet (r : R)
  | CDo {X : Type} (c : ChatCall X) (k : X -> ChatProg R).
Arguments CRet {R} r.
Arguments CDo {R X} c k.

Fixpoint cbind {A B : Type} (p : ChatProg A) (f : A -> ChatProg B) : ChatProg B :=
  match p with
  | CRet a => f a
  | CDo c k => CDo c (fun x => cbind (k x) f)
  end.

Fixpoint lift {R : Type} (p : Prog R) : ChatProg R :=
  match p with
  | Ret r => CRet r
  | Do c k => CDo (Base c) (fun x => lift (k x))
  end.

Definition ChatSem (W : Type) : Type := forall X : Type, ChatCall X -> W -> X * W.

Fixpoint crun {W R : Type} (sem : ChatSem W) (p : ChatProg R) (w : W)
    : R * list ChatEvent * W :=
  match p with
  | CRet r => (r, [], w)
  | CDo c k =>
      let '(x, w1) := sem _ c w in
      let '(r, tr, w2) := crun sem (k x) w1 in
      (r, CEv c x :: tr, w2)
  end.

Section handlers.
Context `{GoLibs}.

(** The [realtime.WSMessage] of [removeReaction]; its payload is a
    [gin.H]. *)
Definition reaction_removed (messageID userID : UUID) (emoji : string) : WSMessage :=
  mkWSMessage "reaction_removed"
    {[ "message_id" := VUUID messageID; "user_id" := VUUID userID;
       "emoji" := VString emoji ]}
    uuid_Nil Time_zero.

(** [removeReaction].  [id] is [ctx.Param("id")] and [bound] is what
    [ctx.ShouldBindJSON(&req)] gave. *)
Definition removeReaction (id : string) (bound : result reactionRequest)
    (authPayload : api.Payload) : ChatProg Response :=
  match uuid_Parse id with
  | None => CRet (JSON StatusBadRequest (H {[ "error" := "Invalid message ID" ]}))
  | Some messageID =>
      match bound with
      | Err err => CRet (JSON StatusBadRequest (errorResponse err))
      | Ok req =>
          CDo (GetMessage messageID) (fun msgRes =>
          match msgRes with
          | Err e =>
              if decide (e = story.ErrNoRows)
              then CRet (JSON StatusNotFound (H {[ "error" := "Message not found" ]}))
              else CRet (JSON StatusInternalServerError (errorResponse e))
          | Ok msg =>
              CDo (DeleteMessageReaction
                     (mkDeleteMessageReactionParams messageID
                        (api.UserID authPayload) (Emoji req))) (fun err =>
              match err with
              | Some e => CRet (JSON StatusInternalServerError (errorResponse e))
              | None =>
                  let '(otherUserID, shouldNotify) :=
                    if decide (SenderID msg = api.UserID authPayload) then
                      if NullUUID_Valid (ReceiverID msg)
                      then (NullUUID_UUID (ReceiverID msg), true)
                      else (uuid_Nil, false)
                    else (SenderID msg, true) in
                  cbind
                    (if shouldNotify then
                       let wsMsg := reaction_removed messageID
                                      (api.UserID authPayload) (Emoji req) in
                       lift (realtime.SendToUser otherUserID (json_Marshal wsMsg))
                     else CRet tt)
                    (fun _ =>
                       CRet (JSON StatusOK (H {[ "message" := "Reaction removed" ]})))
              end)
          end)
      end
  end.

End handlers.

(** Reading traces of chat programs. *)
Definition cev_XAdd (e : ChatEvent) : option (XAddArgs * option error) :=
  match e with CEv (Base (XAdd args)) r => Some (args, r) | _ => None end.
Definition cev_GetMessage (e : ChatEvent) : option (UUID * result Message) :=
  match e with CEv (GetMessage id) r => Some (id, r) | _ => None end.
Definition cev_DeleteMessageReaction (e : ChatEvent)
    : option (DeleteMessageReactionParams * option error) :=
  match e with CEv (DeleteMessageReaction p) r => Some (p, r) | _ => None end.

(** The participant of a message that the caller is not: the receiver
    for the sender, the sender for anyone else. *)
Definition other_party (msg : Message) (authPayload : api.Payload) : UUID :=
  if decide (SenderID msg = api.UserID authPayload)
  then NullUUID_UUID (ReceiverID msg)
  else SenderID msg.

(** The caller sent the message to no single receiver. *)
Definition own_without_receiver (msg : Message) (authPayload : api.Payload) : bool :=
  bool_decide (SenderID msg = api.UserID authPayload)
  && negb (NullUUID_Valid (ReceiverID msg)).

End chat.

(** ** A scripted collaborator

    A semantics of the calls for examples: every call is answered from a
    fixed script, except the Redis keys, which are a map that [RedisSet]
    and [RedisDel] update and [RedisGet] reads. *)

Record Script : Type := mkScript {
  sc_profile : User;              (* the user row in the store *)
  sc_lookup_err : option error;   (* the failure of GetUserByID, if any *)
  sc_now : Time;
  sc_validation : ValidationResult;
  sc_store_err : option error;
  sc_story : result Story;
  sc_stories : result (list Story);
  sc_keys : gmap string string;
  sc_xadd : option error
}.

Definition script_set_keys (w : Script) (m : gmap string string) : Script :=
  mkScript (sc_profile w) (sc_lookup_err w) (sc_now w) (sc_validation w) (sc_store_err w)
    (sc_story w) (sc_stories w) m (sc_xadd w).

Definition script_sem : Sem Script :=
  fun X c w =>
    match c in Call T return T * Script with
    | GetUserByID _ =>
        (match sc_lookup_err w with
         | Some e => Err e
         | None => Ok (sc_profile w)
         end, w)
    | ToggleGhostMode _ => (sc_store_err w, w)
    | BanUser _ => (sc_store_err w, w)
    | CreateLocation _ => (sc_store_err w, w)
    | UpdateUserActivity _ => (sc_store_err w, w)
    | StoreCreateStory _ => (sc_story w, w)
    | GetStoryByID _ => (sc_story w, w)
    | StoreDeleteStory _ => (sc_store_err w, w)
    | GetStoriesWithinRadius _ => (sc_stories w, w)
    | ValidateUserMovement _ _ _ => (sc_validation w, w)
    | UpdateUserLocation _ _ _ => (sc_store_err w, w)
    | TimeNow => (sc_now w, w)
    | RedisGet key =>
        (match sc_keys w !! key with
         | Some v => Ok v
         | None => Err "redis: nil"
         end, w)
    | RedisSet key value _ => (tt, script_set_keys w (<[key := value]> (sc_keys w)))
    | RedisDel key => (tt, script_set_keys w (delete key (sc_keys w)))
    | XAdd _ => (sc_xadd w, w)
    | LogWarn _ => (tt, w)
    | LogError _ => (tt, w)
    end.

(** Sample library functions for the examples: a table of two
    coordinates for the geohash and of two users for the UUIDs. *)
Definition sample_libs : GoLibs := {|
  geohash_Encode := fun lat lng =>
    if (lat =? 10)%float && (lng =? 10)%float then "s1z0gs3y0zh7"
    else if (lat =? 10.0078125)%float && (lng =? 10.0078125)%float then "s1z0gtg9jq3w"
    else "7zzzzzzzzzzz";
  uuid_String := fun u =>
    if (u =? 1)%N then "00000000-0000-0000-0000-000000000001"
    else if (u =? 2)%N then "00000000-0000-0000-0000-000000000002"
    else "00000000-0000-0000-0000-000000000000";
  uuid_Parse := fun s =>
    if decide (s = "00000000-0000-0000-0000-000000000001") then Some 1%N
    else if decide (s = "00000000-0000-0000-0000-000000000002") then Some 2%N
    else None;
  json_Unmarshal := fun s =>
    if decide (s = "typing-to-2") then Some ("typing", 2%N)
    else if decide (s = "read-to-2") then Some ("read", 2%N)
    else None;
  json_Marshal := fun m => WSMessage_Type m;
  json_Marshal_feed := fun _ _ message _ => message
|}.

(** The same library functions, except that [json.Unmarshal] accepts
    the sample typing frame followed by anything (JSON may be followed
    by white space). *)
Definition sample_libs_padded : GoLibs := {|
  geohash_Encode := @geohash_Encode sample_libs;
  uuid_String := @uuid_String sample_libs;
  uuid_Parse := @uuid_Parse sample_libs;
  json_Unmarshal := fun s =>
    if String.prefix "typing-to-2" s then Some ("typing", 2%N) else None;
  json_Marshal := @json_Marshal sample_libs;
  json_Marshal_feed := @json_Marshal_feed sample_libs
|}.

(** ** Vocabulary of the properties *)

(** The lookup of the user did not show ghost mode: it failed, or the
    user has ghost mode off. *)
Definition ghost_off (userRes : result User) : Prop :=
  match userRes with
  | Ok user => IsGhostMode user = false
  | Err _ => True
  end.

(** What the client and the store see of a silently rejected update:
    no [CreateLocation] call, the answer HTTP 200 [{"status": "updated"}],
    and this answer equal to that of any run of the handler, in any
    world, in which a location was stored. *)
Definition rejected_silently `{GoLibs} {W : Type} (sem : Sem W) (w : W)
    (bound : result api.updateLocationRequest) (auth : api.Payload) : Prop :=
  existsb is_CreateLocation (trace_of sem (api.updateLocation bound auth) w) = false /\
  result_of sem (api.updateLocation bound auth) w
    = mkResponse 200 [] (H {[ "status" := "updated" ]}) /\
  forall (W' : Type) (sem' : Sem W') (w' : W')
         (bound' : result api.updateLocationRequest) (auth' : api.Payload),
    existsb is_location_stored
      (trace_of sem' (api.updateLocation bound' auth') w') = true ->
    result_of sem' (api.updateLocation bound' auth') w'
      = result_of sem (api.updateLocation bound auth) w.

(** The connection a read pump holds in a state. *)
Definition state_conn (st : realtime.ReadState) : realtime.Conn :=
  match st with
  | realtime.Reading conn => conn
  | realtime.Exited conn _ => conn
  end.

(** Some event of the list is a pong frame. *)
Definition has_pong (evs : list realtime.WireEvent) : bool :=
  existsb (fun ev => match ev with realtime.PongFrame _ => true | _ => false end) evs.

(** The effect of the Redis key commands of a trace on the keys (expiry
    aside). *)
Definition redis_effect (m : gmap string string) (e : Event) : gmap string string :=
  match e with
  | Ev (RedisSet key value _) _ => <[key := value]> m
  | Ev (RedisDel key) _ => delete key m
  | _ => m
  end.

Definition cache_after (tr : list Event) (m : gmap string string) : gmap string string :=
  foldl redis_effect m tr.

Definition is_RedisDel (key : string) (e : Event) : bool :=
  match e with
  | Ev (RedisDel k) _ => String.eqb k key
  | _ => false
  end.

(** A position is handed to a place that keeps it: the location table
    of the store or the geo index of the location service. *)
Definition is_location_write (e : Event) : bool :=
  match e with
  | Ev (CreateLocation _) _ | Ev (UpdateUserLocation _ _ _) _ => true
  | _ => false
  end.

(** Sample data for the examples. *)
Definition sample_auth : api.Payload := api.mkPayload 1%N.
Definition sample_req : api.updateLocationRequest :=
  api.mkUpdateLocationRequest 10%float 20%float.
Definition plain_user : User :=
  mkUser 1%N false NullTime_zero (mkNullBool false false).
Definition ghost_user (expires : NullTime) : User :=
  mkUser 1%N true expires (mkNullBool false false).
Definition sample_story : Story := mkStory 77%N 1%N "s1z0gs3y0zh7".

Definition sample_world (profile : User) (lookup_err : option error) (now : Time)
    (validation : ValidationResult) : Script :=
  mkScript profile lookup_err now validation None (Ok sample_story)
    (Ok [sample_story]) ∅ None.

(** The user teleported: the monitor refuses, without escalation. *)
Definition world_rejecting : Script :=
  sample_world plain_user None 1700000000000000000%Z (mkValidationResult false false).

(** Ghost mode without expiry, and with an expiry one second after or
    before the clock of the script. *)
Definition world_ghost : Script :=
  sample_world (ghost_user NullTime_zero) None 1700000000000000000%Z
    (mkValidationResult true false).
Definition world_ghost_expired : Script :=
  sample_world (ghost_user (mkNullTime 1699999999000000000%Z true)) None
    1700000000000000000%Z (mkValidationResult true false).

(** Ghost mode without expiry while the user lookup fails. *)
Definition world_ghost_lookup_down : Script :=
  sample_world (ghost_user NullTime_zero) (Some "driver: bad connection")
    1700000000000000000%Z (mkValidationResult true false).

(** A viewer and a story 1/128 of a degree apart, in one cell. *)
Definition sample_viewer : api.getFeedRequest :=
  api.mkGetFeedRequest 10%float 10%float.
Definition sample_story_req : story.CreateStoryParams :=
  story.mkCreateStoryParams 1%N "https://cdn.example/a.jpg" "image"
    10.0078125%float 10.0078125%float "hi" false true.

(** A hub in which user 2 has two sessions: client 10 with room in its
    channel and client 11 with a full channel; user 3 has client 12. *)
Definition client10 : realtime.Client :=
  realtime.mkClient 2%N "bob" (realtime.mkChan ["a"] 2 false).
Definition client11 : realtime.Client :=
  realtime.mkClient 2%N "bob" (realtime.mkChan ["b"] 1 false).
Definition client12 : realtime.Client :=
  realtime.mkClient 3%N "eve" (realtime.mkChan [] 1 false).

Definition sample_hub : realtime.Hub :=
  realtime.mkHub
    {[ 2%N := {[ 10%positive; 11%positive ]}; 3%N := {[ 12%positive ]} ]}
    {[ 10%positive := client10; 11%positive := client11; 12%positive := client12 ]}.

(** The hub after user 2 connected once, and a hub in which the only
    session of user 3 has a full channel. *)
Definition client_fresh : realtime.Client :=
  realtime.mkClient 2%N "bob" (realtime.mkChan [] 2 false).
Definition hub_one : realtime.Hub :=
  realtime.mkHub {[ 2%N := {[ 10%positive ]} ]} {[ 10%positive := client_fresh ]}.
Definition hub_full_only : realtime.Hub :=
  realtime.mkHub {[ 3%N := {[ 12%positive ]} ]}
    {[ 12%positive := realtime.mkClient 3%N "eve" (realtime.mkChan ["x"] 1 false) ]}.

(** A stream entry addressed to user 2, and one without a target. *)
Definition entry_for_2 (id : realtime.EntryID) : realtime.XMessage :=
  realtime.mkXMessage id
    {[ "target_user_id" := VString "00000000-0000-0000-0000-000000000002";
       "payload" := VString "hello" ]}.
Definition entry_malformed (id : realtime.EntryID) : realtime.XMessage :=
  realtime.mkXMessage id {[ "payload" := VString "hello" ]}.

(** A stream that holds one entry when the process starts, and the
    state of the process after it issued its first read, another
    process appended entry 6, and the read returned it. *)
Definition stream5 : realtime.RedisStream :=
  realtime.mkRedisStream [entry_malformed 5%N] 5%N.

Definition sys_after_one_read : realtime.Sys :=
  realtime.mkSys
    (realtime.xadd 6%N {[ "payload" := VString "hello" ]} stream5)
    (realtime.mkTail (realtime.Entry 6%N) (realtime.NewHub ∅))
    None [6%N].

(** ** Reading traces

    What a call of a given kind was asked and answered, [None] for an
    event of another kind. *)
Definition ev_CreateLocation (e : Event) : option (CreateLocationParams * option error) :=
  match e with Ev (CreateLocation p) r => Some (p, r) | _ => None end.
Definition ev_BanUser (e : Event) : option (BanUserParams * option error) :=
  match e with Ev (BanUser p) r => Some (p, r) | _ => None end.
Definition ev_ValidateUserMovement (e : Event)
    : option (string * float * float * ValidationResult) :=
  match e with
  | Ev (ValidateUserMovement s lat lng) val => Some (s, lat, lng, val)
  | _ => None
  end.
Definition ev_GetUserByID (e : Event) : option (UUID * result User) :=
  match e with Ev (GetUserByID id) r => Some (id, r) | _ => None end.
Definition ev_StoreCreateStory (e : Event) : option (db_CreateStoryParams * result Story) :=
  match e with Ev (StoreCreateStory p) r => Some (p, r) | _ => None end.
Definition ev_GetStoryByID (e : Event) : option (UUID * result Story) :=
  match e with Ev (GetStoryByID id) r => Some (id, r) | _ => None end.
Definition ev_StoreDeleteStory (e : Event) : option (UUID * option error) :=
  match e with Ev (StoreDeleteStory id) r => Some (id, r) | _ => None end.
Definition ev_GetStoriesWithinRadius (e : Event)
    : option (GetStoriesWithinRadiusParams * result (list Story)) :=
  match e with Ev (GetStoriesWithinRadius p) r => Some (p, r) | _ => None end.
Definition ev_RedisSet (e : Event) : option (string * string * Duration) :=
  match e with Ev (RedisSet key value ttl) _ => Some (key, value, ttl) | _ => None end.
Definition ev_RedisDel (e : Event) : option string :=
  match e with Ev (RedisDel key) _ => Some key | _ => None end.
Definition ev_XAdd (e : Event) : option (XAddArgs * option error) :=
  match e with Ev (XAdd args) r => Some (args, r) | _ => None end.

(** The calls of a kind in a trace, in order. *)
Definition calls {A : Type} (ev : Event -> option A) (tr : list Event) : list A :=
  omap ev tr.

(** The calls [updateLocation] makes before the movement check: the
    user lookup and what ends an expired ghost mode. *)
Definition is_ghost_prelude (e : Event) : bool :=
  match e with
  | Ev (GetUserByID _) _ | Ev TimeNow _ | Ev (ToggleGhostMode _) _ => true
  | _ => false
  end.

(** An append to the routing stream, or an error log line. *)
Definition is_publish (e : Event) : bool :=
  match e with
  | Ev (XAdd args) _ => String.eqb (xa_Stream args) realtime.streamKey
  | Ev (LogError _) _ => true
  | _ => false
  end.

(** A semantics whose world holds the Redis keys as Redis does (expiry
    aside): [RedisGet] reads them, [RedisSet] and [RedisDel] update
    them, and no other call touches them. *)
Record redis_faithful {W : Type} (sem : Sem W) (keys : W -> gmap string string)
    : Prop := mkRedisFaithful {
  rf_get_hit : forall key w v,
    keys w !! key = Some v -> (sem _ (RedisGet key) w).1 = Ok v;
  rf_get_miss : forall key w,
    keys w !! key = None -> exists e, (sem _ (RedisGet key) w).1 = Err e;
  rf_effect : forall (X : Type) (c : Call X) (w : W),
    keys (sem X c w).2 = redis_effect (keys w) (Ev c (sem X c w).1)
}.

(** The payloads a batch of stream entries carries for one user, in
    the order of the batch. *)
Definition payloads_for `{GoLibs} (userID : UUID) (msgs : list realtime.XMessage)
    : list string :=
  omap (fun msg =>
          match realtime.decode_entry msg with
          | Some (u, payload) => if decide (u = userID) then Some payload else None
          | None => None
          end) msgs.

(** What [getFeed] answers and caches for the rows the store returned:
    the message and the marshalled response. *)
Definition feed_message (stories : list Story) : string :=
  if decide (length stories = 0%nat) then "No stories found within 50km"
  else "Stories found nearby".

Definition feed_json `{GoLibs} (stories : list Story) : string :=
  json_Marshal_feed stories (Z.of_nat (length stories)) (feed_message stories)
    story.maxRadius.

(** A second viewer, 1/128 of a degree from the sample viewer. *)
Definition sample_neighbour : api.getFeedRequest :=
  api.mkGetFeedRequest 10.0078125%float 10.0078125%float.

(** The text frames among the frames written. *)
Definition text_frames (out : list realtime.Frame) : list string :=
  omap (fun f => match f with realtime.TextMessage data => Some data | _ => None end) out.

(** Every round of the schedule succeeds in its writes. *)
Definition all_ok (sched : list (realtime.SelectCase * realtime.WriteOutcome)) : bool :=
  forallb (fun r => match r.2 with realtime.WriteOk => true | _ => false end) sched.

(** * Properties *)

Local Open Scope list_scope.

(** ** Running programs *)

Lemma run_bind {W A B : Type} (sem : Sem W) (p : Prog A) (f : A -> Prog B) (w : W) :
  run sem (p ≫= f) w =
    let '(a, tr1, w1) := run sem p w in
    let '(b, tr2, w2) := run sem (f a) w1 in
    (b, tr1 ++ tr2, w2).
Proof.
  revert w. induction p as [a | X c k IH]; intros w; simpl.
  - destruct (run sem (f a) w) as [[b tr2] w2]. reflexivity.
  - destruct (sem X c w) as [x w1].
    change (pbind (k x) f) with (k x ≫= f). rewrite IH.
    destruct (run sem (k x) w1) as [[a tr1] w2].
    destruct (run sem (f a) w2) as [[b tr2] w3]. reflexivity.
Qed.

(** Unfold the program combinators and split on the answer of the next
    call. *)
Ltac prog_simpl :=
  unfold result_of, trace_of, mbind, mret, Prog_bind, Prog_ret, call in *;
  simpl in *.

Ltac run_call :=
  match goal with
  | |- context [let '(_, _) := ?sem ?X ?c ?w in _] =>
      is_var sem;
      let x := fresh "x" in
      let w' := fresh "w" in
      let E := fresh "E" in
      destruct (sem X c w) as [x w'] eqn:E; simpl in *
  | H : context [let '(_, _) := ?sem ?X ?c ?w in _] |- _ =>
      is_var sem;
      let x := fresh "x" in
      let w' := fresh "w" in
      let E := fresh "E" in
      destruct (sem X c w) as [x w'] eqn:E; simpl in *
  end.

(** Split on an answer that the program branches on. *)
Ltac split_answer :=
  match goal with
  | x : ValidationResult |- _ => destruct x; simpl in *
  | x : User |- _ => destruct x; simpl in *
  | x : NullTime |- _ => destruct x; simpl in *
  | x : NullBool |- _ => destruct x; simpl in *
  | |- context [negb ?b] => is_var b; destruct b; simpl in *
  | H : context [negb ?b] |- _ => is_var b; destruct b; simpl in *
  | |- context [match ?x with _ => _ end] => is_var x; destruct x; simpl in *
  | H : context [match ?x with _ => _ end] |- _ => is_var x; destruct x; simpl in *
  | |- context [if ?x then _ else _] => is_var x; destruct x; simpl in *
  | H : context [if ?x then _ else _] |- _ => is_var x; destruct x; simpl in *
  end.

Ltac run_all := repeat first [run_call | split_answer].

Module api_props.
Import api.

Section handlers.
Context `{GoLibs}.

Lemma checkAndPersist_reject W (sem : Sem W) (w : W) req auth :
  existsb is_monitor_reject
    (trace_of sem (updateLocation_checkAndPersist req auth) w) = true ->
  existsb is_CreateLocation
    (trace_of sem (updateLocation_checkAndPersist req auth) w) = false /\
  result_of sem (updateLocation_checkAndPersist req auth) w
    = JSON StatusOK status_updated.
Proof.
  unfold updateLocation_checkAndPersist. prog_simpl.
  run_all; auto; discriminate.
Qed.

Lemma checkAndPersist_stored W (sem : Sem W) (w : W) req auth :
  existsb is_location_stored
    (trace_of sem (updateLocation_checkAndPersist req auth) w) = true ->
  result_of sem (updateLocation_checkAndPersist req auth) w
    = JSON StatusOK status_updated.
Proof.
  unfold updateLocation_checkAndPersist. prog_simpl.
  run_all; auto; discriminate.
Qed.

(** A bound request is answered before the check or handed over to
    it: the trace is a prefix without monitor or location events
    followed by the trace of the check-and-persist part, whose answer
    is returned. *)
Lemma updateLocation_paths W (sem : Sem W) (w : W) req auth :
  (existsb is_ValidateUserMovement (trace_of sem (updateLocation (Ok req) auth) w) = false /\
   existsb is_CreateLocation (trace_of sem (updateLocation (Ok req) auth) w) = false) \/
  exists w1 pre,
    existsb is_ValidateUserMovement pre = false /\
    existsb is_CreateLocation pre = false /\
    trace_of sem (updateLocation (Ok req) auth) w
      = pre ++ trace_of sem (updateLocation_checkAndPersist req auth) w1 /\
    result_of sem (updateLocation (Ok req) auth) w
      = result_of sem (updateLocation_checkAndPersist req auth) w1.
Proof.
  unfold updateLocation.
  generalize (updateLocation_checkAndPersist req auth). intros rest.
  prog_simpl.
  destruct (sem _ (GetUserByID (UserID auth)) w) as [[user | e] w1] eqn:E1; simpl.
  - destruct user as [uid ghost [exp valid] prem]; simpl.
    destruct ghost; simpl.
    + destruct valid; simpl.
      * destruct (sem _ TimeNow w1) as [now w2] eqn:E2; simpl.
        destruct (Time_After now exp); simpl.
        -- destruct (sem _ (ToggleGhostMode _) w2) as [r w3] eqn:E3; simpl.
           right. exists w3.
           exists [Ev (GetUserByID (UserID auth))
                     (Ok (mkUser uid true (mkNullTime exp true) prem));
                   Ev TimeNow now;
                   Ev (ToggleGhostMode
                         (mkToggleGhostModeParams (UserID auth) false NullTime_zero)) r].
           destruct (run sem rest w3) as [[resp tr] w4].
           repeat split; reflexivity.
        -- left. split; reflexivity.
      * left. split; reflexivity.
    + right. exists w1.
      exists [Ev (GetUserByID (UserID auth)) (Ok (mkUser uid false (mkNullTime exp valid) prem))].
      destruct (run sem rest w1) as [[resp tr] w4].
      repeat split; reflexivity.
  - right. exists w1.
    exists [Ev (GetUserByID (UserID auth)) (Err e)].
    destruct (run sem rest w1) as [[resp tr] w4].
    repeat split; reflexivity.
Qed.

Lemma existsb_weaken (p q : Event -> bool) (l : list Event) :
  (forall e, p e = true -> q e = true) ->
  existsb q l = false -> existsb p l = false.
Proof.
  intros Hpq. induction l as [| e l IH]; simpl; [reflexivity |].
  intros Hq. apply orb_false_iff in Hq as [Hq1 Hq2].
  rewrite (IH Hq2), orb_false_r.
  destruct (p e) eqn:Hp; [| reflexivity].
  rewrite (Hpq e Hp) in Hq1. discriminate.
Qed.

Lemma reject_is_monitor (e : Event) :
  is_monitor_reject e = true -> is_ValidateUserMovement e = true.
Proof. destruct e as [X c x]; destruct c; simpl; congruence. Qed.

Lemma stored_is_CreateLocation (e : Event) :
  is_location_stored e = true -> is_CreateLocation e = true.
Proof. destruct e as [X c x]; destruct c; simpl; congruence. Qed.

Lemma updateLocation_reject W (sem : Sem W) (w : W) bound auth :
  existsb is_monitor_reject (trace_of sem (updateLocation bound auth) w) = true ->
  existsb is_CreateLocation (trace_of sem (updateLocation bound auth) w) = false /\
  result_of sem (updateLocation bound auth) w = JSON StatusOK status_updated.
Proof.
  intros Hrej. destruct bound as [req | err]; [| discriminate Hrej].
  destruct (updateLocation_paths W sem w req auth)
    as [[Hm _] | (w1 & pre & Hpm & Hpc & Htr & Hres)].
  - rewrite (existsb_weaken _ _ _ reject_is_monitor Hm) in Hrej. discriminate.
  - rewrite Htr, existsb_app in Hrej.
    rewrite (existsb_weaken _ _ _ reject_is_monitor Hpm) in Hrej. simpl in Hrej.
    destruct (checkAndPersist_reject W sem w1 req auth Hrej) as [Hc Hr].
    rewrite Htr, existsb_app, Hpc, Hc, Hres, Hr. split; reflexivity.
Qed.

Lemma updateLocation_stored W (sem : Sem W) (w : W) bound auth :
  existsb is_location_stored (trace_of sem (updateLocation bound auth) w) = true ->
  result_of sem (updateLocation bound auth) w = JSON StatusOK status_updated.
Proof.
  intros Hst. destruct bound as [req | err]; [| discriminate Hst].
  destruct (updateLocation_paths W sem w req auth)
    as [[_ Hc] | (w1 & pre & Hpm & Hpc & Htr & Hres)].
  - rewrite (existsb_weaken _ _ _ stored_is_CreateLocation Hc) in Hst. discriminate.
  - rewrite Htr, existsb_app in Hst.
    rewrite (existsb_weaken _ _ _ stored_is_CreateLocation Hpc) in Hst. simpl in Hst.
    rewrite Hres. apply checkAndPersist_stored, Hst.
Qed.

(** With ghost mode off the handler goes straight from the lookup to
    the movement check. *)
Lemma updateLocation_ghost_off_trace W (sem : Sem W) (w w1 : W) req auth userRes :
  sem _ (GetUserByID (UserID auth)) w = (userRes, w1) ->
  ghost_off userRes ->
  trace_of sem (updateLocation (Ok req) auth) w =
    Ev (GetUserByID (UserID auth)) userRes
      :: trace_of sem (updateLocation_checkAndPersist req auth) w1.
Proof.
  intros Hget Hoff. unfold updateLocation.
  generalize (updateLocation_checkAndPersist req auth). intros rest.
  prog_simpl. rewrite Hget. simpl.
  destruct userRes as [user | e]; simpl in *.
  - rewrite Hoff. destruct (run sem rest w1) as [[resp tr] w2]. reflexivity.
  - destruct (run sem rest w1) as [[resp tr] w2]. reflexivity.
Qed.

Lemma checkAndPersist_first_call W (sem : Sem W) (w w1 : W) req auth val :
  sem _ (ValidateUserMovement (uuid_String (UserID auth))
           (Latitude req) (Longitude req)) w = (val, w1) ->
  exists rest,
    trace_of sem (updateLocation_checkAndPersist req auth) w =
      Ev (ValidateUserMovement (uuid_String (UserID auth))
            (Latitude req) (Longitude req)) val :: rest.
Proof.
  intros Hval. unfold updateLocation_checkAndPersist. prog_simpl. rewrite Hval.
  destruct (run sem _ w1) as [[resp tr] w2]. simpl. eauto.
Qed.

(** C1.  A bound location update of an authenticated user whose
    lookup does not show ghost mode, for which the movement monitor
    answers [Allowed = false]: the handler makes no [CreateLocation]
    call and answers HTTP 200 with the body [{"status": "updated"}],
    the very response of every update that was accepted and stored.
    More generally the same holds of every run of the handler in which
    the monitor is consulted and refuses (this covers an expired ghost
    mode as well). *)
Theorem updateLocation_reject_looks_accepted
    (W : Type) (sem : Sem W) (w : W) (auth : Payload) :
  (forall req userRes w1 val w2,
     sem _ (GetUserByID (UserID auth)) w = (userRes, w1) ->
     ghost_off userRes ->
     sem _ (ValidateUserMovement (uuid_String (UserID auth))
              (Latitude req) (Longitude req)) w1 = (val, w2) ->
     Allowed val = false ->
     rejected_silently sem w (Ok req) auth) /\
  (forall bound,
     existsb is_monitor_reject (trace_of sem (updateLocation bound auth) w) = true ->
     rejected_silently sem w bound auth).
Proof.
  assert (Hgen : forall bound,
            existsb is_monitor_reject
              (trace_of sem (updateLocation bound auth) w) = true ->
            rejected_silently sem w bound auth).
  { intros bound Hrej. unfold rejected_silently.
    destruct (updateLocation_reject W sem w bound auth Hrej) as [Hc Hr].
    split; [exact Hc |]. split; [exact Hr |].
    intros W' sem' w' bound' auth' Hst.
    rewrite Hr. apply updateLocation_stored, Hst. }
  split; [| exact Hgen].
  intros req userRes w1 val w2 Hget Hoff Hval Hrej.
  apply Hgen.
  rewrite (updateLocation_ghost_off_trace W sem w w1 req auth userRes Hget Hoff).
  destruct (checkAndPersist_first_call W sem w1 w2 req auth val Hval) as [rest ->].
  simpl. rewrite Hrej. reflexivity.
Qed.

(** C10, as amended.  For a request whose body was bound and whose
    user lookup returned a user with ghost mode on: when the expiry is
    unset or not yet passed, the handler answers HTTP 200 with
    [{"status": "ghost"}] and its only calls are the user lookup and,
    when an expiry is set, the reading of the clock; so it never
    consults the movement monitor, makes no store write, and hands the
    position neither to the location table nor to the geo index.  When
    the expiry is set and passed, it calls [ToggleGhostMode] with ghost
    mode off and an empty expiry and then runs the check-and-persist
    part, whose answer it returns. *)
Theorem updateLocation_ghost_mode
    (W : Type) (sem : Sem W) (w w1 : W)
    (req : updateLocationRequest) (auth : Payload) (user : User) :
  sem _ (GetUserByID (UserID auth)) w = (Ok user, w1) ->
  IsGhostMode user = true ->
  ((NullTime_Valid (GhostModeExpiresAt user) = false \/
    Time_After (sem _ TimeNow w1).1 (NullTime_Time (GhostModeExpiresAt user)) = false) ->
   result_of sem (updateLocation (Ok req) auth) w
     = mkResponse 200 [] (H {[ "status" := "ghost" ]}) /\
   existsb is_ValidateUserMovement
     (trace_of sem (updateLocation (Ok req) auth) w) = false /\
   existsb is_store_write
     (trace_of sem (updateLocation (Ok req) auth) w) = false /\
   existsb is_location_write
     (trace_of sem (updateLocation (Ok req) auth) w) = false /\
   trace_of sem (updateLocation (Ok req) auth) w
     = Ev (GetUserByID (UserID auth)) (Ok user)
         :: (if NullTime_Valid (GhostModeExpiresAt user)
             then [Ev TimeNow (sem _ TimeNow w1).1]
             else [])) /\
  (NullTime_Valid (GhostModeExpiresAt user) = true ->
   Time_After (sem _ TimeNow w1).1 (NullTime_Time (GhostModeExpiresAt user)) = true ->
   run sem (updateLocation (Ok req) auth) w =
     let '(now, w2) := sem _ TimeNow w1 in
     let off := mkToggleGhostModeParams (UserID auth) false NullTime_zero in
     let '(r, w3) := sem _ (ToggleGhostMode off) w2 in
     let '(resp, tr, w4) := run sem (updateLocation_checkAndPersist req auth) w3 in
     (resp,
      Ev (GetUserByID (UserID auth)) (Ok user) :: Ev TimeNow now
        :: Ev (ToggleGhostMode off) r :: tr,
      w4)).
Proof.
  intros Hget Hghost.
  unfold updateLocation.
  generalize (updateLocation_checkAndPersist req auth). intros rest.
  prog_simpl. rewrite Hget. simpl. rewrite Hghost.
  destruct user as [uid ghost [exp valid] prem]; simpl in *.
  destruct (sem _ TimeNow w1) as [now w2] eqn:E2; simpl.
  split.
  - intros [Hv | Hte].
    + rewrite Hv. repeat split; reflexivity.
    + destruct valid; [| repeat split; reflexivity].
      unfold Time_After in *. simpl in *. rewrite E2. simpl. rewrite Hte.
      repeat split; reflexivity.
  - intros Hv Hte. rewrite Hv. unfold Time_After in *. simpl in *.
    rewrite E2. simpl. rewrite Hte. cbv zeta.
    destruct (sem _ (ToggleGhostMode _) w2) as [r w3] eqn:E3; simpl.
    rewrite ?E3. simpl.
    destruct (run sem rest w3) as [[resp tr] w4]. reflexivity.
Qed.

(** *** The feed cache *)

(** The truncation idiom takes the prefix of the given length. *)
Lemma truncate_hash_prefix (n : nat) (hash : string) :
  truncate_hash n hash = substring 0 n hash.
Proof.
  unfold truncate_hash. destruct (n <? String.length hash)%nat eqn:E; [reflexivity |].
  apply Nat.ltb_ge in E. revert n E.
  induction hash as [| a hash IH]; intros n E; simpl in *.
  - destruct n; reflexivity.
  - destruct n as [| n]; [lia |]. simpl. rewrite <- IH by lia. reflexivity.
Qed.

Lemma cache_after_app (tr1 tr2 : list Event) (m : gmap string string) :
  cache_after (tr1 ++ tr2) m = cache_after tr2 (cache_after tr1 m).
Proof. unfold cache_after. apply foldl_app. Qed.

Lemma is_RedisDel_refl (key : string) : is_RedisDel key (Ev (RedisDel key) tt) = true.
Proof. simpl. apply String.eqb_refl. Qed.

(** A successful [CreateStory] ends with the deletion of the key of the
    story's cell, and so does a successful [DeleteStory]. *)
Lemma CreateStory_invalidates W (sem : Sem W) (w : W)
    (req : story.CreateStoryParams) (st : Story) :
  result_of sem (story.CreateStory req) w = Ok st ->
  last (trace_of sem (story.CreateStory req) w) =
    Some (Ev (RedisDel ("feed:" ++ truncate_hash 5
                 (geohash_Encode (story.Latitude req) (story.Longitude req)))%string) tt).
Proof.
  unfold story.CreateStory, story.invalidateFeedCache. prog_simpl.
  run_all; intros Hres; try discriminate Hres.
  all: repeat match goal with u : unit |- _ => destruct u end.
  all: reflexivity.
Qed.

Lemma DeleteStory_invalidates W (sem : Sem W) (w : W) (storyID userID : UUID) :
  result_of sem (story.DeleteStory storyID userID) w = None ->
  exists st w1,
    sem _ (GetStoryByID storyID) w = (Ok st, w1) /\
    last (trace_of sem (story.DeleteStory storyID userID) w) =
      Some (Ev (RedisDel ("feed:" ++ truncate_hash 5 (Story_Geohash st))%string) tt).
Proof.
  unfold story.DeleteStory, story.invalidateFeedCache. prog_simpl.
  destruct (sem _ (GetStoryByID storyID) w) as [[st | e] w1] eqn:E1; simpl.
  - destruct (decide (Story_UserID st = userID)); simpl; [| discriminate].
    destruct (sem _ (StoreDeleteStory storyID) w1) as [[failure |] w2] eqn:E2; simpl;
      [discriminate |].
    destruct (sem _ (RedisDel _) w2) as [[] w3] eqn:E3; simpl.
    intros _. exists st, w1. split; reflexivity.
  - destruct (decide (e = story.ErrNoRows)); simpl; discriminate.
Qed.

Lemma cache_after_last_del (tr : list Event) (key : string) (m : gmap string string) :
  last tr = Some (Ev (RedisDel key) tt) ->
  cache_after tr m !! key = None /\ existsb (is_RedisDel key) tr = true.
Proof.
  intros Hlast. apply last_Some in Hlast as [pre ->]. split.
  - rewrite cache_after_app. simpl. apply lookup_delete_eq.
  - rewrite existsb_app. simpl. rewrite String.eqb_refl. apply orb_true_r.
Qed.

(** The row [CreateStory] writes carries the full geohash of the
    request's coordinate, which is what [DeleteStory] later reads. *)
Lemma CreateStory_stores_geohash W (sem : Sem W) (w : W)
    (req : story.CreateStoryParams) (p : db_CreateStoryParams) (r : result Story) :
  In (Ev (StoreCreateStory p) r) (trace_of sem (story.CreateStory req) w) ->
  cs_Geohash p = geohash_Encode (story.Latitude req) (story.Longitude req).
Proof.
  unfold story.CreateStory, story.invalidateFeedCache. prog_simpl.
  run_all; intros Hin.
  all: repeat (destruct Hin as [Hin | Hin];
               [try discriminate Hin;
                try (inversion Hin; subst; reflexivity) |]);
       try contradiction.
Qed.

(** [CreateStory] succeeds when its insert does, and [DeleteStory] when
    the lookup shows the caller's story and the store's delete
    succeeds. *)
Lemma CreateStory_inserted W (sem : Sem W) (w : W)
    (req : story.CreateStoryParams) (p : db_CreateStoryParams) (st : Story) :
  In (Ev (StoreCreateStory p) (Ok st)) (trace_of sem (story.CreateStory req) w) ->
  result_of sem (story.CreateStory req) w = Ok st.
Proof.
  unfold story.CreateStory, story.invalidateFeedCache. prog_simpl.
  run_all; intros Hin.
  all: repeat (destruct Hin as [Hin | Hin];
               [apply (f_equal ev_StoreCreateStory) in Hin; simpl in Hin;
                try discriminate Hin |]);
       try contradiction.
  all: injection Hin as _ <-; reflexivity.
Qed.

Lemma DeleteStory_succeeds W (sem : Sem W) (w w1 : W) (storyID userID : UUID)
    (st : Story) :
  sem _ (GetStoryByID storyID) w = (Ok st, w1) ->
  Story_UserID st = userID ->
  (sem _ (StoreDeleteStory storyID) w1).1 = None ->
  result_of sem (story.DeleteStory storyID userID) w = None.
Proof.
  intros Hget Hown Hdel.
  unfold story.DeleteStory, story.invalidateFeedCache. prog_simpl.
  rewrite Hget. simpl.
  destruct (decide (Story_UserID st = userID)); [| contradiction]. simpl.
  destruct (sem _ (StoreDeleteStory storyID) w1) as [err w2]. simpl in *. subst err.
  simpl. destruct (sem _ (RedisDel _) w2) as [[] w3]. reflexivity.
Qed.

(** C8.  When the geohashes of the viewer's coordinate and of a
    story's coordinate [(lat, lng)] have the same first five
    characters, the key [getFeed] reads first for the viewer is
    ["feed:"] followed by the five-character prefix of the story's
    geohash.  A [CreateStory] at [(lat, lng)] that succeeds, and a
    [DeleteStory] that succeeds on a stored story whose geohash is that
    of [(lat, lng)], each issue the deletion of exactly this key as
    their last Redis command, after which the key is absent.  And they
    do succeed: [CreateStory] whenever its insert into the store
    succeeded, [DeleteStory] whenever the lookup returned a story of
    the caller and the store's delete succeeded; so every story
    created or deleted in the viewer's cell deletes the viewer's
    key. *)
Theorem feed_cache_invalidated_in_cell
    (viewer : getFeedRequest) (auth : Payload) (lat lng : float) :
  substring 0 5 (geohash_Encode (gf_Latitude viewer) (gf_Longitude viewer))
    = substring 0 5 (geohash_Encode lat lng) ->
  feedCacheKey viewer = ("feed:" ++ substring 0 5 (geohash_Encode lat lng))%string /\
  (forall (W : Type) (sem : Sem W) (w : W),
     exists ans rest,
       trace_of sem (getFeed (Ok viewer) auth) w
         = Ev (RedisGet (feedCacheKey viewer)) ans :: rest) /\
  (forall (W : Type) (sem : Sem W) (w : W) (req : story.CreateStoryParams)
          (st : Story) (m : gmap string string),
     story.Latitude req = lat -> story.Longitude req = lng ->
     result_of sem (story.CreateStory req) w = Ok st ->
     existsb (is_RedisDel (feedCacheKey viewer))
       (trace_of sem (story.CreateStory req) w) = true /\
     cache_after (trace_of sem (story.CreateStory req) w) m !! feedCacheKey viewer = None) /\
  (forall (W : Type) (sem : Sem W) (w : W) (storyID userID : UUID)
          (st : Story) (m : gmap string string),
     (sem _ (GetStoryByID storyID) w).1 = Ok st ->
     Story_Geohash st = geohash_Encode lat lng ->
     result_of sem (story.DeleteStory storyID userID) w = None ->
     existsb (is_RedisDel (feedCacheKey viewer))
       (trace_of sem (story.DeleteStory storyID userID) w) = true /\
     cache_after (trace_of sem (story.DeleteStory storyID userID) w) m
       !! feedCacheKey viewer = None) /\
  (forall (W : Type) (sem : Sem W) (w : W) (req : story.CreateStoryParams)
          (p : db_CreateStoryParams) (st : Story) (m : gmap string string),
     story.Latitude req = lat -> story.Longitude req = lng ->
     In (Ev (StoreCreateStory p) (Ok st)) (trace_of sem (story.CreateStory req) w) ->
     result_of sem (story.CreateStory req) w = Ok st /\
     existsb (is_RedisDel (feedCacheKey viewer))
       (trace_of sem (story.CreateStory req) w) = true /\
     cache_after (trace_of sem (story.CreateStory req) w) m !! feedCacheKey viewer = None) /\
  (forall (W : Type) (sem : Sem W) (w w1 : W) (storyID userID : UUID)
          (st : Story) (m : gmap string string),
     sem _ (GetStoryByID storyID) w = (Ok st, w1) ->
     Story_UserID st = userID ->
     (sem _ (StoreDeleteStory storyID) w1).1 = None ->
     Story_Geohash st = geohash_Encode lat lng ->
     result_of sem (story.DeleteStory storyID userID) w = None /\
     existsb (is_RedisDel (feedCacheKey viewer))
       (trace_of sem (story.DeleteStory storyID userID) w) = true /\
     cache_after (trace_of sem (story.DeleteStory storyID userID) w) m
       !! feedCacheKey viewer = None).
Proof.
  intros Hprefix.
  assert (Hkey : feedCacheKey viewer
                 = ("feed:" ++ substring 0 5 (geohash_Encode lat lng))%string).
  { unfold feedCacheKey. rewrite truncate_hash_prefix, Hprefix. reflexivity. }
  assert (Hcreate : forall (W : Type) (sem : Sem W) (w : W)
                      (req : story.CreateStoryParams) (st : Story)
                      (m : gmap string string),
            story.Latitude req = lat -> story.Longitude req = lng ->
            result_of sem (story.CreateStory req) w = Ok st ->
            existsb (is_RedisDel (feedCacheKey viewer))
              (trace_of sem (story.CreateStory req) w) = true /\
            cache_after (trace_of sem (story.CreateStory req) w) m
              !! feedCacheKey viewer = None).
  { intros W sem w req st m Hlat Hlng Hres.
    pose proof (CreateStory_invalidates W sem w req st Hres) as Hlast.
    rewrite Hlat, Hlng, truncate_hash_prefix, <- Hkey in Hlast.
    destruct (cache_after_last_del _ _ m Hlast). auto. }
  assert (Hdelete : forall (W : Type) (sem : Sem W) (w : W) (storyID userID : UUID)
                      (st : Story) (m : gmap string string),
            (sem _ (GetStoryByID storyID) w).1 = Ok st ->
            Story_Geohash st = geohash_Encode lat lng ->
            result_of sem (story.DeleteStory storyID userID) w = None ->
            existsb (is_RedisDel (feedCacheKey viewer))
              (trace_of sem (story.DeleteStory storyID userID) w) = true /\
            cache_after (trace_of sem (story.DeleteStory storyID userID) w) m
              !! feedCacheKey viewer = None).
  { intros W sem w storyID userID st m Hget Hgeo Hres.
    destruct (DeleteStory_invalidates W sem w storyID userID Hres)
      as (st' & w1 & Hget' & Hlast).
    rewrite Hget' in Hget. simpl in Hget. injection Hget as ->.
    rewrite Hgeo, truncate_hash_prefix, <- Hkey in Hlast.
    destruct (cache_after_last_del _ _ m Hlast). auto. }
  split; [exact Hkey |]. split; [| split; [exact Hcreate | split; [exact Hdelete | split]]].
  - intros W sem w. unfold getFeed. prog_simpl.
    destruct (sem _ (RedisGet (feedCacheKey viewer)) w) as [ans w1] eqn:E.
    destruct (run sem _ w1) as [[resp tr] w2]. simpl. eauto.
  - intros W sem w req p st m Hlat Hlng Hin.
    pose proof (CreateStory_inserted W sem w req p st Hin) as Hres.
    split; [exact Hres |]. apply (Hcreate W sem w req st m Hlat Hlng Hres).
  - intros W sem w w1 storyID userID st m Hget Hown Hdel Hgeo.
    pose proof (DeleteStory_succeeds W sem w w1 storyID userID st Hget Hown Hdel) as Hres.
    split; [exact Hres |].
    apply (Hdelete W sem w storyID userID st m); [rewrite Hget; reflexivity | exact Hgeo | exact Hres].
Qed.

End handlers.

(** A rejected update in the scripted world. *)
Lemma updateLocation_reject_looks_accepted_witness :
  existsb is_CreateLocation
    (trace_of script_sem (@updateLocation sample_libs (Ok sample_req) sample_auth)
       world_rejecting) = false /\
  result_of script_sem (@updateLocation sample_libs (Ok sample_req) sample_auth)
    world_rejecting
    = mkResponse 200 [] (H {[ "status" := "updated" ]}).
Proof.
  destruct (@updateLocation_reject_looks_accepted sample_libs Script script_sem
              world_rejecting sample_auth) as [Hclaim Hgeneral].
  destruct (Hclaim sample_req (Ok plain_user) world_rejecting
              (mkValidationResult false false) world_rejecting
              eq_refl eq_refl eq_refl eq_refl) as (Hnone & Hresp & _).
  destruct (Hgeneral (Ok sample_req) eq_refl) as (Hnone' & _).
  split; [exact Hnone | exact Hresp].
Defined.

(** Ghost mode without expiry, and ghost mode that expired a second
    ago, in the scripted world. *)
Lemma updateLocation_ghost_mode_witness :
  (result_of script_sem (@updateLocation sample_libs (Ok sample_req) sample_auth)
     world_ghost
     = mkResponse 200 [] (H {[ "status" := "ghost" ]}) /\
   existsb is_store_write
     (trace_of script_sem (@updateLocation sample_libs (Ok sample_req) sample_auth)
        world_ghost) = false /\
   existsb is_location_write
     (trace_of script_sem (@updateLocation sample_libs (Ok sample_req) sample_auth)
        world_ghost) = false /\
   trace_of script_sem (@updateLocation sample_libs (Ok sample_req) sample_auth)
     world_ghost
     = [Ev (GetUserByID 1%N) (Ok (ghost_user NullTime_zero))]) /\
  result_of script_sem (@updateLocation sample_libs (Ok sample_req) sample_auth)
    world_ghost_expired
    = result_of script_sem
        (@updateLocation_checkAndPersist sample_libs sample_req sample_auth)
        world_ghost_expired.
Proof.
  destruct (@updateLocation_ghost_mode sample_libs Script script_sem
              world_ghost world_ghost sample_req sample_auth
              (ghost_user NullTime_zero) eq_refl eq_refl) as [Hactive _].
  destruct (Hactive (or_introl eq_refl)) as (Hres & _ & Hwrites & Hplaces & Htrace).
  destruct (@updateLocation_ghost_mode sample_libs Script script_sem
              world_ghost_expired world_ghost_expired sample_req sample_auth
              (ghost_user (mkNullTime 1699999999000000000%Z true)) eq_refl eq_refl)
    as [_ Hexpired].
  split; [split; [exact Hres | split; [exact Hwrites | split; [exact Hplaces | exact Htrace]]] |].
  unfold result_of. rewrite (Hexpired eq_refl eq_refl). reflexivity.
Defined.

(** C10 as stated fails on two inputs.  A ghost-mode user whose
    request body does not bind gets HTTP 400, not the ghost answer.
    And when the lookup of a ghost-mode user fails, the handler goes
    on to the movement check and stores the location. *)
Lemma updateLocation_ghost_unbound_request :
  let bad := Err "Key: 'updateLocationRequest.Latitude' Error:Field validation for 'Latitude' failed on the 'max' tag" in
  (IsGhostMode (sc_profile world_ghost) = true /\
   NullTime_Valid (GhostModeExpiresAt (sc_profile world_ghost)) = false /\
   status (result_of script_sem (@updateLocation sample_libs bad sample_auth) world_ghost)
     = 400%Z /\
   result_of script_sem (@updateLocation sample_libs bad sample_auth) world_ghost
     <> mkResponse 200 [] (H {[ "status" := "ghost" ]})) /\
  (IsGhostMode (sc_profile world_ghost_lookup_down) = true /\
   NullTime_Valid (GhostModeExpiresAt (sc_profile world_ghost_lookup_down)) = false /\
   result_of script_sem (@updateLocation sample_libs (Ok sample_req) sample_auth)
     world_ghost_lookup_down
     = mkResponse 200 [] (H {[ "status" := "updated" ]}) /\
   existsb is_ValidateUserMovement
     (trace_of script_sem (@updateLocation sample_libs (Ok sample_req) sample_auth)
        world_ghost_lookup_down) = true /\
   existsb is_location_stored
     (trace_of script_sem (@updateLocation sample_libs (Ok sample_req) sample_auth)
        world_ghost_lookup_down) = true).
Proof.
  split.
  - repeat split; try reflexivity. intros E. discriminate E.
  - repeat split; reflexivity.
Qed.

Lemma feed_cache_invalidated_in_cell_witness :
  (result_of script_sem (@story.CreateStory sample_libs sample_story_req) world_ghost
     = Ok sample_story /\
   cache_after
     (trace_of script_sem (@story.CreateStory sample_libs sample_story_req) world_ghost)
     {[ "feed:s1z0g" := "cached feed" ]}
     !! @feedCacheKey sample_libs sample_viewer = None) /\
  (result_of script_sem (story.DeleteStory 77%N 1%N) world_ghost = None /\
   existsb (is_RedisDel (@feedCacheKey sample_libs sample_viewer))
     (trace_of script_sem (story.DeleteStory 77%N 1%N) world_ghost) = true /\
   cache_after
     (trace_of script_sem (story.DeleteStory 77%N 1%N) world_ghost)
     {[ "feed:s1z0g" := "cached feed" ]}
     !! @feedCacheKey sample_libs sample_viewer = None).
Proof.
  destruct (@feed_cache_invalidated_in_cell sample_libs sample_viewer sample_auth
              10.0078125%float 10.0078125%float eq_refl)
    as (_ & _ & _ & _ & Hcreate & _).
  destruct (@feed_cache_invalidated_in_cell sample_libs sample_viewer sample_auth
              10%float 10%float eq_refl)
    as (_ & _ & _ & _ & _ & Hdelete).
  split.
  - destruct (Hcreate Script script_sem world_ghost sample_story_req
                (mkDbCreateStoryParams 1%N "https://cdn.example/a.jpg" "image"
                   (mkNullString "hi" true) "s1z0gtg9jq3w" 10.0078125%float
                   10.0078125%float false true (mkNullBool false true)
                   1700086400000000000%Z)
                sample_story {[ "feed:s1z0g" := "cached feed" ]} eq_refl eq_refl)
      as (Hres & _ & Hnone).
    + vm_compute. do 3 right. left. reflexivity.
    + split; [exact Hres | exact Hnone].
  - exact (Hdelete Script script_sem world_ghost world_ghost 77%N 1%N sample_story
             {[ "feed:s1z0g" := "cached feed" ]} eq_refl eq_refl eq_refl eq_refl).
Defined.

End api_props.

Module realtime_props.
Import realtime.

(** *** Channels *)

Lemma try_send_open (ch : Chan) (v : string) :
  closed ch = false ->
  try_send ch v =
    if has_room ch then Sent (mkChan (buf ch ++ [v]) (cap ch) false) else WouldBlock.
Proof. intros Hopen. unfold try_send, has_room. rewrite Hopen. reflexivity. Qed.

Lemma close_chan_open (ch : Chan) :
  closed ch = false -> close_chan ch = Some (mkChan (buf ch) (cap ch) true).
Proof. intros Hopen. unfold close_chan. rewrite Hopen. reflexivity. Qed.

(** *** One round and the whole loop of [broadcastToLocal] *)

Lemma broadcast_one_open (userID : UUID) (message : string) (h : Hub)
    (client : ptr) (cl : Client) :
  heap h !! client = Some cl ->
  closed (Send cl) = false ->
  broadcast_one userID message h client =
    Some (if has_room (Send cl)
          then mkHub (clients h) (<[client := enqueued cl message]> (heap h))
          else mkHub (<[userID := sessions h userID ∖ {[client]}]> (clients h))
                     (<[client := shut cl]> (heap h))).
Proof.
  intros Hcl Hopen. unfold broadcast_one. rewrite Hcl. simpl.
  rewrite (try_send_open _ _ Hopen).
  destruct (has_room (Send cl)); [reflexivity |].
  rewrite (close_chan_open _ Hopen). reflexivity.
Qed.

Lemma broadcast_range_spec (userID : UUID) (message : string) (order : list ptr) :
  forall h : Hub,
    NoDup order ->
    (forall client, client ∈ order ->
       exists cl, heap h !! client = Some cl /\ closed (Send cl) = false) ->
    exists h',
      broadcast_range userID message order h = Some h' /\
      (forall client, client ∉ order -> heap h' !! client = heap h !! client) /\
      (forall client cl, client ∈ order -> heap h !! client = Some cl ->
         heap h' !! client
           = Some (if has_room (Send cl) then enqueued cl message else shut cl)) /\
      (forall other, other <> userID -> clients h' !! other = clients h !! other) /\
      (forall client, client ∈ sessions h' userID <->
         client ∈ sessions h userID /\ ~ dropped h order client) /\
      (is_Some (clients h !! userID) -> is_Some (clients h' !! userID)).
Proof.
  induction order as [| c rest IH]; intros h Hnd Hopen.
  - exists h. simpl.
    split; [reflexivity |]. split; [reflexivity |].
    split; [intros client cl Hin; inversion Hin |].
    split; [reflexivity |]. split; [| auto].
    intros client. split; [| tauto].
    intros Hin. split; [exact Hin |]. intros [Hin' _]. inversion Hin'.
  - apply NoDup_cons in Hnd as [Hc Hnd].
    destruct (Hopen c) as (cl & Hcl & Hclopen); [left |].
    simpl. rewrite (broadcast_one_open _ _ _ _ _ Hcl Hclopen). simpl.
    set (h1 := if has_room (Send cl)
               then mkHub (clients h) (<[c := enqueued cl message]> (heap h))
               else mkHub (<[userID := sessions h userID ∖ {[c]}]> (clients h))
                          (<[c := shut cl]> (heap h))).
    assert (Hheap1 : forall client, client <> c -> heap h1 !! client = heap h !! client).
    { intros client Hne. unfold h1. destruct (has_room (Send cl)); simpl;
        rewrite lookup_insert_ne; auto. }
    assert (Hheapc : heap h1 !! c
                     = Some (if has_room (Send cl) then enqueued cl message else shut cl)).
    { unfold h1. destruct (has_room (Send cl)); simpl; rewrite lookup_insert_eq; auto. }
    destruct (IH h1 Hnd) as (h' & Hrun & Hout & Hin & Hoth & Hses & Hkey).
    { intros client Hclient.
      assert (client <> c) by (intros ->; contradiction).
      rewrite Hheap1; auto. apply Hopen. right. exact Hclient. }
    exists h'. split; [exact Hrun |]. split; [| split; [| split; [| split]]].
    + intros client Hnot. apply not_elem_of_cons in Hnot as [Hne Hnot].
      rewrite Hout; auto.
    + intros client cl' Hclient Hcl'.
      apply elem_of_cons in Hclient as [-> | Hclient].
      * rewrite Hout; auto. rewrite Hheapc.
        rewrite Hcl in Hcl'. injection Hcl' as ->. reflexivity.
      * assert (client <> c) by (intros ->; contradiction).
        apply Hin; auto. rewrite Hheap1; auto.
    + intros other Hne. rewrite Hoth; auto.
      unfold h1. destruct (has_room (Send cl)); simpl; auto.
      rewrite lookup_insert_ne; auto.
    + intros client. rewrite Hses.
      assert (Hs1 : client ∈ sessions h1 userID <->
                    client ∈ sessions h userID /\
                    ~ (client = c /\ has_room (Send cl) = false)).
      { unfold h1, sessions. destruct (has_room (Send cl)); simpl.
        - split; [intros ?; split; auto; intros [_ ?]; discriminate | tauto].
        - rewrite lookup_insert_eq. simpl. rewrite elem_of_difference, elem_of_singleton.
          split; [intros [? ?]; split; auto; tauto |].
          intros [? Hn]. split; auto. }
      rewrite Hs1. unfold dropped.
      split.
      * intros [[Hs Hnc] Hnd1]. split; [exact Hs |].
        intros [Hclient (cl' & Hcl' & Hfull)].
        apply elem_of_cons in Hclient as [-> | Hclient].
        -- apply Hnc. split; auto. congruence.
        -- apply Hnd1. split; [exact Hclient |].
           assert (client <> c) by (intros ->; contradiction).
           exists cl'. rewrite Hheap1; auto.
      * intros [Hs Hnd1]. split; [split; [exact Hs |] |].
        -- intros [-> Hfull]. apply Hnd1. split; [left |]. exists cl. auto.
        -- intros [Hclient (cl' & Hcl' & Hfull)].
           assert (client <> c) by (intros ->; contradiction).
           apply Hnd1. split; [right; exact Hclient |].
           exists cl'. rewrite <- Hheap1; auto.
    + intros Hsome. apply Hkey. unfold h1.
      destruct (has_room (Send cl)); simpl; auto.
      rewrite lookup_insert_eq. eauto.
Qed.

Lemma range_of_elem (h : Hub) (userID : UUID) (order : list ptr) :
  range_of h userID order ->
  NoDup order /\ forall client, client ∈ order <-> client ∈ sessions h userID.
Proof.
  unfold range_of. intros Hperm. split.
  - rewrite Hperm. apply NoDup_elements.
  - intros client. rewrite Hperm. apply elem_of_elements.
Qed.

Lemma hub_inv_sessions (h : Hub) (userID : UUID) (client : ptr) :
  hub_inv h -> client ∈ sessions h userID ->
  exists cl, heap h !! client = Some cl /\ UserID cl = userID /\ closed (Send cl) = false.
Proof.
  unfold sessions. intros Hinv Hin.
  destruct (clients h !! userID) as [s |] eqn:Hs; simpl in Hin.
  - exact (Hinv userID s client Hs Hin).
  - exfalso. set_solver.
Qed.

(** [broadcastToLocal] on a hub in which registered channels are open:
    it returns, every session of the user with room has the message
    queued once, every full one is closed and leaves the set, and
    nothing else changes. *)
Lemma broadcastToLocal_spec (userID : UUID) (message : string)
    (order : list ptr) (h : Hub) :
  hub_inv h ->
  range_of h userID order ->
  exists h',
    broadcastToLocal userID message order h = Some h' /\
    (forall client, client ∉ sessions h userID -> heap h' !! client = heap h !! client) /\
    (forall client cl, client ∈ sessions h userID -> heap h !! client = Some cl ->
       heap h' !! client
         = Some (if has_room (Send cl) then enqueued cl message else shut cl)) /\
    (forall other, other <> userID -> clients h' !! other = clients h !! other) /\
    (forall client cl, heap h !! client = Some cl ->
       (client ∈ sessions h' userID <->
        client ∈ sessions h userID /\ has_room (Send cl) = true)) /\
    hub_inv h'.
Proof.
  intros Hinv Hrange.
  destruct (range_of_elem _ _ _ Hrange) as [Hnd Hmem].
  unfold broadcastToLocal.
  destruct (clients h !! userID) as [s |] eqn:Hs.
  - destruct (broadcast_range_spec userID message order h Hnd)
      as (h' & Hrun & Hout & Hin & Hoth & Hses & Hkey).
    { intros client Hclient. apply Hmem in Hclient.
      destruct (hub_inv_sessions _ _ _ Hinv Hclient) as (cl & ? & ? & ?). eauto. }
    assert (Hses' : forall client cl, heap h !! client = Some cl ->
              (client ∈ sessions h' userID <->
               client ∈ sessions h userID /\ has_room (Send cl) = true)).
    { intros client cl Hcl. rewrite Hses. unfold dropped. split.
      - intros [Hin1 Hnd1]. split; [exact Hin1 |].
        destruct (has_room (Send cl)) eqn:Hroom; [reflexivity |].
        exfalso. apply Hnd1. split; [apply Hmem, Hin1 |]. eauto.
      - intros [Hin1 Hroom]. split; [exact Hin1 |].
        intros [_ (cl' & Hcl' & Hfull)]. congruence. }
    exists h'. split; [exact Hrun |].
    split; [intros client Hnot; apply Hout; rewrite Hmem; exact Hnot |].
    split; [intros client cl Hclient; apply Hin, Hmem, Hclient |].
    split; [exact Hoth |]. split; [exact Hses' |].
    intros other s' client Hs' Hclient.
    destruct (decide (other = userID)) as [-> | Hne].
    + assert (Hin' : client ∈ sessions h' userID)
        by (unfold sessions; rewrite Hs'; exact Hclient).
      apply Hses in Hin' as [Hin1 Hnd1].
      destruct (hub_inv_sessions _ _ _ Hinv Hin1) as (cl & Hcl & Hu & Hopen).
      rewrite (Hin client cl (proj2 (Hmem client) Hin1) Hcl).
      destruct (has_room (Send cl)) eqn:Hroom.
      * exists (enqueued cl message). auto.
      * exfalso. apply Hnd1. split; [apply Hmem, Hin1 |]. eauto.
    + rewrite (Hoth other Hne) in Hs'.
      destruct (Hinv other s' client Hs' Hclient) as (cl & Hcl & Hu & Hopen).
      exists cl. split; [| auto].
      rewrite Hout; [exact Hcl |].
      intros Hclient'. apply Hmem in Hclient'.
      destruct (hub_inv_sessions _ _ _ Hinv Hclient') as (cl' & Hcl' & Hu' & _).
      congruence.
  - exists h. split; [reflexivity |]. split; [reflexivity |].
    unfold sessions. rewrite Hs. simpl.
    split; [intros client cl Hin; apply elem_of_empty in Hin; contradiction |].
    split; [reflexivity |].
    split; [| exact Hinv].
    intros client cl _. rewrite elem_of_empty. tauto.
Qed.

(** C3.  In a hub whose registered channels are open (every hub a
    process can reach is such, [hub_reachable_life]), a local delivery
    always returns a hub (the [select] with [default] never waits and
    nothing panics), whatever the visiting order.  A session whose
    channel has no room is closed and leaves the user's set; every
    session with room, visited before or after a full one, gets the
    payload queued and stays.  The function has no result to report to
    a publisher. *)
Theorem broadcastToLocal_full_session_dropped
    (userID : UUID) (message : string) (order : list ptr) (h : Hub) :
  hub_inv h ->
  range_of h userID order ->
  exists h',
    broadcastToLocal userID message order h = Some h' /\
    forall client cl,
      client ∈ sessions h userID -> heap h !! client = Some cl ->
      (has_room (Send cl) = false ->
         exists cl', heap h' !! client = Some cl' /\
           closed (Send cl') = true /\ buf (Send cl') = buf (Send cl) /\
           client ∉ sessions h' userID) /\
      (has_room (Send cl) = true ->
         exists cl', heap h' !! client = Some cl' /\
           closed (Send cl') = false /\ buf (Send cl') = buf (Send cl) ++ [message] /\
           client ∈ sessions h' userID).
Proof.
  intros Hinv Hrange.
  destruct (broadcastToLocal_spec userID message order h Hinv Hrange)
    as (h' & Hrun & _ & Hin & _ & Hses & _).
  exists h'. split; [exact Hrun |].
  intros client cl Hclient Hcl.
  specialize (Hin client cl Hclient Hcl). specialize (Hses client cl Hcl).
  split; intros Hroom; rewrite Hroom in Hin.
  - exists (shut cl). repeat split; auto.
    rewrite Hses. intros [_ ?]. congruence.
  - exists (enqueued cl message). repeat split; auto.
    apply Hses. auto.
Qed.

(** *** Unregistering and the write pump *)


(** On a closed, drained channel the [Send] case writes the close
    frame and returns. *)
Lemma WritePump_round_closed (io : WriteOutcome) (ch : Chan) :
  closed ch = true -> buf ch = [] ->
  WritePump_round CaseSend io ch = (None, [CloseMessage]).
Proof.
  intros Hc Hb. unfold WritePump_round, recv. rewrite Hb, Hc. reflexivity.
Qed.

Lemma registered_sessions (h : Hub) (client : ptr) :
  registered h client <-> exists userID, client ∈ sessions h userID.
Proof.
  unfold registered, sessions. split.
  - intros (u & s & Hs & Hin). exists u. rewrite Hs. exact Hin.
  - intros (u & Hin). destruct (clients h !! u) as [s |] eqn:Hs; simpl in Hin.
    + exists u, s. auto.
    + apply elem_of_empty in Hin. contradiction.
Qed.

Lemma registered_own_user (h : Hub) (client : ptr) (cl : Client) (userID : UUID) :
  hub_inv h -> heap h !! client = Some cl -> client ∈ sessions h userID ->
  userID = UserID cl /\ closed (Send cl) = false.
Proof.
  intros Hinv Hcl Hin.
  destruct (hub_inv_sessions _ _ _ Hinv Hin) as (cl' & Hcl' & Hu & Hopen).
  rewrite Hcl in Hcl'. injection Hcl' as <-. auto.
Qed.

(** [Unregister] of a client that is not registered changes nothing. *)
Lemma Unregister_absent (h : Hub) (client : ptr) (cl : Client) :
  heap h !! client = Some cl ->
  client ∉ sessions h (UserID cl) ->
  Unregister client h = Some h.
Proof.
  intros Hcl Hnot. unfold Unregister. rewrite Hcl. simpl.
  unfold sessions in Hnot.
  destruct (clients h !! UserID cl) as [s |]; simpl in *; [| reflexivity].
  destruct (decide (client ∈ s)); [contradiction | reflexivity].
Qed.

(** [Unregister] of a registered client. *)
Lemma Unregister_present (h : Hub) (client : ptr) (cl : Client) :
  hub_inv h ->
  heap h !! client = Some cl ->
  client ∈ sessions h (UserID cl) ->
  exists h',
    Unregister client h = Some h' /\
    heap h' = <[client := shut cl]> (heap h) /\
    clients h' =
      (if decide (sessions h (UserID cl) = {[client]})
       then delete (UserID cl) (clients h)
       else <[UserID cl := sessions h (UserID cl) ∖ {[client]}]> (clients h)).
Proof.
  intros Hinv Hcl Hin.
  destruct (registered_own_user _ _ _ _ Hinv Hcl Hin) as [_ Hopen].
  unfold Unregister. rewrite Hcl. simpl.
  unfold sessions in *.
  destruct (clients h !! UserID cl) as [s |] eqn:Hs; simpl in *;
    [| exfalso; revert Hin; apply not_elem_of_empty].
  destruct (decide (client ∈ s)) as [_ | Hn]; [| contradiction].
  rewrite (close_chan_open _ Hopen). simpl.
  assert (Hiff : size (s ∖ {[client]}) = 0%nat <-> s = {[client]}).
  { rewrite size_empty_iff. split.
    - intros He. apply set_eq. intros x. rewrite elem_of_singleton. split.
      + intros Hx. destruct (decide (x = client)) as [| Hne]; [assumption |].
        exfalso. apply (not_elem_of_empty (C := gset ptr) x).
        rewrite <- He. apply elem_of_difference. split; [exact Hx |].
        rewrite elem_of_singleton. exact Hne.
      + intros ->. exact Hin.
    - intros ->. apply difference_diag. }
  destruct (decide (size (s ∖ {[client]}) = 0%nat)) as [Hz | Hnz];
    destruct (decide (s = {[client]})) as [He | Hne];
    try (eexists; split; [reflexivity |]; split; reflexivity).
  - apply Hiff in Hz. contradiction.
  - apply Hiff in He. contradiction.
Qed.

Lemma Unregister_spec (h : Hub) (client : ptr) (cl : Client) :
  hub_inv h ->
  heap h !! client = Some cl ->
  exists h',
    Unregister client h = Some h' /\
    ~ registered h' client /\
    hub_inv h' /\
    (forall other, other <> client -> heap h' !! other = heap h !! other).
Proof.
  intros Hinv Hcl.
  destruct (decide (client ∈ sessions h (UserID cl))) as [Hin | Hnot].
  - destruct (Unregister_present h client cl Hinv Hcl Hin) as (h' & Hrun & Hheap & Hclients).
    exists h'. split; [exact Hrun |].
    assert (Hsub : forall u s c, clients h' !! u = Some s -> c ∈ s ->
                     c <> client /\ c ∈ sessions h u).
    { intros u s c Hs Hc. rewrite Hclients in Hs.
      destruct (decide (u = UserID cl)) as [-> | Hne].
      - destruct (decide (sessions h (UserID cl) = {[client]})).
        + rewrite lookup_delete_eq in Hs. discriminate.
        + rewrite lookup_insert_eq in Hs. injection Hs as <-.
          apply elem_of_difference in Hc as [Hc1 Hc2].
          rewrite elem_of_singleton in Hc2. auto.
      - assert (Hs' : clients h !! u = Some s).
        { destruct (decide (sessions h (UserID cl) = {[client]}));
            [rewrite lookup_delete_ne in Hs | rewrite lookup_insert_ne in Hs]; auto. }
        assert (Hc' : c ∈ sessions h u) by (unfold sessions; rewrite Hs'; exact Hc).
        split; [| exact Hc'].
        intros ->. destruct (registered_own_user _ _ _ _ Hinv Hcl Hc'). contradiction. }
    split; [| split].
    + intros (u & s & Hs & Hc). destruct (Hsub u s client Hs Hc) as [Hne _]. contradiction.
    + intros u s c Hs Hc. destruct (Hsub u s c Hs Hc) as [Hne Hc'].
      rewrite Hheap, lookup_insert_ne; auto.
      apply (hub_inv_sessions _ _ _ Hinv Hc').
    + intros other Hne. rewrite Hheap, lookup_insert_ne; auto.
  - exists h. split; [apply (Unregister_absent h client cl Hcl Hnot) |].
    split; [| split; [exact Hinv | reflexivity]].
    intros Hreg. apply registered_sessions in Hreg as (u & Hin).
    destruct (registered_own_user _ _ _ _ Hinv Hcl Hin) as [-> _]. contradiction.
Qed.

(** *** The invariant of the hub *)

Lemma hub_inv_NewHub (objects : gmap ptr Client) : hub_inv (NewHub objects).
Proof. intros u s c Hs. simpl in Hs. rewrite lookup_empty in Hs. discriminate. Qed.

Lemma recv_keeps_closed (ch ch' : Chan) (v : string) :
  recv ch = Received v ch' -> closed ch' = closed ch.
Proof.
  unfold recv. destruct (buf ch) as [| x q]; [destruct (closed ch); discriminate |].
  intros E. injection E as _ <-. reflexivity.
Qed.

Lemma hub_step_inv (h h' : Hub) : hub_inv h -> hub_step h h' -> hub_inv h'.
Proof.
  intros Hinv Hstep. destruct Hstep as
    [h h' c u name n Hreg | h h' c Hun | h c cl v ch Hcl Hrecv
     | h h' u message order Hrange Hrun].
  - unfold connect in Hreg.
    destruct (heap h !! c) eqn:Hfresh; [discriminate |].
    unfold Register in Hreg. simpl in Hreg. rewrite lookup_insert_eq in Hreg.
    simpl in Hreg. injection Hreg as <-.
    intros u' s c' Hs Hc'. simpl in *.
    destruct (decide (c' = c)) as [-> | Hne].
    + rewrite lookup_insert_eq. eexists. split; [reflexivity |]. simpl.
      split; [| reflexivity].
      destruct (decide (u' = u)) as [-> | Hneu]; [reflexivity |].
      rewrite lookup_insert_ne in Hs by auto.
      destruct (Hinv u' s c Hs Hc') as (cl & Hcl & _). congruence.
    + rewrite lookup_insert_ne by auto.
      destruct (decide (u' = u)) as [-> | Hneu].
      * rewrite lookup_insert_eq in Hs. injection Hs as <-.
        apply elem_of_union in Hc' as [Hc' | Hc'].
        -- apply elem_of_singleton in Hc'. contradiction.
        -- apply (hub_inv_sessions h u c' Hinv). exact Hc'.
      * rewrite lookup_insert_ne in Hs by auto. exact (Hinv u' s c' Hs Hc').
  - destruct (heap h !! c) as [cl |] eqn:Hcl.
    + destruct (Unregister_spec h c cl Hinv Hcl) as (h1 & Hrun & _ & Hinv1 & _).
      rewrite Hun in Hrun. injection Hrun as <-. exact Hinv1.
    + unfold Unregister in Hun. rewrite Hcl in Hun. discriminate.
  - intros u s c' Hs Hc'. simpl in *.
    destruct (Hinv u s c' Hs Hc') as (cl' & Hcl' & Hu & Hopen).
    destruct (decide (c' = c)) as [-> | Hne].
    + rewrite lookup_insert_eq. rewrite Hcl in Hcl'. injection Hcl' as <-.
      eexists. split; [reflexivity |]. simpl. split; [exact Hu |].
      rewrite (recv_keeps_closed _ _ _ Hrecv). exact Hopen.
    + rewrite lookup_insert_ne by auto. eauto.
  - destruct (broadcastToLocal_spec u message order h Hinv Hrange)
      as (h1 & Hrun1 & _ & _ & _ & _ & Hinv1).
    rewrite Hrun in Hrun1. injection Hrun1 as <-. exact Hinv1.
Qed.

Lemma registered_after_Unregister (h h' : Hub) (client other : ptr) (cl : Client) :
  hub_inv h -> heap h !! client = Some cl ->
  Unregister client h = Some h' ->
  other <> client -> registered h other -> registered h' other.
Proof.
  intros Hinv Hcl Hrun Hne Hreg.
  destruct (decide (client ∈ sessions h (UserID cl))) as [Hin | Hnot].
  - destruct (Unregister_present h client cl Hinv Hcl Hin) as (h1 & Hrun1 & _ & Hclients).
    rewrite Hrun in Hrun1. injection Hrun1 as <-.
    destruct Hreg as (u & s0 & Hs & Hother).
    unfold registered. rewrite Hclients.
    destruct (decide (u = UserID cl)) as [-> | Hneu].
    + assert (Hses : sessions h (UserID cl) = s0) by (unfold sessions; rewrite Hs; reflexivity).
      rewrite Hses.
      destruct (decide (s0 = {[client]})) as [-> | Hmore].
      * apply elem_of_singleton in Hother. contradiction.
      * exists (UserID cl), (s0 ∖ {[client]}). rewrite lookup_insert_eq.
        split; [reflexivity |]. apply elem_of_difference. split; [exact Hother |].
        rewrite elem_of_singleton. exact Hne.
    + exists u, s0. split; [| exact Hother].
      destruct (decide (sessions h (UserID cl) = {[client]}));
        [rewrite lookup_delete_ne | rewrite lookup_insert_ne]; auto.
  - rewrite (Unregister_absent h client cl Hcl Hnot) in Hrun.
    injection Hrun as <-. exact Hreg.
Qed.

Lemma hub_step_life (h h' : Hub) : hub_life h -> hub_step h h' -> hub_life h'.
Proof.
  intros [Hinv Hlife] Hstep.
  split; [apply (hub_step_inv h h' Hinv Hstep) |].
  destruct Hstep as
    [h h' c u name n Hreg | h h' c Hun | h c cl v ch Hcl Hrecv
     | h h' u message order Hrange Hrun].
  - unfold connect in Hreg.
    destruct (heap h !! c) eqn:Hfresh; [discriminate |].
    unfold Register in Hreg. simpl in Hreg. rewrite lookup_insert_eq in Hreg.
    simpl in Hreg. injection Hreg as <-.
    intros c' cl' Hcl' Hnot. simpl in *.
    destruct (decide (c' = c)) as [-> | Hne].
    + exfalso. apply Hnot. exists u. eexists. simpl.
      rewrite lookup_insert_eq. split; [reflexivity |].
      apply elem_of_union. left. apply elem_of_singleton. reflexivity.
    + rewrite lookup_insert_ne in Hcl' by auto.
      apply (Hlife c' cl' Hcl'). intros (u' & s0 & Hs & Hin).
      apply Hnot. unfold registered. simpl.
      destruct (decide (u' = u)) as [-> | Hneu].
      * exists u. eexists. rewrite lookup_insert_eq. split; [reflexivity |].
        apply elem_of_union. right. rewrite Hs. exact Hin.
      * exists u', s0. rewrite lookup_insert_ne by auto. auto.
  - destruct (heap h !! c) as [cl |] eqn:Hcl;
      [| unfold Unregister in Hun; rewrite Hcl in Hun; discriminate].
    intros c' cl' Hcl' Hnot.
    destruct (decide (c' = c)) as [-> | Hne].
    + destruct (decide (c ∈ sessions h (UserID cl))) as [Hin | Hout].
      * destruct (Unregister_present h c cl Hinv Hcl Hin) as (h1 & Hrun1 & Hheap & _).
        rewrite Hun in Hrun1. injection Hrun1 as <-.
        rewrite Hheap, lookup_insert_eq in Hcl'. injection Hcl' as <-. reflexivity.
      * rewrite (Unregister_absent h c cl Hcl Hout) in Hun. injection Hun as <-.
        apply (Hlife c cl' Hcl' Hnot).
    + destruct (Unregister_spec h c cl Hinv Hcl) as (h1 & Hrun1 & _ & _ & Hother).
      rewrite Hun in Hrun1. injection Hrun1 as <-.
      rewrite (Hother c' Hne) in Hcl'.
      apply (Hlife c' cl' Hcl'). intros Hreg. apply Hnot.
      apply (registered_after_Unregister h h' c c' cl Hinv Hcl Hun Hne Hreg).
  - intros c' cl' Hcl' Hnot. simpl in *.
    destruct (decide (c' = c)) as [-> | Hne].
    + rewrite lookup_insert_eq in Hcl'. injection Hcl' as <-. simpl.
      rewrite (recv_keeps_closed _ _ _ Hrecv).
      apply (Hlife c cl Hcl). exact Hnot.
    + rewrite lookup_insert_ne in Hcl' by auto. apply (Hlife c' cl' Hcl'). exact Hnot.
  - destruct (broadcastToLocal_spec u message order h Hinv Hrange)
      as (h1 & Hrun1 & Hout & Hin & Hoth & Hses & _).
    rewrite Hrun in Hrun1. injection Hrun1 as <-.
    intros c' cl' Hcl' Hnot.
    destruct (decide (c' ∈ sessions h u)) as [Hmem | Hnmem].
    + destruct (hub_inv_sessions _ _ _ Hinv Hmem) as (cl & Hcl & _ & _).
      rewrite (Hin c' cl Hmem Hcl) in Hcl'.
      destruct (has_room (Send cl)) eqn:Hroom.
      * exfalso. apply Hnot. apply registered_sessions. exists u.
        apply (Hses c' cl Hcl). auto.
      * injection Hcl' as <-. reflexivity.
    + rewrite (Hout c' Hnmem) in Hcl'.
      apply (Hlife c' cl' Hcl'). intros (u' & s0 & Hs & Hc').
      apply Hnot. exists u', s0. split; [| exact Hc'].
      rewrite Hoth; [exact Hs |].
      intros ->. apply Hnmem. unfold sessions. rewrite Hs. exact Hc'.
Qed.

Lemma hub_reachable_life (h : Hub) : hub_reachable h -> hub_life h.
Proof.
  unfold hub_reachable. intros Hreach.
  assert (Hstart : hub_life (NewHub ∅)).
  { split; [apply hub_inv_NewHub |]. intros c cl Hcl. simpl in Hcl.
    rewrite lookup_empty in Hcl. discriminate. }
  revert Hstart. induction Hreach as [| x y z Hstep _ IH]; intros Hstart; [exact Hstart |].
  apply IH. apply (hub_step_life x y Hstart Hstep).
Qed.


(** A session dropped by a delivery leaves its user's key behind with
    an empty set, and the later unregister does not remove the key;
    [IsUserOnline] reports the user offline all the same. *)
Example dropped_session_leaves_empty_set :
  exists h1,
    broadcastToLocal 3%N "y" [12%positive] hub_full_only = Some h1 /\
    Unregister 12%positive h1 = Some h1 /\
    clients h1 !! 3%N = Some ∅ /\
    IsUserOnline 3%N h1 = false.
Proof.
  eexists. split; [vm_compute; reflexivity |].
  split; [vm_compute; reflexivity |]. split; vm_compute; reflexivity.
Qed.

(** *** Examples on the sample hub *)

Lemma sample_hub_inv : hub_inv sample_hub.
Proof.
  intros u s c Hs Hc. unfold sample_hub in *. simpl in *.
  destruct (decide (u = 2%N)) as [-> | Hn2].
  - rewrite lookup_insert_eq in Hs. injection Hs as <-.
    apply elem_of_union in Hc as [Hc | Hc]; apply elem_of_singleton in Hc; subst c.
    + exists client10. repeat split; reflexivity.
    + exists client11. repeat split; reflexivity.
  - rewrite lookup_insert_ne in Hs by auto.
    destruct (decide (u = 3%N)) as [-> | Hn3].
    + rewrite lookup_singleton_eq in Hs. injection Hs as <-.
      apply elem_of_singleton in Hc. subst c.
      exists client12. repeat split; reflexivity.
    + rewrite lookup_singleton_ne in Hs by auto. discriminate.
Qed.

Lemma sample_hub_range :
  range_of sample_hub 2%N (elements (sessions sample_hub 2%N)).
Proof. unfold range_of. reflexivity. Qed.

Lemma broadcastToLocal_full_session_dropped_witness :
  exists h', broadcastToLocal 2%N "hello" (elements (sessions sample_hub 2%N)) sample_hub
             = Some h'.
Proof.
  destruct (broadcastToLocal_full_session_dropped 2%N "hello"
              (elements (sessions sample_hub 2%N)) sample_hub
              sample_hub_inv sample_hub_range) as (h' & Hrun & _).
  exists h'. exact Hrun.
Defined.

Lemma hub_one_reachable : hub_reachable hub_one.
Proof.
  unfold hub_reachable. apply rtc_once.
  apply (hs_connect (NewHub ∅) hub_one 10%positive 2%N "bob" 2).
  vm_compute. reflexivity.
Qed.



(** *** Delivery of a stream entry *)

Section delivery.
Context `{GoLibs}.

Lemma decode_entry_well_formed (msg : XMessage) (target payload : string) (userID : UUID) :
  Values msg !! "target_user_id" = Some (VString target) ->
  Values msg !! "payload" = Some (VString payload) ->
  uuid_Parse target = Some userID ->
  decode_entry msg = Some (userID, payload).
Proof.
  intros Ht Hp Hu. unfold decode_entry. rewrite Ht, Hp. simpl. rewrite Hu. reflexivity.
Qed.

(** C4.  For a stream entry whose [target_user_id] is a string that
    parses to the user [userID] and whose [payload] is a string, in a
    hub whose registered channels are open, the loop body returns with
    the cursor on the entry, whatever the visiting order; each session
    registered for [userID] here has the payload queued exactly once
    when its channel has room and not at all otherwise; no other client
    object and no other user's set is touched. *)
Theorem listen_message_delivers_once
    (order : list ptr) (msg : XMessage) (t : Tail)
    (target payload : string) (userID : UUID) :
  hub_inv (hub t) ->
  Values msg !! "target_user_id" = Some (VString target) ->
  Values msg !! "payload" = Some (VString payload) ->
  uuid_Parse target = Some userID ->
  range_of (hub t) userID order ->
  exists t',
    listen_message order msg t = Some t' /\
    lastID t' = Entry (ID msg) /\
    (forall client cl,
       client ∈ sessions (hub t) userID -> heap (hub t) !! client = Some cl ->
       exists cl', heap (hub t') !! client = Some cl' /\
         buf (Send cl') =
           if has_room (Send cl) then buf (Send cl) ++ [payload] else buf (Send cl)) /\
    (forall client, client ∉ sessions (hub t) userID ->
       heap (hub t') !! client = heap (hub t) !! client) /\
    (forall other, other <> userID ->
       clients (hub t') !! other = clients (hub t) !! other).
Proof.
  intros Hinv Ht Hp Hu Hrange.
  destruct (broadcastToLocal_spec userID payload order (hub t) Hinv Hrange)
    as (h' & Hrun & Hout & Hin & Hoth & _ & _).
  exists (mkTail (Entry (ID msg)) h').
  unfold listen_message.
  rewrite (decode_entry_well_formed msg target payload userID Ht Hp Hu).
  rewrite Hrun. simpl.
  split; [reflexivity |]. split; [reflexivity |].
  split; [| split; [exact Hout | exact Hoth]].
  intros client cl Hclient Hcl. rewrite (Hin client cl Hclient Hcl).
  destruct (has_room (Send cl)); eexists; split; reflexivity.
Qed.

End delivery.

Lemma sample_entry_range :
  range_of (hub (mkTail Dollar sample_hub)) 2%N (elements (sessions sample_hub 2%N)).
Proof. apply sample_hub_range. Qed.

Lemma listen_message_delivers_once_witness :
  exists t',
    @listen_message sample_libs (elements (sessions sample_hub 2%N)) (entry_for_2 7%N)
      (mkTail Dollar sample_hub) = Some t' /\
    lastID t' = Entry 7%N.
Proof.
  destruct (@listen_message_delivers_once sample_libs
              (elements (sessions sample_hub 2%N)) (entry_for_2 7%N)
              (mkTail Dollar sample_hub)
              "00000000-0000-0000-0000-000000000002" "hello" 2%N
              sample_hub_inv eq_refl eq_refl eq_refl sample_entry_range)
    as (t' & Hrun & Hcur & _).
  exists t'. split; [exact Hrun | exact Hcur].
Defined.

(** *** Publishing *)

Section publishing.
Context `{GoLibs}.

(** The calls of [SendToUser]. *)
Lemma SendToUser_trace
    (W : Type) (sem : Sem W) (w : W) (userID : UUID) (message : string) :
  exists err : option error,
    trace_of sem (SendToUser userID message) w =
      Ev (XAdd (mkXAddArgs streamKey
                  {[ "target_user_id" := VString (uuid_String userID);
                     "payload" := VString message ]}
                  100000 true)) err
      :: match err with
         | Some _ => [Ev (LogError "Failed to publish message to Redis Stream") tt]
         | None => []
         end.
Proof.
  unfold SendToUser. prog_simpl.
  destruct (sem _ (XAdd _) w) as [err w1] eqn:E. exists err.
  destruct err as [e |]; simpl; [| reflexivity].
  destruct (sem _ (LogError _) w1) as [[] w2]. reflexivity.
Qed.

(** C9.  Whatever the stream append answers, [SendToUser] makes
    exactly one [XAdd] on the stream [locolive:stream:routing] with the
    fields [target_user_id] (the target's UUID string) and [payload],
    [MaxLen] 100000 and [Approx] set, and returns (it has no error
    result); when the append failed the only further effect is one
    error log line. *)
Theorem SendToUser_fire_and_forget
    (W : Type) (sem : Sem W) (w : W) (userID : UUID) (message : string) :
  exists err : option error,
    trace_of sem (SendToUser userID message) w =
      Ev (XAdd (mkXAddArgs "locolive:stream:routing"
                  {[ "target_user_id" := VString (uuid_String userID);
                     "payload" := VString message ]}
                  100000 true)) err
      :: match err with
         | Some _ => [Ev (LogError "Failed to publish message to Redis Stream") tt]
         | None => []
         end /\
    result_of sem (SendToUser userID message) w = tt.
Proof.
  destruct (SendToUser_trace W sem w userID message) as [err Htrace].
  exists err. split; [exact Htrace |].
  destruct (result_of sem (SendToUser userID message) w). reflexivity.
Qed.

(** The entry a successful publish appends is one the tailing loop
    accepts, for the same user and payload, whenever [uuid.Parse] reads
    back what [String] wrote. *)
Lemma published_entry_decodes (id : EntryID) (userID : UUID) (message : string) :
  uuid_Parse (uuid_String userID) = Some userID ->
  decode_entry
    (mkXMessage id {[ "target_user_id" := VString (uuid_String userID);
                      "payload" := VString message ]})
    = Some (userID, message).
Proof.
  intros Hrt. unfold decode_entry. simpl.
  rewrite lookup_insert_eq. simpl.
  rewrite lookup_insert_ne by discriminate. rewrite lookup_singleton_eq. simpl.
  rewrite Hrt. reflexivity.
Qed.

Lemma SendToUser_no_store_write
    (W : Type) (sem : Sem W) (w : W) (userID : UUID) (message : string) :
  existsb is_store_write (trace_of sem (SendToUser userID message) w) = false.
Proof.
  destruct (SendToUser_trace W sem w userID message) as (err & ->).
  destruct err; reflexivity.
Qed.

End publishing.

(** *** The stream and the tailing loop *)

Lemma StronglySorted_sublist {A : Type} (R : relation A) (l1 l2 : list A) :
  l1 `sublist_of` l2 -> StronglySorted R l2 -> StronglySorted R l1.
Proof.
  induction 1 as [| x l1 l2 Hsub IH | x l1 l2 Hsub IH]; intros Hs.
  - constructor.
  - apply StronglySorted_cons in Hs as [Hall Hs].
    apply StronglySorted_cons. split; [| auto].
    apply Forall_forall. intros y Hy.
    rewrite Forall_forall in Hall. apply Hall.
    apply (elem_of_sublist l1 l2 y Hy Hsub).
  - apply StronglySorted_cons in Hs as [_ Hs]. auto.
Qed.

Lemma StronglySorted_lt_NoDup (l : list N) : StronglySorted N.lt l -> NoDup l.
Proof.
  induction l as [| x l IH]; intros Hs; [constructor |].
  apply StronglySorted_cons in Hs as [Hall Hs].
  constructor; [| auto].
  intros Hx. rewrite Forall_forall in Hall. specialize (Hall x Hx). lia.
Qed.

Lemma StronglySorted_lt_last (l : list N) (i : N) :
  StronglySorted N.lt l -> last l = Some i -> Forall (fun x => (x <= i)%N) l.
Proof.
  intros Hs Hlast. apply last_Some in Hlast as [l' ->].
  apply StronglySorted_app in Hs as (Hlt & _ & _).
  apply Forall_app. split.
  - apply Forall_forall. intros x Hx.
    specialize (Hlt x i Hx). apply N.lt_le_incl, Hlt. left.
  - constructor; [lia | constructor].
Qed.

(** *** The stream *)

Lemma stream_ok_xadd (s : RedisStream) (id : EntryID) (vals : gmap string GoValue) :
  stream_ok s -> (last_id s < id)%N -> stream_ok (xadd id vals s).
Proof.
  intros [Hs Hle] Hlt. unfold stream_ok, xadd. simpl. split.
  - rewrite fmap_app. apply StronglySorted_app. split; [| split; [exact Hs |]].
    + intros x1 x2 Hx1 Hx2. simpl in Hx2. apply list_elem_of_singleton in Hx2 as ->.
      apply list_elem_of_fmap in Hx1 as (m & -> & Hm).
      rewrite Forall_forall in Hle. specialize (Hle m Hm). lia.
    + simpl. repeat constructor.
  - apply Forall_app. split.
    + eapply Forall_impl; [exact Hle |]. simpl. intros m Hm. lia.
    + constructor; [simpl; lia | constructor].
Qed.

Lemma stream_ok_xtrim (s : RedisStream) (k : nat) :
  stream_ok s -> stream_ok (xtrim k s).
Proof.
  intros [Hs Hle]. unfold stream_ok, xtrim. simpl. split.
  - rewrite fmap_drop. eapply StronglySorted_sublist; [apply sublist_drop | exact Hs].
  - apply Forall_drop, Hle.
Qed.

Lemma xread_entries_sublist (from : EntryID) (count : nat) (s : RedisStream) :
  xread_entries from count s `sublist_of` entries s.
Proof.
  unfold xread_entries.
  etransitivity; [apply sublist_take | apply sublist_filter].
Qed.

Lemma xread_entries_after (from : EntryID) (count : nat) (s : RedisStream) (m : XMessage) :
  m ∈ xread_entries from count s -> (from < ID m)%N.
Proof.
  unfold xread_entries. intros Hm.
  assert (Hf : m ∈ filter (fun m => (from < ID m)%N) (entries s)).
  { eapply elem_of_sublist; [exact Hm | apply sublist_take]. }
  apply list_elem_of_filter in Hf as [Hlt _]. exact Hlt.
Qed.

Lemma sublist_fmap_ID (l1 l2 : list XMessage) :
  l1 `sublist_of` l2 -> (ID <$> l1) `sublist_of` (ID <$> l2).
Proof.
  induction 1; simpl; [constructor | apply sublist_skip | apply sublist_cons]; auto.
Qed.

Section tailing.
Context `{GoLibs}.

Lemma listen_message_cursor (order : list ptr) (msg : XMessage) (t t' : Tail) :
  listen_message order msg t = Some t' -> lastID t' = Entry (ID msg).
Proof.
  unfold listen_message.
  destruct (decode_entry msg) as [[u payload] |].
  - destruct (broadcastToLocal u payload order (hub t)) as [h' |]; simpl;
      [| discriminate].
    intros E. injection E as <-. reflexivity.
  - intros E. injection E as <-. reflexivity.
Qed.

Lemma listen_messages_cursor (batch : list (XMessage * list ptr)) :
  forall t t' : Tail,
    listen_messages batch t = Some t' ->
    lastID t' =
      match last (batch.*1) with Some m => Entry (ID m) | None => lastID t end.
Proof.
  induction batch as [| [msg order] rest IH]; intros t t' Hrun; simpl in Hrun.
  - injection Hrun as <-. reflexivity.
  - destruct (listen_message order msg t) as [t1 |] eqn:E1; simpl in Hrun;
      [| discriminate].
    rewrite (IH t1 t' Hrun), fmap_cons, last_cons. simpl.
    destruct (last (rest.*1)); [reflexivity |].
    apply (listen_message_cursor _ _ _ _ E1).
Qed.

Lemma step_inv (s0 : RedisStream) (x y : Sys) :
  sys_inv s0 x -> step x y -> sys_inv s0 y.
Proof.
  intros [Hst Hgrow Hnew Hsorted Hcur Hpend] Hstep.
  destruct Hstep as
    [s t p pr id vals Hlt | s t p pr k | s t pr
     | s t from pr res t' Hres Hrun
     | s t t' from pr msgs orders Hmsgs Hne Hlen Hranges Hrun
     | s l h h' p pr Hhub]; simpl in *.
  - constructor; simpl; auto.
    + apply stream_ok_xadd; auto.
    + lia.
  - constructor; simpl; auto. apply stream_ok_xtrim; auto.
  - constructor; simpl; auto.
    intros from E. injection E as <-.
    destruct (last pr) as [i |] eqn:Hlast; rewrite Hcur; simpl.
    + split.
      * assert (Hi : i ∈ pr).
        { apply last_Some in Hlast as [l' ->]. apply elem_of_app. right. left. }
        rewrite Forall_forall in Hnew. specialize (Hnew i Hi). lia.
      * apply StronglySorted_lt_last; auto.
    + apply last_None in Hlast. subst pr. split; [exact Hgrow | constructor].
  - assert (t' = t) as ->.
    { destruct Hres as [-> | [e ->]]; simpl in Hrun; congruence. }
    constructor; simpl; auto. intros from' E. discriminate.
  - destruct (Hpend from eq_refl) as [Hfrom Hbelow].
    assert (Hafter : forall m, m ∈ msgs -> (from < ID m)%N).
    { intros m Hm. subst msgs. apply (xread_entries_after _ _ _ _ Hm). }
    constructor; simpl; auto.
    + apply Forall_app. split; [exact Hnew |].
      apply Forall_forall. intros id Hid.
      apply list_elem_of_fmap in Hid as (m & -> & Hm).
      specialize (Hafter m Hm). lia.
    + apply StronglySorted_app. split; [| split; [exact Hsorted |]].
      * intros x1 x2 Hx1 Hx2.
        apply list_elem_of_fmap in Hx2 as (m & -> & Hm).
        rewrite Forall_forall in Hbelow. specialize (Hbelow x1 Hx1).
        specialize (Hafter m Hm). lia.
      * eapply StronglySorted_sublist; [| apply Hst].
        apply sublist_fmap_ID. subst msgs. apply xread_entries_sublist.
    + unfold listen_round, flatten_streams in Hrun. simpl in Hrun.
      rewrite app_nil_r in Hrun.
      rewrite (listen_messages_cursor _ _ _ Hrun).
      rewrite fst_zip by lia.
      rewrite last_app, fmap_last.
      destruct (last msgs) as [m |] eqn:Hlast; [reflexivity |].
      apply last_None in Hlast. contradiction.
    + intros from' E. discriminate.
  - constructor; simpl; auto.
Qed.

Lemma sys_start_inv (s0 : RedisStream) (h0 : Hub) :
  stream_ok s0 -> sys_inv s0 (sys_start s0 h0).
Proof.
  intros Hok. constructor; simpl; auto; try lia; try constructor.
  all: intros; discriminate.
Qed.

Lemma reachable_inv (s0 : RedisStream) (h0 : Hub) (x : Sys) :
  stream_ok s0 -> reachable s0 h0 x -> sys_inv s0 x.
Proof.
  intros Hok Hreach. induction Hreach as [| x y _ IH Hstep].
  - apply sys_start_inv, Hok.
  - apply (step_inv s0 x y IH Hstep).
Qed.

(** C2.  The tailing loop starts with the cursor ["$"].  In every
    state the process can reach from a well-formed stream [s0]: no
    entry that was in the stream when the loop started has been
    processed; no entry has been processed twice; and the cursor is the
    ID of the entry processed last (["$"] while none was).  Each run of
    the loop body leaves the cursor on the ID of its entry. *)
Theorem tailing_no_replay_no_repeat
    (s0 : RedisStream) (h0 : Hub) (x : Sys) :
  stream_ok s0 ->
  reachable s0 h0 x ->
  lastID (tail (sys_start s0 h0)) = Dollar /\
  (forall m, m ∈ entries s0 -> ID m ∉ processed x) /\
  NoDup (processed x) /\
  lastID (tail x) =
    match last (processed x) with Some i => Entry i | None => Dollar end /\
  (forall order msg t t',
     listen_message order msg t = Some t' -> lastID t' = Entry (ID msg)).
Proof.
  intros Hok Hreach.
  destruct (reachable_inv s0 h0 x Hok Hreach) as [_ _ Hnew Hsorted Hcur _].
  split; [reflexivity |]. split; [| split; [| split]].
  - intros m Hm Hin. destruct Hok as [_ Hle].
    rewrite Forall_forall in Hle. rewrite Forall_forall in Hnew.
    specialize (Hle m Hm). specialize (Hnew (ID m) Hin). lia.
  - apply StronglySorted_lt_NoDup, Hsorted.
  - exact Hcur.
  - apply listen_message_cursor.
Qed.

End tailing.

Lemma stream5_ok : stream_ok stream5.
Proof.
  split; simpl.
  - repeat constructor.
  - repeat constructor. simpl. lia.
Qed.

Lemma sys_after_one_read_reachable :
  @reachable sample_libs stream5 (NewHub ∅) sys_after_one_read.
Proof.
  pose (t0 := listen_start (NewHub ∅)).
  assert (H1 : @reachable sample_libs stream5 (NewHub ∅) (mkSys stream5 t0 (Some 5%N) [])).
  { eapply reach_step; [apply reach_start |].
    apply (@step_xread_call sample_libs stream5 t0 []). }
  assert (H2 : @reachable sample_libs stream5 (NewHub ∅)
                 (mkSys (xadd 6%N {[ "payload" := VString "hello" ]} stream5)
                    t0 (Some 5%N) [])).
  { eapply reach_step; [exact H1 |]. apply step_xadd. simpl. lia. }
  eapply reach_step; [exact H2 |].
  apply (@step_xread_ok sample_libs _ t0 (mkTail (Entry 6%N) (NewHub ∅)) 5%N []
           [entry_malformed 6%N] [[]]).
  - reflexivity.
  - discriminate.
  - reflexivity.
  - simpl. split; exact I.
  - reflexivity.
Qed.

Lemma tailing_no_replay_no_repeat_witness :
  (forall m, m ∈ entries stream5 -> ID m ∉ processed sys_after_one_read) /\
  NoDup (processed sys_after_one_read).
Proof.
  destruct (@tailing_no_replay_no_repeat sample_libs stream5 (NewHub ∅)
              sys_after_one_read stream5_ok sys_after_one_read_reachable)
    as (_ & Hold & Hnodup & _).
  split; [exact Hold | exact Hnodup].
Defined.

(** *** The read pump *)

Section pumps.
Context `{GoLibs}.

(** C6, as amended.  A data frame that the loop of the read pump
    reads, that is one arriving by the read deadline and no longer
    than the read limit: when it unmarshals with type ["typing"] and
    receiver [receiverID], the loop publishes to [receiverID], through
    [SendToUser], the marshalled message of type ["typing"] whose
    payload holds the sender's [user_id] and [username], which is one
    append to the routing stream (and the error log line when the
    append failed) and no store write, and goes on with the next event
    on the same connection; when it does not unmarshal, or has another
    type, it has no effect at all and the loop goes on likewise.  A
    frame that arrives after the deadline or is longer than the limit
    is not relayed, whatever it holds: the loop ends without a call. *)
Theorem ReadPump_relays_typing_only
    (W : Type) (sem : Sem W) (w : W) (c : Client) (message : string)
    (conn : Conn) (t : Time) (rest : list WireEvent) :
  (Time_After t (readDeadline conn) = false ->
   (readLimit conn <? Z.of_nat (String.length message))%Z = false ->
   (forall receiverID,
      json_Unmarshal message = Some ("typing", receiverID) ->
      run sem (ReadPump_loop c conn (DataFrame t message :: rest)) w =
        (let '(_, tr1, w1) :=
           run sem
             (SendToUser receiverID
                (json_Marshal
                   (mkWSMessage "typing"
                      {[ "user_id" := VUUID (UserID c);
                         "username" := VString (Username c) ]}
                      uuid_Nil Time_zero))) w in
         let '(st, tr2, w2) := run sem (ReadPump_loop c conn rest) w1 in
         (st, tr1 ++ tr2, w2)) /\
      exists (err : option error) (w1 : W),
        trace_of sem (ReadPump_loop c conn (DataFrame t message :: rest)) w =
          Ev (XAdd (mkXAddArgs "locolive:stream:routing"
                      {[ "target_user_id" := VString (uuid_String receiverID);
                         "payload" :=
                           VString
                             (json_Marshal
                                (mkWSMessage "typing"
                                   {[ "user_id" := VUUID (UserID c);
                                      "username" := VString (Username c) ]}
                                   uuid_Nil Time_zero)) ]}
                      100000 true)) err
            :: match err with
               | Some _ => [Ev (LogError "Failed to publish message to Redis Stream") tt]
               | None => []
               end
            ++ trace_of sem (ReadPump_loop c conn rest) w1 /\
        result_of sem (ReadPump_loop c conn (DataFrame t message :: rest)) w
          = result_of sem (ReadPump_loop c conn rest) w1 /\
        existsb is_store_write
          (trace_of sem (ReadPump_loop c conn (DataFrame t message :: rest)) w)
          = existsb is_store_write (trace_of sem (ReadPump_loop c conn rest) w1)) /\
   ((json_Unmarshal message = None \/
     exists type receiverID,
       json_Unmarshal message = Some (type, receiverID) /\ type <> "typing") ->
    run sem (ReadPump_loop c conn (DataFrame t message :: rest)) w =
      run sem (ReadPump_loop c conn rest) w)) /\
  (Time_After t (readDeadline conn) = true ->
   run sem (ReadPump_loop c conn (DataFrame t message :: rest)) w
     = (Exited conn ExitTimeout, [], w)) /\
  (Time_After t (readDeadline conn) = false ->
   (readLimit conn <? Z.of_nat (String.length message))%Z = true ->
   run sem (ReadPump_loop c conn (DataFrame t message :: rest)) w
     = (Exited conn ExitReadLimit, [], w)).
Proof.
  split; [| split].
  - intros Htime Hsize. split.
    + intros receiverID Hjson.
      assert (Heq : ReadPump_frame c message =
                    SendToUser receiverID
                      (json_Marshal
                         (mkWSMessage "typing"
                            {[ "user_id" := VUUID (UserID c);
                               "username" := VString (Username c) ]}
                            uuid_Nil Time_zero))).
      { unfold ReadPump_frame. rewrite Hjson.
        destruct (decide ("typing" = "typing")); [reflexivity | contradiction]. }
      assert (Hrun : run sem (ReadPump_loop c conn (DataFrame t message :: rest)) w =
                (let '(_, tr1, w1) := run sem (ReadPump_frame c message) w in
                 let '(st, tr2, w2) := run sem (ReadPump_loop c conn rest) w1 in
                 (st, tr1 ++ tr2, w2))).
      { simpl. rewrite Htime, Hsize.
        change (pbind (ReadPump_frame c message) (fun _ => ReadPump_loop c conn rest))
          with (ReadPump_frame c message ≫= (fun _ => ReadPump_loop c conn rest)).
        rewrite run_bind.
        destruct (run sem (ReadPump_frame c message) w) as [[[] tr1] w1]. reflexivity. }
      rewrite Heq in Hrun. split; [exact Hrun |].
      unfold trace_of, result_of. rewrite Hrun.
      destruct (SendToUser_trace W sem w receiverID
                  (json_Marshal
                     (mkWSMessage "typing"
                        {[ "user_id" := VUUID (UserID c);
                           "username" := VString (Username c) ]}
                        uuid_Nil Time_zero))) as (err & Htrace).
      unfold trace_of in Htrace.
      destruct (run sem (SendToUser receiverID _) w) as [[[] tr1] w1].
      simpl in Htrace. subst tr1. exists err, w1.
      destruct (run sem (ReadPump_loop c conn rest) w1) as [[st tr2] w2].
      split; [reflexivity |]. split; [reflexivity |].
      simpl. destruct err; simpl; reflexivity.
    + intros Hother.
      assert (Heq : ReadPump_frame c message = mret tt).
      { unfold ReadPump_frame.
        destruct Hother as [-> | (type & receiverID & -> & Hne)]; [reflexivity |].
        destruct (decide (type = "typing")); [contradiction | reflexivity]. }
      simpl. rewrite Htime, Hsize, Heq. reflexivity.
  - intros Htime. simpl. rewrite Htime. reflexivity.
  - intros Htime Hsize. simpl. rewrite Htime, Hsize. reflexivity.
Qed.

(** C7, as amended.  The read pump sets the read limit to 4096 bytes
    and never changes it; it sets the read deadline 60 seconds after
    its start, and only a pong moves it: a run of events without a pong
    leaves the deadline where it was, whatever data frames arrive (so
    without any pong it stays 60 seconds after the start), while a pong
    read at [t] puts it at [t] plus 60 seconds.  A data message longer
    than the limit that arrives in time ends the loop with the
    read-limit error. *)
Theorem ReadPump_deadline_moved_by_pong_only
    (W : Type) (sem : Sem W) (w : W) (c : Client) (start : Time) :
  (forall evs,
     readLimit (state_conn (result_of sem (ReadPump c start evs) w)) = 4096%Z) /\
  (forall evs conn w0,
     has_pong evs = false ->
     readDeadline (state_conn (result_of sem (ReadPump_loop c conn evs) w0))
       = readDeadline conn) /\
  (forall evs,
     has_pong evs = false ->
     readDeadline (state_conn (result_of sem (ReadPump c start evs) w))
       = (start + 60 * Second)%Z) /\
  (forall conn t rest,
     Time_After t (readDeadline conn) = false ->
     run sem (ReadPump_loop c conn (PongFrame t :: rest)) w =
       run sem (ReadPump_loop c (mkConn (readLimit conn) (t + 60 * Second)%Z) rest) w) /\
  (forall conn t message rest,
     readLimit conn = 4096%Z ->
     Time_After t (readDeadline conn) = false ->
     (4096 < Z.of_nat (String.length message))%Z ->
     run sem (ReadPump_loop c conn (DataFrame t message :: rest)) w =
       (Exited conn ExitReadLimit, [], w)).
Proof.
  assert (Hgen : forall evs conn w0,
            readLimit (state_conn (result_of sem (ReadPump_loop c conn evs) w0))
              = readLimit conn /\
            (has_pong evs = false ->
             readDeadline (state_conn (result_of sem (ReadPump_loop c conn evs) w0))
               = readDeadline conn)).
  { induction evs as [| ev rest IH]; intros conn w0; [split; reflexivity |].
    destruct ev as [t | t message | t]; simpl.
    - destruct (Time_After t (readDeadline conn)); [split; [reflexivity | discriminate] |].
      destruct (IH (pongHandler t conn) w0) as [Hl _].
      split; [exact Hl | discriminate].
    - destruct (Time_After t (readDeadline conn)); [split; intros; reflexivity |].
      destruct (readLimit conn <? Z.of_nat (String.length message))%Z;
        [split; intros; reflexivity |].
      unfold result_of. rewrite run_bind.
      destruct (run sem (ReadPump_frame c message) w0) as [[[] tr1] w1].
      destruct (IH conn w1) as [Hl Hd]. unfold result_of in Hl, Hd.
      destruct (run sem (ReadPump_loop c conn rest) w1) as [[st tr2] w2].
      simpl in *. split; [exact Hl | exact Hd].
    - destruct (Time_After t (readDeadline conn)); split; intros; reflexivity. }
  split; [| split; [| split; [| split]]].
  - intros evs. apply (Hgen evs (ReadPump_setup start) w).
  - intros evs conn w0 Hnp. apply (Hgen evs conn w0), Hnp.
  - intros evs Hnp. apply (Hgen evs (ReadPump_setup start) w), Hnp.
  - intros conn t rest Htime. simpl. rewrite Htime. reflexivity.
  - intros conn t message rest Hlimit Htime Hsize. simpl. rewrite Htime, Hlimit.
    destruct (4096 <? Z.of_nat (String.length message))%Z eqn:E; [reflexivity |].
    apply Z.ltb_ge in E. lia.
Qed.

End pumps.

(** A typing frame read 30 seconds after the start is relayed, and the
    frame after it, which is not JSON, is dropped; the pump keeps
    reading. *)
Lemma ReadPump_relays_typing_only_witness :
  run script_sem
    (@ReadPump sample_libs client10 0%Z
       [DataFrame (30 * Second)%Z "typing-to-2"; DataFrame (40 * Second)%Z "not json"])
    world_ghost
  = (Reading (ReadPump_setup 0%Z),
     [Ev (XAdd (mkXAddArgs "locolive:stream:routing"
                  {[ "target_user_id" := VString "00000000-0000-0000-0000-000000000002";
                     "payload" := VString "typing" ]}
                  100000 true)) None],
     world_ghost).
Proof.
  destruct (@ReadPump_relays_typing_only sample_libs Script script_sem world_ghost
              client10 "typing-to-2" (ReadPump_setup 0%Z) (30 * Second)%Z
              [DataFrame (40 * Second)%Z "not json"]) as [Hread _].
  destruct (Hread eq_refl eq_refl) as [Htyping _].
  destruct (Htyping 2%N eq_refl) as [Hrun _].
  destruct (@ReadPump_relays_typing_only sample_libs Script script_sem world_ghost
              client10 "not json" (ReadPump_setup 0%Z) (40 * Second)%Z [])
    as [Hread' _].
  destruct (Hread' eq_refl eq_refl) as [_ Hother].
  unfold ReadPump. rewrite Hrun.
  change (run script_sem (@SendToUser sample_libs 2%N
            (@json_Marshal sample_libs
               (mkWSMessage "typing"
                  {[ "user_id" := VUUID (UserID client10);
                     "username" := VString (Username client10) ]}
                  uuid_Nil Time_zero))) world_ghost)
    with (tt,
          [Ev (XAdd (mkXAddArgs "locolive:stream:routing"
                       {[ "target_user_id" := VString "00000000-0000-0000-0000-000000000002";
                          "payload" := VString "typing" ]}
                       100000 true)) (None : option error)],
          world_ghost).
  cbv beta iota. rewrite (Hother (or_introl eq_refl)). reflexivity.
Defined.

(** C6 as stated fails for a typing frame the loop does not read.  A
    frame that unmarshals with type ["typing"] and a receiver but is
    longer than the 4096-byte read limit, read 30 seconds after the
    start, is not relayed: the pump makes no call and ends with the
    read-limit error.  Nor is a typing frame that arrives after the
    read deadline. *)
Lemma ReadPump_oversized_typing_not_relayed :
  @json_Unmarshal sample_libs_padded
    ("typing-to-2" ++ String.concat EmptyString (repeat " " 4090))%string
    = Some ("typing", 2%N) /\
  run script_sem
    (@ReadPump sample_libs_padded client10 0%Z
       [DataFrame (30 * Second)%Z
          ("typing-to-2" ++ String.concat EmptyString (repeat " " 4090))%string])
    world_ghost
    = (Exited (ReadPump_setup 0%Z) ExitReadLimit, [], world_ghost) /\
  @json_Unmarshal sample_libs "typing-to-2" = Some ("typing", 2%N) /\
  run script_sem
    (@ReadPump sample_libs client10 0%Z [DataFrame (70 * Second)%Z "typing-to-2"])
    world_ghost
    = (Exited (ReadPump_setup 0%Z) ExitTimeout, [], world_ghost).
Proof.
  split; [vm_compute; reflexivity |]. split; [vm_compute; reflexivity |].
  split; [reflexivity | vm_compute; reflexivity].
Qed.

Lemma ReadPump_deadline_moved_by_pong_only_witness :
  readDeadline
    (state_conn
       (result_of script_sem
          (@ReadPump sample_libs client10 0%Z [DataFrame (30 * Second)%Z "typing-to-2"])
          world_ghost))
    = (0 + 60 * Second)%Z /\
  run script_sem
    (@ReadPump_loop sample_libs client10 (ReadPump_setup 0%Z)
       [DataFrame (30 * Second)%Z (String.concat EmptyString (repeat "0123456789abcdef" 257))])
    world_ghost
    = (Exited (ReadPump_setup 0%Z) ExitReadLimit, [], world_ghost).
Proof.
  destruct (@ReadPump_deadline_moved_by_pong_only sample_libs Script script_sem
              world_ghost client10 0%Z) as (_ & _ & Hdata & _ & Hlimit).
  split.
  - apply Hdata. reflexivity.
  - apply Hlimit; [reflexivity | reflexivity | vm_compute; reflexivity].
Defined.

(** C7 as stated fails: a data frame read 30 seconds after the start
    leaves the read deadline at 60 seconds, not 90, and a second data
    frame 40 seconds later, at 70 seconds, finds the deadline passed. *)
Lemma ReadPump_data_frame_keeps_deadline :
  result_of script_sem
    (@ReadPump sample_libs client10 0%Z [DataFrame (30 * Second)%Z "read-to-2"])
    world_ghost
    = Reading (mkConn 4096 (60 * Second)%Z) /\
  (60 * Second)%Z <> (30 * Second + pongWait)%Z /\
  result_of script_sem
    (@ReadPump sample_libs client10 0%Z
       [DataFrame (30 * Second)%Z "read-to-2"; DataFrame (70 * Second)%Z "read-to-2"])
    world_ghost
    = Exited (mkConn 4096 (60 * Second)%Z) ExitTimeout.
Proof.
  split; [reflexivity |]. split; [| reflexivity].
  unfold pongWait, Second. lia.
Qed.

End realtime_props.

(** ** More on the hub: who is online, and what is never done *)

Module hub_props.
Import realtime realtime_props.

Lemma hub_reachable_step (h h' : Hub) :
  hub_reachable h -> hub_step h h' -> hub_reachable h'.
Proof.
  unfold hub_reachable. intros Hreach Hstep.
  eapply rtc_r; [exact Hreach | exact Hstep].
Qed.

(** [IsUserOnline] says whether some session is registered. *)
Lemma IsUserOnline_sessions (h : Hub) (userID : UUID) :
  IsUserOnline userID h = true <-> exists client, client ∈ sessions h userID.
Proof.
  unfold IsUserOnline, sessions.
  destruct (clients h !! userID) as [s |]; simpl.
  - rewrite Nat.ltb_lt. split.
    + intros Hpos. apply size_pos_elem_of. exact Hpos.
    + intros [c Hc]. destruct (decide (size s = 0%nat)) as [Hz | Hnz]; [| lia].
      apply size_empty_iff in Hz. exfalso.
      apply (not_elem_of_empty (C := gset ptr) c). apply Hz. exact Hc.
  - split; [discriminate |]. intros [c Hc]. exfalso. revert Hc. apply not_elem_of_empty.
Qed.

(** X1.  In every hub a process can reach from [NewHub] by connects,
    unregisters, drains of a channel and local deliveries, an
    unregister of any client object and a local delivery to any user
    return a hub (no channel is closed twice, nothing is sent on a
    closed channel), and every pointer in the registry refers to a
    client object with an open channel that is filed under its own
    user. *)
Theorem reachable_hub_never_panics (h : Hub) :
  hub_reachable h ->
  (forall client cl, heap h !! client = Some cl ->
     exists h', Unregister client h = Some h' /\ hub_reachable h') /\
  (forall userID message order, range_of h userID order ->
     exists h', broadcastToLocal userID message order h = Some h' /\ hub_reachable h') /\
  (forall client, registered h client ->
     exists cl, heap h !! client = Some cl /\ closed (Send cl) = false /\
                client ∈ sessions h (UserID cl)).
Proof.
  intros Hreach. destruct (hub_reachable_life h Hreach) as [Hinv _].
  split; [| split].
  - intros client cl Hcl.
    destruct (Unregister_spec h client cl Hinv Hcl) as (h' & Hrun & _).
    exists h'. split; [exact Hrun |].
    apply (hub_reachable_step h h' Hreach), (hs_unregister h h' client Hrun).
  - intros u m order Hrange.
    destruct (broadcastToLocal_spec u m order h Hinv Hrange) as (h' & Hrun & _).
    exists h'. split; [exact Hrun |].
    apply (hub_reachable_step h h' Hreach), (hs_broadcast h h' u m order Hrange Hrun).
  - intros client Hreg. apply registered_sessions in Hreg as (u & Hin).
    destruct (hub_inv_sessions _ _ _ Hinv Hin) as (cl & Hcl & Hu & Hopen).
    exists cl. subst u. auto.
Qed.

Lemma reachable_hub_never_panics_witness :
  exists h', Unregister 10%positive hub_one = Some h' /\ hub_reachable h'.
Proof.
  destruct (reachable_hub_never_panics hub_one hub_one_reachable) as (Hun & _ & _).
  exact (Hun 10%positive client_fresh eq_refl).
Defined.

(** X2.  Registering a client files it under its user beside the
    sessions the user already has, leaves every other user's set and
    the client objects alone, makes the user online, and registering
    the same client again changes nothing. *)
Theorem Register_adds_session (h : Hub) (client : ptr) (cl : Client) :
  heap h !! client = Some cl ->
  exists h',
    Register client h = Some h' /\
    heap h' = heap h /\
    sessions h' (UserID cl) = {[client]} ∪ sessions h (UserID cl) /\
    (forall other, other <> UserID cl -> clients h' !! other = clients h !! other) /\
    IsUserOnline (UserID cl) h' = true /\
    Register client h' = Some h'.
Proof.
  intros Hcl. unfold Register. rewrite Hcl. simpl.
  eexists. split; [reflexivity |]. simpl.
  split; [reflexivity |]. split; [| split; [| split]].
  - unfold sessions. simpl. rewrite lookup_insert_eq. reflexivity.
  - intros other Hne. rewrite lookup_insert_ne by auto. reflexivity.
  - apply IsUserOnline_sessions. exists client.
    unfold sessions. simpl. rewrite lookup_insert_eq. simpl.
    apply elem_of_union. left. apply elem_of_singleton. reflexivity.
  - rewrite Hcl. simpl. rewrite lookup_insert_eq. simpl.
    rewrite insert_insert_eq. do 3 f_equal.
    apply set_eq. intros x. rewrite !elem_of_union. tauto.
Qed.

Lemma Register_adds_session_witness :
  exists h',
    Register 11%positive sample_hub = Some h' /\
    IsUserOnline 2%N h' = true.
Proof.
  destruct (Register_adds_session sample_hub 11%positive client11 eq_refl)
    as (h' & Hrun & _ & _ & _ & Honline & _).
  exists h'. split; [exact Hrun | exact Honline].
Defined.

(** X3.  In a hub whose registered channels are open, an unregister
    takes exactly the one client out of its user's set: the user's
    other sessions and every other user's sessions stay, the user is
    online afterwards exactly when another session of theirs is
    registered, and no other user's online status changes. *)
Theorem Unregister_keeps_other_sessions (h h' : Hub) (client : ptr) (cl : Client) :
  hub_inv h ->
  heap h !! client = Some cl ->
  Unregister client h = Some h' ->
  sessions h' (UserID cl) = sessions h (UserID cl) ∖ {[client]} /\
  (forall other, other <> UserID cl -> sessions h' other = sessions h other) /\
  (IsUserOnline (UserID cl) h' = true <->
     exists c', c' <> client /\ c' ∈ sessions h (UserID cl)) /\
  (forall other, other <> UserID cl -> IsUserOnline other h' = IsUserOnline other h).
Proof.
  intros Hinv Hcl Hrun.
  assert (Hown : sessions h' (UserID cl) = sessions h (UserID cl) ∖ {[client]} /\
                 forall other, other <> UserID cl ->
                   clients h' !! other = clients h !! other).
  { destruct (decide (client ∈ sessions h (UserID cl))) as [Hin | Hnot].
    - destruct (Unregister_present h client cl Hinv Hcl Hin) as (h1 & Hrun1 & _ & Hclients).
      rewrite Hrun in Hrun1. injection Hrun1 as <-. split.
      + unfold sessions at 1. rewrite Hclients.
        destruct (decide (sessions h (UserID cl) = {[client]})) as [He | Hne].
        * rewrite lookup_delete_eq, He. simpl. symmetry. apply difference_diag_L.
        * rewrite lookup_insert_eq. reflexivity.
      + intros other Hne. rewrite Hclients.
        destruct (decide (sessions h (UserID cl) = {[client]}));
          [rewrite lookup_delete_ne | rewrite lookup_insert_ne]; auto.
    - rewrite (Unregister_absent h client cl Hcl Hnot) in Hrun. injection Hrun as <-.
      split; [| reflexivity].
      apply set_eq. intros x. rewrite elem_of_difference, elem_of_singleton.
      split; [| tauto]. intros Hx. split; [exact Hx |]. intros ->. contradiction. }
  destruct Hown as [Hses Hoth].
  split; [exact Hses |]. split; [| split].
  - intros other Hne. unfold sessions. rewrite (Hoth other Hne). reflexivity.
  - rewrite IsUserOnline_sessions, Hses. split.
    + intros [c Hc]. apply elem_of_difference in Hc as [Hc Hn].
      rewrite elem_of_singleton in Hn. eauto.
    + intros (c & Hn & Hc). exists c. apply elem_of_difference.
      rewrite elem_of_singleton. auto.
  - intros other Hne. unfold IsUserOnline. rewrite (Hoth other Hne). reflexivity.
Qed.

Lemma Unregister_keeps_other_sessions_witness :
  exists h',
    Unregister 11%positive sample_hub = Some h' /\
    sessions h' 2%N = sessions sample_hub 2%N ∖ {[11%positive]} /\
    IsUserOnline 2%N h' = true.
Proof.
  assert (Hrun : exists h', Unregister 11%positive sample_hub = Some h')
    by (eexists; vm_compute; reflexivity).
  destruct Hrun as [h' Hrun].
  destruct (Unregister_keeps_other_sessions sample_hub h' 11%positive client11
              sample_hub_inv eq_refl Hrun) as (Hses & _ & Honline & _).
  exists h'. split; [exact Hrun |]. split; [exact Hses |].
  apply Honline. exists 10%positive. split; [discriminate |].
  vm_compute. reflexivity.
Defined.

End hub_props.

(** ** More on the pumps *)

Module pump_props.
Import realtime realtime_props.

(** The write pump on an open channel, when the [Send] case fires [n]
    times in a row and every write succeeds. *)
Lemma WritePump_send_rounds_open (n : nat) :
  forall ch : Chan,
    closed ch = false ->
    WritePump (repeat (CaseSend, WriteOk) n) ch
      = (false, TextMessage <$> take n (buf ch)).
Proof.
  induction n as [| n IH]; intros ch Hopen; simpl.
  - rewrite ?take_0. reflexivity.
  - unfold recv. destruct ch as [[| v q] k cl]; simpl in *; subst cl.
    + rewrite (IH (mkChan [] k false) eq_refl). simpl. rewrite ?take_nil. reflexivity.
    + rewrite (IH (mkChan q k false) eq_refl). reflexivity.
Qed.

(** X4.  Whatever the schedule of the [select] and whatever writes
    fail, the text frames the write pump writes are a prefix of the
    queue of its channel, in queue order: nothing is written that was
    not queued, nothing twice, nothing out of order.  A close frame is
    written only on a closed channel, after the whole queue, as the
    last frame before the pump returns. *)
Theorem WritePump_writes_queue_prefix
    (sched : list (SelectCase * WriteOutcome)) (ch : Chan) :
  (exists n, text_frames (WritePump sched ch).2 = take n (buf ch)) /\
  (In CloseMessage (WritePump sched ch).2 ->
     closed ch = true /\
     text_frames (WritePump sched ch).2 = buf ch /\
     last (WritePump sched ch).2 = Some CloseMessage /\
     (WritePump sched ch).1 = true).
Proof.
  revert ch. induction sched as [| [case io] rest IH]; intros ch; simpl.
  - split; [exists 0%nat; rewrite ?take_0; reflexivity | intros []].
  - destruct case; simpl.
    + unfold recv. destruct ch as [[| v q] k cl]; simpl.
      * destruct cl; simpl.
        -- split; [exists 0%nat; reflexivity |]. intros _. repeat split; reflexivity.
        -- destruct (IH (mkChan [] k false)) as [Hpre Hclose].
           destruct (WritePump rest (mkChan [] k false)) as [returned out]. simpl in *.
           split; [exact Hpre | exact Hclose].
      * destruct io; simpl.
        -- destruct (IH (mkChan q k cl)) as [[n Hpre] Hclose].
           destruct (WritePump rest (mkChan q k cl)) as [returned out]. simpl in *.
           split; [exists (S n); simpl; rewrite Hpre; reflexivity |].
           intros [Hin | Hin]; [discriminate |].
           destruct (Hclose Hin) as (Hc & Ht & Hl & Hr).
           rewrite Ht. repeat split; auto.
           destruct out as [| f out]; [destruct Hin | exact Hl].
        -- split; [exists 0%nat; reflexivity | intros []].
        -- split; [exists 1%nat; simpl; rewrite ?take_0; reflexivity |].
           intros [Hin | []]. discriminate.
    + destruct io; simpl; try (split; [exists 0%nat; rewrite ?take_0; reflexivity | intros []]).
      destruct (IH ch) as [Hpre Hclose].
      destruct (WritePump rest ch) as [returned out]. simpl in *.
      split; [exact Hpre |].
      intros [Hin | Hin]; [discriminate |].
      destruct (Hclose Hin) as (Hc & Ht & Hl & Hr).
      repeat split; auto.
      destruct out as [| f out]; [destruct Hin | exact Hl].
Qed.

(** X5.  While every write succeeds, the text frames the write pump
    writes are the first [k] queued messages in queue order, where [k]
    is the number of rounds in which the [Send] case fired; it returns
    exactly when the channel was closed and the [Send] case fired more
    often than messages were queued, and then what it wrote ends with
    the close frame, after the whole queue. *)
Theorem WritePump_drains_in_order
    (sched : list (SelectCase * WriteOutcome)) (ch : Chan) :
  all_ok sched = true ->
  text_frames (WritePump sched ch).2 = take (send_rounds sched) (buf ch) /\
  (WritePump sched ch).1 = closed ch && (length (buf ch) <? send_rounds sched)%nat /\
  ((WritePump sched ch).1 = true ->
     exists written, (WritePump sched ch).2 = written ++ [CloseMessage] /\
       text_frames written = buf ch).
Proof.
  revert ch. induction sched as [| [case io] rest IH]; intros ch Hok; simpl in *.
  - rewrite ?take_0, andb_false_r. repeat split. discriminate.
  - apply andb_true_iff in Hok as [Hio Hok]. destruct io; try discriminate Hio.
    destruct case; simpl.
    + unfold recv. destruct ch as [[| v q] k cl]; simpl.
      * destruct cl; simpl.
        -- repeat split. intros _. exists []. split; reflexivity.
        -- destruct (IH (mkChan [] k false) Hok) as (Ht & Hr & Hc).
           destruct (WritePump rest (mkChan [] k false)) as [returned out]. simpl in *.
           rewrite ?take_nil in Ht. repeat split; auto.
      * destruct (IH (mkChan q k cl) Hok) as (Ht & Hr & Hc).
        destruct (WritePump rest (mkChan q k cl)) as [returned out]. simpl in *.
        rewrite Ht. repeat split; auto.
        intros Hret. destruct (Hc Hret) as (written & -> & Hp).
        exists (TextMessage v :: written). simpl. rewrite Hp. split; reflexivity.
    + destruct (IH ch Hok) as (Ht & Hr & Hc).
      destruct (WritePump rest ch) as [returned out]. simpl in *.
      repeat split; auto.
      intros Hret. destruct (Hc Hret) as (written & -> & Hp).
      exists (PingMessage :: written). simpl. split; [reflexivity | exact Hp].
Qed.

Lemma WritePump_drains_in_order_witness :
  text_frames
    (WritePump [(CaseSend, WriteOk); (CaseTicker, WriteOk); (CaseSend, WriteOk);
                (CaseSend, WriteOk)]
       (mkChan ["a"; "b"] 2 true)).2 = ["a"; "b"] /\
  (WritePump [(CaseSend, WriteOk); (CaseTicker, WriteOk); (CaseSend, WriteOk);
              (CaseSend, WriteOk)]
     (mkChan ["a"; "b"] 2 true)).1 = true.
Proof.
  destruct (WritePump_drains_in_order
              [(CaseSend, WriteOk); (CaseTicker, WriteOk); (CaseSend, WriteOk);
               (CaseSend, WriteOk)]
              (mkChan ["a"; "b"] 2 true) eq_refl) as (Htext & Hret & _).
  split; [exact Htext | exact Hret].
Defined.

Section read_pump.
Context `{GoLibs}.

Lemma publish_not_store_write (tr : list Event) :
  forallb is_publish tr = true -> existsb is_store_write tr = false.
Proof.
  induction tr as [| e tr IH]; simpl; [reflexivity |].
  intros Hall. apply andb_true_iff in Hall as [He Hall].
  rewrite (IH Hall), orb_false_r.
  destruct e as [X c x]; destruct c; simpl in *; congruence.
Qed.

(** The calls one frame causes: nothing, or one append to the routing
    stream with its possible error log line. *)
Lemma ReadPump_frame_publishes
    (W : Type) (sem : Sem W) (w : W) (c : Client) (message : string) :
  forallb is_publish (trace_of sem (ReadPump_frame c message) w) = true /\
  (length (calls ev_XAdd (trace_of sem (ReadPump_frame c message) w)) <= 1)%nat.
Proof.
  unfold ReadPump_frame.
  destruct (json_Unmarshal message) as [[type receiverID] |]; [| split; simpl; auto].
  destruct (decide (type = "typing")); [| split; simpl; auto].
  destruct (SendToUser_trace W sem w receiverID
              (json_Marshal
                 (mkWSMessage "typing"
                    {[ "user_id" := VUUID (UserID c);
                       "username" := VString (Username c) ]}
                    uuid_Nil Time_zero))) as (err & ->).
  destruct err; split; simpl; auto.
Qed.

(** X6.  Whatever arrives on the connection, the only calls the read
    pump makes are appends to the routing stream and the error log
    lines of failed appends, at most one append per event: it never
    writes to the store and never touches a Redis key. *)
Theorem ReadPump_only_publishes
    (W : Type) (sem : Sem W) (w : W) (c : Client) (start : Time) (evs : list WireEvent) :
  forallb is_publish (trace_of sem (ReadPump c start evs) w) = true /\
  existsb is_store_write (trace_of sem (ReadPump c start evs) w) = false /\
  calls ev_RedisSet (trace_of sem (ReadPump c start evs) w) = [] /\
  calls ev_RedisDel (trace_of sem (ReadPump c start evs) w) = [] /\
  (length (calls ev_XAdd (trace_of sem (ReadPump c start evs) w)) <= length evs)%nat.
Proof.
  unfold ReadPump. generalize (ReadPump_setup start). intros conn.
  assert (Hgen : forall evs conn w,
            forallb is_publish (trace_of sem (ReadPump_loop c conn evs) w) = true /\
            (length (calls ev_XAdd (trace_of sem (ReadPump_loop c conn evs) w))
               <= length evs)%nat).
  { clear. intros evs. induction evs as [| ev rest IH]; intros conn w; [split; simpl; auto |].
    destruct ev as [t | t message | t]; simpl.
    - destruct (Time_After t (readDeadline conn)); [split; simpl; auto with arith |].
      destruct (IH (pongHandler t conn) w) as [Hp Hn]. split; [exact Hp | lia].
    - destruct (Time_After t (readDeadline conn)); [split; simpl; auto with arith |].
      destruct (readLimit conn <? Z.of_nat (String.length message))%Z;
        [split; simpl; auto with arith |].
      unfold trace_of. rewrite run_bind.
      destruct (ReadPump_frame_publishes W sem w c message) as [Hp1 Hn1].
      unfold trace_of in Hp1, Hn1.
      destruct (run sem (ReadPump_frame c message) w) as [[[] tr1] w1].
      destruct (IH conn w1) as [Hp2 Hn2]. unfold trace_of in Hp2, Hn2.
      destruct (run sem (ReadPump_loop c conn rest) w1) as [[st tr2] w2].
      simpl in *. unfold calls in *. rewrite forallb_app, Hp1, Hp2, omap_app, length_app.
      split; [reflexivity | lia].
    - destruct (Time_After t (readDeadline conn)); split; simpl; auto with arith. }
  destruct (Hgen evs conn w) as [Hp Hn].
  split; [exact Hp |]. split; [apply publish_not_store_write, Hp |].
  split; [| split; [| exact Hn]].
  - revert Hp. generalize (trace_of sem (ReadPump_loop c conn evs) w). clear.
    induction l as [| e l IH]; simpl; [reflexivity |].
    intros Hall. apply andb_true_iff in Hall as [He Hall].
    unfold calls in *. simpl. rewrite (IH Hall).
    destruct e as [X c x]; destruct c; simpl in *; congruence.
  - revert Hp. generalize (trace_of sem (ReadPump_loop c conn evs) w). clear.
    induction l as [| e l IH]; simpl; [reflexivity |].
    intros Hall. apply andb_true_iff in Hall as [He Hall].
    unfold calls in *. simpl. rewrite (IH Hall).
    destruct e as [X c x]; destruct c; simpl in *; congruence.
Qed.

(** X7.  Once the loop of the read pump has ended (deadline passed,
    oversized message or failed read), nothing that arrives later is
    handled: the result, the calls made and the world are those of the
    events up to the exit. *)
Theorem ReadPump_stops_at_exit
    (W : Type) (sem : Sem W) (c : Client) (evs more : list WireEvent) :
  forall (conn conn' : Conn) (w : W) (why : ReadExit),
    result_of sem (ReadPump_loop c conn evs) w = Exited conn' why ->
    run sem (ReadPump_loop c conn (evs ++ more)) w
      = run sem (ReadPump_loop c conn evs) w.
Proof.
  induction evs as [| ev rest IH]; intros conn conn' w why Hexit; [discriminate Hexit |].
  destruct ev as [t | t message | t]; simpl in *.
  - destruct (Time_After t (readDeadline conn)); [reflexivity |].
    apply (IH _ conn' w why Hexit).
  - destruct (Time_After t (readDeadline conn)); [reflexivity |].
    destruct (readLimit conn <? Z.of_nat (String.length message))%Z; [reflexivity |].
    unfold result_of in Hexit. rewrite run_bind in Hexit. rewrite !run_bind.
    destruct (run sem (ReadPump_frame c message) w) as [[[] tr1] w1].
    rewrite (IH conn conn' w1 why); [reflexivity |].
    unfold result_of.
    destruct (run sem (ReadPump_loop c conn rest) w1) as [[st tr2] w2]. exact Hexit.
  - reflexivity.
Qed.

End read_pump.

Lemma ReadPump_stops_at_exit_witness :
  run script_sem
    (@ReadPump_loop sample_libs client10 (ReadPump_setup 0%Z)
       ([DataFrame (70 * Second)%Z "typing-to-2"] ++ [DataFrame (71 * Second)%Z "typing-to-2"]))
    world_ghost
  = (Exited (ReadPump_setup 0%Z) ExitTimeout, [], world_ghost).
Proof.
  rewrite (@ReadPump_stops_at_exit sample_libs Script script_sem client10
             [DataFrame (70 * Second)%Z "typing-to-2"]
             [DataFrame (71 * Second)%Z "typing-to-2"]
             (ReadPump_setup 0%Z) (ReadPump_setup 0%Z) world_ghost ExitTimeout eq_refl).
  reflexivity.
Defined.

End pump_props.

(** ** More on the router: from a publish to the wire *)

Module router_props.
Import realtime realtime_props.

Section router.
Context `{GoLibs}.

(** X8.  A stream entry the loop cannot deliver is passed over for
    good: when the target is missing or not a string, the payload is
    missing or not a string, the target does not parse as a UUID, or
    the target user has no session in this process, the loop body
    leaves the hub as it is and still moves the cursor to the entry,
    so the entry is not read again. *)
Theorem listen_message_skips_undeliverable
    (order : list ptr) (msg : XMessage) (t : Tail) :
  as_string (Values msg !! "target_user_id") = None \/
  as_string (Values msg !! "payload") = None \/
  (exists s, as_string (Values msg !! "target_user_id") = Some s /\
     (uuid_Parse s = None \/
      exists userID, uuid_Parse s = Some userID /\
        sessions (hub t) userID = ∅ /\ range_of (hub t) userID order)) ->
  listen_message order msg t = Some (mkTail (Entry (ID msg)) (hub t)).
Proof.
  unfold listen_message, decode_entry.
  intros [Ht | [Hp | (s & Ht & Hu)]].
  - rewrite Ht. reflexivity.
  - rewrite Hp. destruct (as_string (Values msg !! "target_user_id")); reflexivity.
  - rewrite Ht. simpl.
    destruct (as_string (Values msg !! "payload")) as [payload |]; [| reflexivity]. simpl.
    destruct Hu as [Hu | (userID & Hu & Hnone & Hrange)]; rewrite Hu; [reflexivity |].
    simpl. unfold range_of in Hrange. rewrite Hnone, elements_empty in Hrange.
    apply Permutation_nil_r in Hrange. subst order.
    unfold broadcastToLocal. destruct (clients (hub t) !! userID); reflexivity.
Qed.

(** X9.  From a publish to the wire.  When [uuid.Parse] reads back what
    [String] wrote, the fields [SendToUser] appends for a user and a
    message make a stream entry on which the loop body of any process
    queues exactly this message, last, on each of the user's sessions
    with room; the write pump of such a session then writes what was
    queued before and this message, in this order, as text frames. *)
Theorem published_message_reaches_wire
    (W : Type) (sem : Sem W) (w : W) (userID : UUID) (message : string)
    (id : EntryID) (order : list ptr) (t : Tail) (client : ptr) (cl : Client) :
  uuid_Parse (uuid_String userID) = Some userID ->
  hub_inv (hub t) ->
  range_of (hub t) userID order ->
  client ∈ sessions (hub t) userID ->
  heap (hub t) !! client = Some cl ->
  has_room (Send cl) = true ->
  exists args err rest t' cl',
    trace_of sem (SendToUser userID message) w = Ev (XAdd args) err :: rest /\
    listen_message order (mkXMessage id (xa_Values args)) t = Some t' /\
    heap (hub t') !! client = Some cl' /\
    buf (Send cl') = buf (Send cl) ++ [message] /\
    WritePump (repeat (CaseSend, WriteOk) (length (buf (Send cl')))) (Send cl')
      = (false, TextMessage <$> (buf (Send cl) ++ [message])).
Proof.
  intros Hrt Hinv Hrange Hin Hcl Hroom.
  destruct (SendToUser_trace W sem w userID message) as [err Htrace].
  destruct (broadcastToLocal_spec userID message order (hub t) Hinv Hrange)
    as (h' & Hrun & _ & Hheap & _ & _ & _).
  specialize (Hheap client cl Hin Hcl). rewrite Hroom in Hheap.
  eexists _, err, _, (mkTail (Entry id) h'), (enqueued cl message).
  split; [exact Htrace |]. simpl.
  split; [| split; [exact Hheap | split; [reflexivity |]]].
  - unfold listen_message.
    rewrite (published_entry_decodes id userID message Hrt), Hrun. reflexivity.
  - simpl. rewrite pump_props.WritePump_send_rounds_open by reflexivity. simpl.
    rewrite firstn_all. reflexivity.
Qed.

(** Handling one entry keeps the registered channels open and tells
    what happens to a session of a given user. *)
Lemma listen_message_session
    (order : list ptr) (msg : XMessage) (t : Tail) (userID : UUID)
    (client : ptr) (cl : Client) :
  hub_inv (hub t) ->
  match decode_entry msg with
  | Some (u, _) => range_of (hub t) u order
  | None => True
  end ->
  client ∈ sessions (hub t) userID ->
  heap (hub t) !! client = Some cl ->
  (length (buf (Send cl)) + length (payloads_for userID [msg]) <= cap (Send cl))%nat ->
  exists t',
    listen_message order msg t = Some t' /\
    hub_inv (hub t') /\
    client ∈ sessions (hub t') userID /\
    heap (hub t') !! client
      = Some (with_Send cl
                (mkChan (buf (Send cl) ++ payloads_for userID [msg])
                   (cap (Send cl)) false)).
Proof.
  intros Hinv Hrange Hin Hcl Hlen.
  destruct (registered_own_user _ _ _ _ Hinv Hcl Hin) as [Hown Hopen].
  assert (Hsame : with_Send cl (mkChan (buf (Send cl) ++ []) (cap (Send cl)) false) = cl).
  { rewrite app_nil_r. destruct cl as [u n [b k c]]. simpl in *. subst c. reflexivity. }
  unfold listen_message, payloads_for in *. simpl in *.
  destruct (decode_entry msg) as [[u payload] |]; simpl in *.
  - destruct (broadcastToLocal_spec u payload order (hub t) Hinv Hrange)
      as (h' & Hrun & Hout & Hheap & Hoth & Hses & Hinv').
    rewrite Hrun. simpl. eexists. split; [reflexivity |]. simpl.
    split; [exact Hinv' |].
    destruct (decide (u = userID)) as [-> | Hne]; simpl in *.
    + assert (Hroom : has_room (Send cl) = true)
        by (unfold has_room; apply Nat.ltb_lt; lia).
      split; [apply (Hses client cl Hcl); auto |].
      rewrite (Hheap client cl Hin Hcl), Hroom. reflexivity.
    + assert (Hnot : client ∉ sessions (hub t) u).
      { intros Hin'. destruct (registered_own_user _ _ _ _ Hinv Hcl Hin') as [Hu _].
        congruence. }
      split.
      * unfold sessions in *. rewrite (Hoth userID) by auto. exact Hin.
      * rewrite (Hout client Hnot), Hsame. exact Hcl.
  - eexists. split; [reflexivity |]. simpl.
    split; [exact Hinv |]. split; [exact Hin |]. rewrite Hsame. exact Hcl.
Qed.

(** X10.  A batch of stream entries reaches a session in stream order.
    In a hub whose registered channels are open, for a session whose
    channel has room for all the payloads the batch carries for its
    user, the loop body run over the batch returns and leaves the
    channel open with exactly these payloads appended to the queue, in
    the order of the batch; entries for other users and malformed
    entries in between leave the session alone. *)
Theorem listen_messages_keeps_stream_order
    (batch : list (XMessage * list ptr)) (userID : UUID) (client : ptr) :
  forall (t : Tail) (cl : Client),
    hub_inv (hub t) ->
    ranges_ok batch t ->
    client ∈ sessions (hub t) userID ->
    heap (hub t) !! client = Some cl ->
    (length (buf (Send cl)) + length (payloads_for userID batch.*1)
       <= cap (Send cl))%nat ->
    exists t' cl',
      listen_messages batch t = Some t' /\
      heap (hub t') !! client = Some cl' /\
      buf (Send cl') = buf (Send cl) ++ payloads_for userID batch.*1 /\
      closed (Send cl') = false /\
      client ∈ sessions (hub t') userID.
Proof.
  induction batch as [| [msg order] rest IH]; intros t cl Hinv Hranges Hin Hcl Hlen.
  - exists t, cl. simpl. rewrite app_nil_r.
    destruct (registered_own_user _ _ _ _ Hinv Hcl Hin) as [_ Hopen]. auto.
  - simpl in Hranges. destruct Hranges as [Hrange Hrest].
    assert (Hsplit : payloads_for userID ((msg, order) :: rest).*1
                     = payloads_for userID [msg] ++ payloads_for userID rest.*1).
    { unfold payloads_for. simpl.
      destruct (decode_entry msg) as [[u payload] |]; [| reflexivity].
      destruct (decide (u = userID)); reflexivity. }
    rewrite Hsplit in *. rewrite length_app in Hlen.
    destruct (listen_message_session order msg t userID client cl Hinv Hrange Hin Hcl)
      as (t1 & Hrun1 & Hinv1 & Hin1 & Hcl1); [lia |].
    rewrite Hrun1 in Hrest.
    destruct (IH t1 _ Hinv1 Hrest Hin1 Hcl1) as (t' & cl' & Hrun & Hcl' & Hbuf & Hopen & Hin').
    { unfold with_Send. cbn [Send buf cap]. rewrite length_app. lia. }
    exists t', cl'. simpl. rewrite Hrun1. simpl.
    split; [exact Hrun |]. split; [exact Hcl' |].
    split; [| auto]. rewrite Hbuf. simpl. rewrite app_assoc. reflexivity.
Qed.

(** Handling a batch whose visiting orders are right returns and keeps
    the registered channels open. *)
Lemma listen_messages_safe (batch : list (XMessage * list ptr)) :
  forall t : Tail,
    hub_inv (hub t) ->
    ranges_ok batch t ->
    exists t', listen_messages batch t = Some t' /\ hub_inv (hub t').
Proof.
  induction batch as [| [msg order] rest IH]; intros t Hinv Hranges; simpl in *.
  - exists t. auto.
  - destruct Hranges as [Hrange Hrest]. unfold listen_message in *.
    destruct (decode_entry msg) as [[u payload] |].
    + destruct (broadcastToLocal_spec u payload order (hub t) Hinv Hrange)
        as (h' & Hrun & _ & _ & _ & _ & Hinv').
      rewrite Hrun in *. simpl in *.
      apply (IH (mkTail (Entry (ID msg)) h') Hinv' Hrest).
    + simpl in *. apply (IH (mkTail (Entry (ID msg)) (hub t)) Hinv Hrest).
Qed.

(** X22.  The tailing loop never panics.  In every state a process
    can reach after starting with a hub whose registered channels are
    open, the registered channels of the hub are open, and one more
    round of the loop returns whatever [XRead] gave (nothing, an
    error, or entries, each handled with a visiting order of the
    sessions its target has at that moment) and leaves the hub in
    such a state again. *)
Theorem tailing_never_panics (s0 : RedisStream) (h0 : Hub) (x : Sys) :
  hub_inv h0 ->
  reachable s0 h0 x ->
  hub_inv (hub (tail x)) /\
  forall (res : XReadResult) (orders : list (list ptr)),
    match res with
    | XReadOk streams => ranges_ok (zip (flatten_streams streams) orders) (tail x)
    | _ => True
    end ->
    exists t', listen_round res orders (tail x) = Some t' /\ hub_inv (hub t').
Proof.
  intros Hinv0 Hreach.
  assert (Hinv : hub_inv (hub (tail x))).
  { induction Hreach as [| x y _ IH Hstep]; [exact Hinv0 |].
    destruct Hstep as
      [s t p pr id vals Hlt | s t p pr k | s t pr
       | s t from pr res t' Hres Hrun
       | s t t' from pr msgs orders Hmsgs Hne Hlen Hranges Hrun
       | s l h h' p pr Hhub]; simpl in *; auto.
    - destruct Hres as [-> | [e ->]]; simpl in Hrun; injection Hrun as <-; exact IH.
    - unfold listen_round, flatten_streams in Hrun. simpl in Hrun.
      rewrite app_nil_r in Hrun.
      destruct (listen_messages_safe _ t IH Hranges) as (t1 & Hrun1 & Hinv1).
      rewrite Hrun in Hrun1. injection Hrun1 as <-. exact Hinv1.
    - apply (hub_step_inv h h' IH Hhub). }
  split; [exact Hinv |].
  intros [| e | streams] orders Hranges; simpl.
  - exists (tail x). auto.
  - exists (tail x). auto.
  - apply (listen_messages_safe _ (tail x) Hinv Hranges).
Qed.

(** Whatever the loop has processed was generated by the stream. *)
Lemma processed_in_stream (s0 : RedisStream) (h0 : Hub) (x : Sys) :
  stream_ok s0 ->
  reachable s0 h0 x ->
  Forall (fun id => (id <= last_id (stream x))%N) (processed x).
Proof.
  intros Hok Hreach. induction Hreach as [| x y Hreach IH Hstep]; [constructor |].
  pose proof (reachable_inv s0 h0 x Hok Hreach) as [[_ Hle] _ _ _ _ _].
  destruct Hstep as
    [s t p pr id vals Hlt | s t p pr k | s t pr
     | s t from pr res t' Hres Hrun
     | s t t' from pr msgs orders Hmsgs Hne Hlen Hranges Hrun
     | s l h h' p pr Hhub]; simpl in *; auto.
  - eapply Forall_impl; [exact IH |]. simpl. intros i Hi. lia.
  - apply Forall_app. split; [exact IH |].
    apply Forall_forall. intros i Hi.
    apply list_elem_of_fmap in Hi as (m & -> & Hm).
    rewrite Forall_forall in Hle. apply Hle.
    subst msgs. eapply elem_of_sublist; [exact Hm | apply xread_entries_sublist].
Qed.

(** X23.  The tailing loop keeps stream order across rounds.  In every
    state a process can reach from a well-formed stream, the IDs of
    the entries the loop body has run on, oldest first, increase
    strictly; each was generated by the stream after the loop started
    and is at most the greatest ID generated so far; and the cursor is
    at least every one of them. *)
Theorem tailing_keeps_stream_order (s0 : RedisStream) (h0 : Hub) (x : Sys) :
  stream_ok s0 ->
  reachable s0 h0 x ->
  StronglySorted N.lt (processed x) /\
  Forall (fun id => (last_id s0 < id <= last_id (stream x))%N) (processed x) /\
  Forall (fun id => match lastID (tail x) with
                    | Entry c => (id <= c)%N
                    | Dollar => False
                    end) (processed x).
Proof.
  intros Hok Hreach.
  pose proof (processed_in_stream s0 h0 x Hok Hreach) as Hup.
  destruct (reachable_inv s0 h0 x Hok Hreach) as [_ _ Hnew Hsorted Hcur _].
  split; [exact Hsorted |]. split.
  - rewrite Forall_forall in *. intros i Hi. split; [apply Hnew, Hi | apply Hup, Hi].
  - rewrite Hcur. destruct (last (processed x)) as [c |] eqn:Hlast.
    + apply (StronglySorted_lt_last _ _ Hsorted Hlast).
    + apply last_None in Hlast. rewrite Hlast. constructor.
Qed.

End router.

Lemma listen_message_skips_undeliverable_witness :
  @listen_message sample_libs [] (entry_malformed 5%N) (mkTail Dollar sample_hub)
    = Some (mkTail (Entry 5%N) sample_hub).
Proof.
  apply (@listen_message_skips_undeliverable sample_libs [] (entry_malformed 5%N)
           (mkTail Dollar sample_hub)).
  left. reflexivity.
Defined.

Lemma published_message_reaches_wire_witness :
  exists args err rest t' cl',
    trace_of script_sem (@SendToUser sample_libs 2%N "hello") world_ghost
      = Ev (XAdd args) err :: rest /\
    @listen_message sample_libs (elements (sessions sample_hub 2%N))
      (mkXMessage 7%N (xa_Values args)) (mkTail Dollar sample_hub) = Some t' /\
    heap (hub t') !! 10%positive = Some cl' /\
    buf (Send cl') = ["a"; "hello"].
Proof.
  destruct (@published_message_reaches_wire sample_libs Script script_sem world_ghost
              2%N "hello" 7%N (elements (sessions sample_hub 2%N))
              (mkTail Dollar sample_hub) 10%positive client10
              eq_refl sample_hub_inv sample_hub_range)
    as (args & err & rest & t' & cl' & Htrace & Hrun & Hcl' & Hbuf & _);
    [vm_compute; reflexivity | reflexivity | reflexivity |].
  exists args, err, rest, t', cl'. auto.
Defined.

Lemma listen_messages_keeps_stream_order_witness :
  exists t' cl',
    @listen_messages sample_libs
      [(entry_for_2 7%N, [10%positive]); (entry_malformed 8%N, []);
       (mkXMessage 9%N
          {[ "target_user_id" := VString "00000000-0000-0000-0000-000000000002";
             "payload" := VString "again" ]}, [10%positive])]
      (mkTail Dollar hub_one) = Some t' /\
    heap (hub t') !! 10%positive = Some cl' /\
    buf (Send cl') = ["hello"; "again"].
Proof.
  destruct (@listen_messages_keeps_stream_order sample_libs
              [(entry_for_2 7%N, [10%positive]); (entry_malformed 8%N, []);
               (mkXMessage 9%N
                  {[ "target_user_id" := VString "00000000-0000-0000-0000-000000000002";
                     "payload" := VString "again" ]}, [10%positive])]
              2%N 10%positive (mkTail Dollar hub_one) client_fresh)
    as (t' & cl' & Hrun & Hcl' & Hbuf & _).
  - apply (hub_reachable_life hub_one hub_one_reachable).
  - vm_compute. repeat split; reflexivity.
  - vm_compute. reflexivity.
  - reflexivity.
  - vm_compute. lia.
  - exists t', cl'. split; [exact Hrun |]. split; [exact Hcl' | exact Hbuf].
Defined.

Lemma tailing_never_panics_witness :
  hub_inv sample_hub /\
  @reachable sample_libs stream5 sample_hub
    (mkSys stream5 (listen_start sample_hub) (Some 5%N) []) /\
  hub_inv (hub (listen_start sample_hub)) /\
  exists t',
    @listen_round sample_libs
      (XReadOk [mkXStream streamKey [entry_for_2 9%N; entry_for_2 10%N]])
      [elements (sessions sample_hub 2%N); [10%positive]]
      (listen_start sample_hub) = Some t' /\
    hub_inv (hub t').
Proof.
  assert (Hreach : @reachable sample_libs stream5 sample_hub
                     (mkSys stream5 (listen_start sample_hub) (Some 5%N) [])).
  { eapply reach_step; [apply reach_start |].
    apply (@step_xread_call sample_libs stream5 (listen_start sample_hub) []). }
  destruct (@tailing_never_panics sample_libs stream5 sample_hub
              (mkSys stream5 (listen_start sample_hub) (Some 5%N) [])
              sample_hub_inv Hreach) as [Hinv Hround].
  split; [exact sample_hub_inv |]. split; [exact Hreach |]. split; [exact Hinv |].
  apply (Hround (XReadOk [mkXStream streamKey [entry_for_2 9%N; entry_for_2 10%N]])
           [elements (sessions sample_hub 2%N); [10%positive]]).
  vm_compute. repeat split; reflexivity.
Defined.

Lemma tailing_keeps_stream_order_witness :
  Forall (fun id => (last_id stream5 < id <= last_id (stream sys_after_one_read))%N)
    (processed sys_after_one_read).
Proof.
  destruct (@tailing_keeps_stream_order sample_libs stream5 (NewHub ∅) sys_after_one_read
              stream5_ok sys_after_one_read_reachable) as (_ & Hbound & _).
  exact Hbound.
Defined.

End router_props.

(** ** More on the location handler *)

(** Look for an event of one kind among the members of a trace. *)
Ltac trace_in ev Hin :=
  simpl in Hin;
  repeat (destruct Hin as [Hin | Hin];
          [apply (f_equal ev) in Hin; simpl in Hin; try discriminate Hin |]);
  try contradiction.

Module location_props.
Import api api_props.

Lemma Time_Truncate_spec (now : Time) (d : Duration) :
  (0 < d)%Z ->
  (Time_Truncate now d mod d = 0)%Z /\
  (Time_Truncate now d <= now < Time_Truncate now d + d)%Z.
Proof.
  intros Hd. unfold Time_Truncate.
  destruct (d <=? 0)%Z eqn:E; [apply Z.leb_le in E; lia |].
  pose proof (Z.mod_pos_bound now d Hd) as Hb. split; [| lia].
  rewrite Zminus_mod_idemp_r, Z.sub_diag. apply Z.mod_0_l. lia.
Qed.

Lemma substring_length_le (n : nat) (s : string) :
  (String.length (substring 0 n s) <= n)%nat.
Proof.
  revert n. induction s as [| a s IH]; intros n; destruct n as [| n]; simpl; try lia.
  specialize (IH n). lia.
Qed.

Lemma ghost_prelude_calls (pre : list Event) :
  forallb is_ghost_prelude pre = true ->
  calls ev_CreateLocation pre = [] /\ calls ev_BanUser pre = [] /\
  calls ev_ValidateUserMovement pre = [].
Proof.
  induction pre as [| e pre IH]; simpl; [auto |].
  intros Hall. apply andb_true_iff in Hall as [He Hall].
  destruct (IH Hall) as (H1 & H2 & H3). unfold calls in *. simpl.
  rewrite H1, H2, H3.
  destruct e as [X c x]; destruct c; simpl in *; try discriminate He; auto.
Qed.

Lemma ghost_prelude_no_location_write (pre : list Event) :
  forallb is_ghost_prelude pre = true -> existsb is_location_write pre = false.
Proof.
  induction pre as [| e pre IH]; simpl; [reflexivity |].
  intros Hall. apply andb_true_iff in Hall as [He Hall].
  rewrite (IH Hall), orb_false_r.
  destruct e as [X c x]; destruct c; simpl in *; congruence.
Qed.

(** An event of a kind that is in the trace is among the calls of that
    kind. *)
Lemma calls_nil_not_In {A : Type} (ev : Event -> option A) (tr : list Event) (e : Event) :
  calls ev tr = [] -> In e tr -> ev e = None.
Proof.
  unfold calls. induction tr as [| e' tr IH]; simpl; [intros _ [] |].
  destruct (ev e') eqn:E; [discriminate |].
  intros Hnil [-> | Hin]; auto.
Qed.

Section handlers.
Context `{GoLibs}.

(** A bound request is answered with the ghost answer after the
    prelude, or handed over to the check-and-persist part. *)
Lemma updateLocation_split W (sem : Sem W) (w : W) req auth :
  exists pre,
    forallb is_ghost_prelude pre = true /\
    ((trace_of sem (updateLocation (Ok req) auth) w = pre /\
      result_of sem (updateLocation (Ok req) auth) w = JSON StatusOK status_ghost) \/
     exists w1,
       trace_of sem (updateLocation (Ok req) auth) w
         = pre ++ trace_of sem (updateLocation_checkAndPersist req auth) w1 /\
       result_of sem (updateLocation (Ok req) auth) w
         = result_of sem (updateLocation_checkAndPersist req auth) w1).
Proof.
  unfold updateLocation.
  generalize (updateLocation_checkAndPersist req auth). intros rest.
  prog_simpl.
  destruct (sem _ (GetUserByID (UserID auth)) w) as [[user | e] w1] eqn:E1; simpl.
  - destruct user as [uid ghost [exp valid] prem]; simpl.
    destruct ghost; simpl.
    + destruct valid; simpl.
      * destruct (sem _ TimeNow w1) as [now w2] eqn:E2; simpl.
        destruct (Time_After now exp); simpl.
        -- destruct (sem _ (ToggleGhostMode _) w2) as [r w3] eqn:E3; simpl.
           exists [Ev (GetUserByID (UserID auth))
                     (Ok (mkUser uid true (mkNullTime exp true) prem));
                   Ev TimeNow now;
                   Ev (ToggleGhostMode
                         (mkToggleGhostModeParams (UserID auth) false NullTime_zero)) r].
           split; [reflexivity |]. right. exists w3.
           destruct (run sem rest w3) as [[resp tr] w4]. split; reflexivity.
        -- eexists. split; [| left; split; reflexivity]. reflexivity.
      * eexists. split; [| left; split; reflexivity]. reflexivity.
    + exists [Ev (GetUserByID (UserID auth))
                (Ok (mkUser uid false (mkNullTime exp valid) prem))].
      split; [reflexivity |]. right. exists w1.
      destruct (run sem rest w1) as [[resp tr] w4]. split; reflexivity.
  - exists [Ev (GetUserByID (UserID auth)) (Err e)].
    split; [reflexivity |]. right. exists w1.
    destruct (run sem rest w1) as [[resp tr] w4]. split; reflexivity.
Qed.

(** The location row the check-and-persist part writes. *)
Lemma checkAndPersist_row W (sem : Sem W) (w : W) req auth p r :
  In (Ev (CreateLocation p) r)
     (trace_of sem (updateLocation_checkAndPersist req auth) w) ->
  exists val now post,
    trace_of sem (updateLocation_checkAndPersist req auth) w
      = Ev (ValidateUserMovement (uuid_String (UserID auth))
              (Latitude req) (Longitude req)) val
          :: Ev TimeNow now :: Ev (CreateLocation p) r :: post /\
    calls ev_CreateLocation post = [] /\
    p = mkCreateLocationParams (UserID auth)
          (truncate_hash locationPrecision
             (geohash_Encode (Latitude req) (Longitude req)))
          (Longitude req) (Latitude req)
          (Time_Truncate now bucketDuration) (Time_Add now locationTTL).
Proof.
  unfold updateLocation_checkAndPersist. prog_simpl.
  run_all; intros Hin; trace_in ev_CreateLocation Hin.
  all: injection Hin as <- <-.
  all: eexists _, _, _; split; [reflexivity |]; split; reflexivity.
Qed.

(** The movement check comes first and once; a refusal with
    escalation is followed by the ban and its log line only. *)
Lemma checkAndPersist_ban W (sem : Sem W) (w : W) req auth :
  exists val rest,
    trace_of sem (updateLocation_checkAndPersist req auth) w
      = Ev (ValidateUserMovement (uuid_String (UserID auth))
              (Latitude req) (Longitude req)) val :: rest /\
    calls ev_ValidateUserMovement rest = [] /\
    if negb (Allowed val) && ShouldBan val
    then (exists r u,
            rest = [Ev (BanUser (mkBanUserParams (UserID auth) true)) r;
                    Ev (LogWarn "User shadow-banned for fake GPS") u]) /\
         result_of sem (updateLocation_checkAndPersist req auth) w
           = JSON StatusOK status_updated
    else calls ev_BanUser rest = [].
Proof.
  unfold updateLocation_checkAndPersist. prog_simpl.
  run_all; eexists _, _; (split; [reflexivity |]); (split; [reflexivity |]); simpl;
    try reflexivity.
  all: split; [eexists _, _; reflexivity | reflexivity].
Qed.



(** X11.  The location row of an update.  Every [CreateLocation] call
    of the handler comes from a bound request and directly follows the
    reading of the clock; it is the only one of the request.  The row
    is filed under the authenticated user; its geohash is the first
    seven characters of the geohash of the request's coordinate; its
    time bucket is the clock reading rounded down to a multiple of ten
    minutes; it expires 24 hours after the clock reading; and it
    carries the request's latitude and longitude as they came. *)
Theorem updateLocation_stored_row
    (W : Type) (sem : Sem W) (w : W) (bound : result updateLocationRequest)
    (auth : Payload) (p : CreateLocationParams) (r : option error) :
  In (Ev (CreateLocation p) r) (trace_of sem (updateLocation bound auth) w) ->
  exists req now pre post,
    bound = Ok req /\
    trace_of sem (updateLocation bound auth) w
      = pre ++ Ev TimeNow now :: Ev (CreateLocation p) r :: post /\
    calls ev_CreateLocation pre = [] /\
    calls ev_CreateLocation post = [] /\
    cl_UserID p = UserID auth /\
    cl_Geohash p = substring 0 7 (geohash_Encode (Latitude req) (Longitude req)) /\
    (String.length (cl_Geohash p) <= 7)%nat /\
    cl_Lat p = Latitude req /\
    cl_Lng p = Longitude req /\
    (cl_TimeBucket p mod (10 * Minute) = 0)%Z /\
    (cl_TimeBucket p <= now < cl_TimeBucket p + 10 * Minute)%Z /\
    cl_ExpiresAt p = (now + 24 * Hour)%Z.
Proof.
  intros Hin. destruct bound as [req | err]; [| destruct Hin].
  destruct (updateLocation_split W sem w req auth)
    as (pre & Hpre & [[Htr Hres] | (w1 & Htr & Hres)]);
    destruct (ghost_prelude_calls pre Hpre) as (Hnone & _ & _); rewrite Htr in *.
  - pose proof (calls_nil_not_In _ _ _ Hnone Hin) as Hno. discriminate Hno.
  - apply in_app_or in Hin as [Hin | Hin].
    { pose proof (calls_nil_not_In _ _ _ Hnone Hin) as Hno. discriminate Hno. }
    destruct (checkAndPersist_row W sem w1 req auth p r Hin)
      as (val & now & post & Hcp & Hpost & Hp).
    exists req, now,
      (pre ++ [Ev (ValidateUserMovement (uuid_String (UserID auth))
                     (Latitude req) (Longitude req)) val]), post.
    split; [reflexivity |]. split; [rewrite Hcp, <- app_assoc; reflexivity |].
    split; [unfold calls in *; rewrite omap_app, Hnone; reflexivity |].
    split; [exact Hpost |].
    assert (Hd : (0 < bucketDuration)%Z) by (unfold bucketDuration, Minute, Second; lia).
    destruct (Time_Truncate_spec now bucketDuration Hd) as [Hmod Hbound].
    subst p. simpl. rewrite truncate_hash_prefix.
    split; [reflexivity |]. split; [reflexivity |].
    split; [apply substring_length_le |].
    split; [reflexivity |]. split; [reflexivity |].
    split; [exact Hmod |]. split; [exact Hbound | reflexivity].
Qed.

(** X12.  The handler shadow-bans exactly on escalation.  A [BanUser]
    call is for the authenticated user with the shadow-ban flag set,
    and is made only in a run in which the movement monitor refused
    and asked for a ban; such a run stores no location, neither in the
    location table ([CreateLocation]) nor in the geo index
    ([UpdateUserLocation]), and still answers HTTP 200
    [{"status": "updated"}], whatever the ban call returned.
    Conversely every refusal with escalation is followed by this
    call. *)
Theorem updateLocation_bans_on_escalation_only
    (W : Type) (sem : Sem W) (w : W) (bound : result updateLocationRequest)
    (auth : Payload) :
  (forall p r,
     In (Ev (BanUser p) r) (trace_of sem (updateLocation bound auth) w) ->
     p = mkBanUserParams (UserID auth) true /\
     calls ev_CreateLocation (trace_of sem (updateLocation bound auth) w) = [] /\
     existsb is_location_write (trace_of sem (updateLocation bound auth) w) = false /\
     result_of sem (updateLocation bound auth) w = JSON StatusOK status_updated /\
     exists s lat lng val,
       In (Ev (ValidateUserMovement s lat lng) val)
          (trace_of sem (updateLocation bound auth) w) /\
       Allowed val = false /\ ShouldBan val = true) /\
  (forall s lat lng val,
     In (Ev (ValidateUserMovement s lat lng) val)
        (trace_of sem (updateLocation bound auth) w) ->
     Allowed val = false -> ShouldBan val = true ->
     exists r,
       In (Ev (BanUser (mkBanUserParams (UserID auth) true)) r)
          (trace_of sem (updateLocation bound auth) w)).
Proof.
  destruct bound as [req | err]; [| split; [intros p r [] | intros s lat lng val []]].
  destruct (updateLocation_split W sem w req auth)
    as (pre & Hpre & [[Htr Hres] | (w1 & Htr & Hres)]);
    destruct (ghost_prelude_calls pre Hpre) as (Hnoloc & Hnoban & Hnoval);
    rewrite Htr, Hres.
  - split.
    + intros p r Hin. pose proof (calls_nil_not_In _ _ _ Hnoban Hin) as Hno.
      discriminate Hno.
    + intros s lat lng val Hin.
      pose proof (calls_nil_not_In _ _ _ Hnoval Hin) as Hno. discriminate Hno.
  - destruct (checkAndPersist_ban W sem w1 req auth) as (val & rest & Hcp & Hone & Hban).
    rewrite Hcp. split.
    + intros p r Hin. apply in_app_or in Hin as [Hin | [Hin | Hin]].
      { pose proof (calls_nil_not_In _ _ _ Hnoban Hin) as Hno. discriminate Hno. }
      { apply (f_equal ev_BanUser) in Hin. discriminate Hin. }
      destruct (negb (Allowed val) && ShouldBan val) eqn:Hesc.
      * destruct Hban as [(r0 & u & ->) Hok].
        trace_in ev_BanUser Hin. injection Hin as <- <-.
        split; [reflexivity |].
        split; [unfold calls in *; rewrite omap_app, Hnoloc; reflexivity |].
        split; [rewrite existsb_app, (ghost_prelude_no_location_write pre Hpre);
                reflexivity |].
        split; [exact Hok |].
        apply andb_true_iff in Hesc as [Hrej Hesc].
        apply negb_true_iff in Hrej.
        eexists _, _, _, val. split; [| auto].
        apply in_or_app. right. left. reflexivity.
      * pose proof (calls_nil_not_In _ _ _ Hban Hin) as Hno. discriminate Hno.
    + intros s lat lng val' Hin Hrej Hesc.
      apply in_app_or in Hin as [Hin | [Hin | Hin]].
      { pose proof (calls_nil_not_In _ _ _ Hnoval Hin) as Hno. discriminate Hno. }
      * apply (f_equal ev_ValidateUserMovement) in Hin. simpl in Hin.
        injection Hin as _ _ _ ->. rewrite Hrej, Hesc in Hban. simpl in Hban.
        destruct Hban as [(r0 & u & ->) _]. exists r0.
        apply in_or_app. right. right. left. reflexivity.
      * pose proof (calls_nil_not_In _ _ _ Hone Hin) as Hno. discriminate Hno.
Qed.


End handlers.

(** The update of a user whose ghost mode expired a second ago, in the
    scripted world: the row written. *)
Lemma updateLocation_stored_row_witness :
  exists now,
    (String.length
       (cl_Geohash
          (mkCreateLocationParams 1%N "7zzzzzz" 20%float 10%float
             1699999800000000000%Z 1700086400000000000%Z)) <= 7)%nat /\
    (1699999800000000000 <= now < 1699999800000000000 + 10 * Minute)%Z.
Proof.
  destruct (@updateLocation_stored_row sample_libs Script script_sem world_ghost_expired
              (Ok sample_req) sample_auth
              (mkCreateLocationParams 1%N "7zzzzzz" 20%float 10%float
                 1699999800000000000%Z 1700086400000000000%Z) None)
    as (req & now & pre & post & _ & _ & _ & _ & _ & _ & Hlen & _ & _ & _ & Hbucket & _).
  - vm_compute. do 5 right. left. reflexivity.
  - exists now. split; [exact Hlen | exact Hbucket].
Defined.

End location_props.

(** ** More on stories and the feed *)

Module story_props.
Import api api_props.

Section service.
Context `{GoLibs}.

(** X14.  For stories the movement monitor only advises.  [CreateStory]
    asks the monitor first and then goes on whatever it answered: it
    never calls [BanUser]; it attempts the insert exactly when the user
    lookup succeeded; and it succeeds exactly when the insert did. *)
Theorem CreateStory_monitor_is_advisory
    (W : Type) (sem : Sem W) (w : W) (req : story.CreateStoryParams) :
  (exists val rest,
     trace_of sem (story.CreateStory req) w
       = Ev (ValidateUserMovement (uuid_String (story.UserID req))
               (story.Latitude req) (story.Longitude req)) val :: rest) /\
  calls ev_BanUser (trace_of sem (story.CreateStory req) w) = [] /\
  ((exists p r, In (Ev (StoreCreateStory p) r) (trace_of sem (story.CreateStory req) w)) <->
   (exists user,
      In (Ev (GetUserByID (story.UserID req)) (Ok user))
         (trace_of sem (story.CreateStory req) w))) /\
  (forall st,
     result_of sem (story.CreateStory req) w = Ok st <->
     exists p, In (Ev (StoreCreateStory p) (Ok st)) (trace_of sem (story.CreateStory req) w)).
Proof.
  unfold story.CreateStory, story.invalidateFeedCache. prog_simpl.
  run_all.
  all: split; [eexists _, _; reflexivity |].
  all: split; [reflexivity |].
  all: split; [split |].
  all: try (intros _; eexists _, _; simpl; auto 10; fail).
  all: try (intros _; eexists; simpl; auto 10; fail).
  all: try (intros (? & ? & Hin); trace_in ev_StoreCreateStory Hin; fail).
  all: try (intros (? & Hin); trace_in ev_GetUserByID Hin; fail).
  all: intros st; split.
  all: try (intros Hres; injection Hres as <-; eexists; simpl; auto 10; fail).
  all: try discriminate.
  all: intros (? & Hin); trace_in ev_StoreCreateStory Hin.
  all: try (injection Hin as _ <-; reflexivity).
Qed.

(** X15.  The story row.  Every insert [CreateStory] makes directly
    follows a successful lookup of the author and the reading of the
    clock, and is the only one.  The row belongs to the author; it
    expires 48 hours after the clock reading when the author's premium
    flag is set and valid and 24 hours after it otherwise, and records
    that premium status as a valid flag; its caption is null exactly
    when the request's caption is empty; it carries the full geohash
    of the request's coordinate and the request's longitude, latitude,
    media fields and visibility flags. *)
Theorem CreateStory_stored_row
    (W : Type) (sem : Sem W) (w : W) (req : story.CreateStoryParams)
    (p : db_CreateStoryParams) (r : result Story) :
  In (Ev (StoreCreateStory p) r) (trace_of sem (story.CreateStory req) w) ->
  exists user now pre post,
    trace_of sem (story.CreateStory req) w
      = pre ++ Ev (GetUserByID (story.UserID req)) (Ok user) :: Ev TimeNow now
            :: Ev (StoreCreateStory p) r :: post /\
    calls ev_StoreCreateStory pre = [] /\
    calls ev_StoreCreateStory post = [] /\
    cs_UserID p = story.UserID req /\
    cs_ExpiresAt p
      = (now + (if NullBool_Valid (IsPremium user) && NullBool_Bool (IsPremium user)
                then 48 else 24) * Hour)%Z /\
    cs_IsPremium p
      = mkNullBool (NullBool_Valid (IsPremium user) && NullBool_Bool (IsPremium user)) true /\
    NullString_String (cs_Caption p) = story.Caption req /\
    (NullString_Valid (cs_Caption p) = true <-> story.Caption req <> EmptyString) /\
    cs_Geohash p = geohash_Encode (story.Latitude req) (story.Longitude req) /\
    cs_Lng p = story.Longitude req /\
    cs_Lat p = story.Latitude req /\
    cs_MediaUrl p = story.MediaURL req /\
    cs_MediaType p = story.MediaType req /\
    cs_IsAnonymous p = story.IsAnonymous req /\
    cs_ShowLocation p = story.ShowLocation req.
Proof.
  unfold story.CreateStory, story.invalidateFeedCache. prog_simpl.
  run_all; intros Hin; trace_in ev_StoreCreateStory Hin.
  all: injection Hin as <- <-.
  all: first [ eexists _, _, [_], _; split; [reflexivity |]
             | eexists _, _, [_; _], _; split; [reflexivity |] ].
  all: split; [reflexivity |]; split; [reflexivity |]; simpl.
  all: split; [reflexivity |].
  all: split;
         [match goal with |- context [?b && ?c] => destruct b; destruct c end;
          reflexivity |].
  all: split; [reflexivity |].
  all: destruct (decide (story.Caption req = EmptyString)) as [He | Hne]; simpl.
  all: try rewrite He.
  all: repeat split; auto; try discriminate; try congruence.
Qed.

(** X16.  [CreateStory] touches the feed cache exactly when it
    succeeds.  A successful run deletes one key, that of the
    five-character cell of the story, whether or not the activity
    update failed.  A failed run deletes no key and updates no
    activity; it failed because the user lookup failed (the error is
    wrapped and no insert is attempted) or because the insert failed
    (its error is returned as it is, and the insert is the last
    call). *)
Theorem CreateStory_invalidates_iff_created
    (W : Type) (sem : Sem W) (w : W) (req : story.CreateStoryParams) :
  (forall st,
     result_of sem (story.CreateStory req) w = Ok st ->
     calls ev_RedisDel (trace_of sem (story.CreateStory req) w)
       = [("feed:" ++ substring 0 5
             (geohash_Encode (story.Latitude req) (story.Longitude req)))%string]) /\
  (forall e,
     result_of sem (story.CreateStory req) w = Err e ->
     calls ev_RedisDel (trace_of sem (story.CreateStory req) w) = [] /\
     (forall id r,
        ~ In (Ev (UpdateUserActivity id) r) (trace_of sem (story.CreateStory req) w)) /\
     ((exists e0,
         last (trace_of sem (story.CreateStory req) w)
           = Some (Ev (GetUserByID (story.UserID req)) (Err e0)) /\
         e = ("failed to get user: " ++ e0)%string /\
         calls ev_StoreCreateStory (trace_of sem (story.CreateStory req) w) = []) \/
      (exists p,
         last (trace_of sem (story.CreateStory req) w)
           = Some (Ev (StoreCreateStory p) (Err e))))).
Proof.
  unfold story.CreateStory, story.invalidateFeedCache. prog_simpl.
  run_all; (split; [intros st Hres | intros e' Hres]); try discriminate Hres.
  all: try (rewrite truncate_hash_prefix; reflexivity).
  all: injection Hres as <-.
  all: split; [reflexivity |].
  all: split;
         [intros id r Hin;
          repeat (destruct Hin as [Hin | Hin]; [discriminate Hin |]); destruct Hin |].
  all: first [ left; eexists; split; [reflexivity |]; split; reflexivity
             | right; eexists; reflexivity ].
Qed.

(** X17.  Only the owner deletes.  [DeleteStory] calls the store's
    delete only for the requested story and only after the lookup
    showed that it belongs to the caller.  For a story of another
    user it answers "you can only delete your own stories" after the
    lookup alone; for a missing story it answers "story not found";
    another lookup error is returned as it is.  Whenever it returns
    an error no cache key is deleted. *)
Theorem DeleteStory_only_owner
    (W : Type) (sem : Sem W) (w : W) (storyID userID : UUID) :
  (forall id r,
     In (Ev (StoreDeleteStory id) r) (trace_of sem (story.DeleteStory storyID userID) w) ->
     id = storyID /\
     exists st,
       In (Ev (GetStoryByID storyID) (Ok st))
          (trace_of sem (story.DeleteStory storyID userID) w) /\
       Story_UserID st = userID) /\
  (forall st,
     In (Ev (GetStoryByID storyID) (Ok st))
        (trace_of sem (story.DeleteStory storyID userID) w) ->
     Story_UserID st <> userID ->
     result_of sem (story.DeleteStory storyID userID) w
       = Some "you can only delete your own stories" /\
     trace_of sem (story.DeleteStory storyID userID) w
       = [Ev (GetStoryByID storyID) (Ok st)]) /\
  (forall e,
     In (Ev (GetStoryByID storyID) (Err e))
        (trace_of sem (story.DeleteStory storyID userID) w) ->
     result_of sem (story.DeleteStory storyID userID) w
       = Some (if decide (e = story.ErrNoRows) then "story not found" else e) /\
     trace_of sem (story.DeleteStory storyID userID) w
       = [Ev (GetStoryByID storyID) (Err e)]) /\
  (result_of sem (story.DeleteStory storyID userID) w <> None ->
   calls ev_RedisDel (trace_of sem (story.DeleteStory storyID userID) w) = []).
Proof.
  unfold story.DeleteStory, story.invalidateFeedCache. prog_simpl.
  destruct (sem _ (GetStoryByID storyID) w) as [[st | e] w1] eqn:E1; simpl.
  - destruct (decide (Story_UserID st = userID)) as [Hown | Hother]; simpl.
    + destruct (sem _ (StoreDeleteStory storyID) w1) as [[failure |] w2] eqn:E2; simpl.
      * split; [| split; [| split; [| reflexivity]]].
        -- intros id r Hin. trace_in ev_StoreDeleteStory Hin. injection Hin as <- <-.
           split; [reflexivity |]. exists st. auto.
        -- intros st' Hin Hne. trace_in ev_GetStoryByID Hin. injection Hin as <-.
           contradiction.
        -- intros e Hin. trace_in ev_GetStoryByID Hin.
      * destruct (sem _ (RedisDel _) w2) as [[] w3] eqn:E3; simpl.
        split; [| split; [| split; [| intros Hn; contradiction]]].
        -- intros id r Hin. trace_in ev_StoreDeleteStory Hin. injection Hin as <- <-.
           split; [reflexivity |]. exists st. auto.
        -- intros st' Hin Hne. trace_in ev_GetStoryByID Hin. injection Hin as <-.
           contradiction.
        -- intros e Hin. trace_in ev_GetStoryByID Hin.
    + split; [| split; [| split; [| reflexivity]]].
      * intros id r Hin. trace_in ev_StoreDeleteStory Hin.
      * intros st' Hin Hne. trace_in ev_GetStoryByID Hin. injection Hin as <-.
        split; reflexivity.
      * intros e Hin. trace_in ev_GetStoryByID Hin.
  - destruct (decide (e = story.ErrNoRows)) as [He | Hne]; simpl.
    all: split; [| split; [| split; [| reflexivity]]].
    all: try (intros id r Hin; trace_in ev_StoreDeleteStory Hin; fail).
    all: try (intros st' Hin Hne'; trace_in ev_GetStoryByID Hin; fail).
    all: intros e' Hin; trace_in ev_GetStoryByID Hin; injection Hin as <-.
    + destruct (decide (e = story.ErrNoRows)); [split; reflexivity | contradiction].
    + destruct (decide (e = story.ErrNoRows)); [contradiction | split; reflexivity].
Qed.

End service.

Section handlers.
Context `{GoLibs}.

(** The store query of [getFeed] for a viewer. *)
Lemma getFeed_miss_run W (sem : Sem W) (w : W) req auth key :
  run sem (getFeed_miss req auth key) w =
    let q := GetStoriesWithinRadius
               (mkGetStoriesWithinRadiusParams (gf_Longitude req) (gf_Latitude req)
                  story.maxRadius (UserID auth)) in
    let '(res, w1) := sem _ q w in
    match res with
    | Err e => (JSON StatusInternalServerError (errorResponse e), [Ev q (Err e)], w1)
    | Ok stories =>
        let '(u, w2) := sem _ (RedisSet key (feed_json stories) feedCacheTTL) w1 in
        (mkResponse StatusOK [("X-Cache", "MISS")]
           (FeedBody stories (Z.of_nat (length stories)) (feed_message stories)
              story.maxRadius),
         [Ev q (Ok stories); Ev (RedisSet key (feed_json stories) feedCacheTTL) u], w2)
    end.
Proof.
  unfold getFeed_miss, story.GetFeed. prog_simpl.
  destruct (sem _ (GetStoriesWithinRadius _) w) as [[stories | e] w1]; simpl;
    [| reflexivity].
  destruct (sem _ (RedisSet _ _ _) w1) as [u w2]. reflexivity.
Qed.

(** [getFeed] reads the key of the viewer's cell first; a non-empty
    value is the answer, anything else leads to the store query. *)
Lemma getFeed_run W (sem : Sem W) (w : W) req auth :
  run sem (getFeed (Ok req) auth) w =
    let '(cached, w1) := sem _ (RedisGet (feedCacheKey req)) w in
    match cached with
    | Ok (String a data) =>
        (mkResponse StatusOK [("X-Cache", "HIT")]
           (Data "application/json" (String a data)),
         [Ev (RedisGet (feedCacheKey req)) cached], w1)
    | _ =>
        let '(r, tr, w2) := run sem (getFeed_miss req auth (feedCacheKey req)) w1 in
        (r, Ev (RedisGet (feedCacheKey req)) cached :: tr, w2)
    end.
Proof.
  unfold getFeed. generalize (getFeed_miss req auth (feedCacheKey req)). intros miss.
  prog_simpl.
  destruct (sem _ (RedisGet (feedCacheKey req)) w) as [[[| a data] | e] w1]; simpl.
  - destruct (decide (EmptyString = EmptyString)); [| contradiction].
    destruct (run sem miss w1) as [[r tr] w2]. reflexivity.
  - destruct (decide (String a data = EmptyString)); [discriminate |]. reflexivity.
  - destruct (run sem miss w1) as [[r tr] w2]. reflexivity.
Qed.

(** X18.  What [getFeed] caches is what it answers.  Every [RedisSet]
    of the handler is for the key of the viewer's five-character cell,
    with a lifetime of five minutes, and stores the marshalled form of
    the very rows, count and message of the response, which is marked
    [X-Cache: MISS]; it follows the one store query of the request,
    made for the viewer's coordinate and user within 50 km.  A failed
    store query is answered HTTP 500 and caches nothing.  An answer
    marked [X-Cache: HIT] is the cached value itself and involves no
    store query and no cache write. *)
Theorem getFeed_caches_what_it_answers
    (W : Type) (sem : Sem W) (w : W) (req : getFeedRequest) (auth : Payload) :
  (forall key v ttl u,
     In (Ev (RedisSet key v ttl) u) (trace_of sem (getFeed (Ok req) auth) w) ->
     key = feedCacheKey req /\ ttl = (5 * Minute)%Z /\
     exists stories,
       v = feed_json stories /\
       In (Ev (GetStoriesWithinRadius
                 (mkGetStoriesWithinRadiusParams (gf_Longitude req) (gf_Latitude req)
                    50000%float (UserID auth))) (Ok stories))
          (trace_of sem (getFeed (Ok req) auth) w) /\
       result_of sem (getFeed (Ok req) auth) w
         = mkResponse 200 [("X-Cache", "MISS")]
             (FeedBody stories (Z.of_nat (length stories)) (feed_message stories)
                50000%float)) /\
  (forall p e,
     In (Ev (GetStoriesWithinRadius p) (Err e)) (trace_of sem (getFeed (Ok req) auth) w) ->
     result_of sem (getFeed (Ok req) auth) w
       = JSON StatusInternalServerError (errorResponse e) /\
     calls ev_RedisSet (trace_of sem (getFeed (Ok req) auth) w) = []) /\
  (headers (result_of sem (getFeed (Ok req) auth) w) = [("X-Cache", "HIT")] ->
   exists data,
     data <> EmptyString /\
     trace_of sem (getFeed (Ok req) auth) w
       = [Ev (RedisGet (feedCacheKey req)) (Ok data)] /\
     body (result_of sem (getFeed (Ok req) auth) w) = Data "application/json" data).
Proof.
  unfold result_of, trace_of. rewrite getFeed_run.
  destruct (sem _ (RedisGet (feedCacheKey req)) w) as [cached w1] eqn:E1.
  assert (Hmiss :
    let '(r, tr, _) := run sem (getFeed_miss req auth (feedCacheKey req)) w1 in
    (forall key v ttl u,
       In (Ev (RedisSet key v ttl) u) (Ev (RedisGet (feedCacheKey req)) cached :: tr) ->
       key = feedCacheKey req /\ ttl = (5 * Minute)%Z /\
       exists stories,
         v = feed_json stories /\
         In (Ev (GetStoriesWithinRadius
                   (mkGetStoriesWithinRadiusParams (gf_Longitude req) (gf_Latitude req)
                      50000%float (UserID auth))) (Ok stories))
            (Ev (RedisGet (feedCacheKey req)) cached :: tr) /\
         r = mkResponse 200 [("X-Cache", "MISS")]
               (FeedBody stories (Z.of_nat (length stories)) (feed_message stories)
                  50000%float)) /\
    (forall p e,
       In (Ev (GetStoriesWithinRadius p) (Err e))
          (Ev (RedisGet (feedCacheKey req)) cached :: tr) ->
       r = JSON StatusInternalServerError (errorResponse e) /\
       calls ev_RedisSet (Ev (RedisGet (feedCacheKey req)) cached :: tr) = []) /\
    headers r <> [("X-Cache", "HIT")]).
  { rewrite getFeed_miss_run. cbv zeta.
    destruct (sem _ (GetStoriesWithinRadius _) w1) as [[stories | e] w2] eqn:E2.
    - destruct (sem _ (RedisSet _ _ _) w2) as [u w3] eqn:E3.
      split; [| split; [| discriminate]].
      + intros key v ttl u' Hin. trace_in ev_RedisSet Hin.
        injection Hin as <- <- <-.
        split; [reflexivity |]. split; [reflexivity |].
        exists stories. split; [reflexivity |]. split; [| reflexivity].
        right. left. reflexivity.
      + intros p e Hin. trace_in ev_GetStoriesWithinRadius Hin.
    - split; [| split; [| discriminate]].
      + intros key v ttl u' Hin. trace_in ev_RedisSet Hin.
      + intros p e' Hin. trace_in ev_GetStoriesWithinRadius Hin.
        injection Hin as _ <-. split; reflexivity. }
  destruct cached as [[| a data] | e].
  - destruct (run sem (getFeed_miss req auth (feedCacheKey req)) w1) as [[r tr] w2].
    destruct Hmiss as (Hset & Hfail & Hhdr). simpl.
    split; [exact Hset |]. split; [exact Hfail |]. intros Hhit. contradiction.
  - simpl. split; [| split].
    + intros key v ttl u Hin. trace_in ev_RedisSet Hin.
    + intros p e Hin. trace_in ev_GetStoriesWithinRadius Hin.
    + intros _. exists (String a data). split; [discriminate |]. split; reflexivity.
  - destruct (run sem (getFeed_miss req auth (feedCacheKey req)) w1) as [[r tr] w2].
    destruct Hmiss as (Hset & Hfail & Hhdr). simpl.
    split; [exact Hset |]. split; [exact Hfail |]. intros Hhit. contradiction.
Qed.

(** X19.  A miss fills the cache for the whole cell.  With Redis
    keeping its keys, after a [getFeed] that found no value under the
    key of the viewer's cell and got rows from the store, the key holds
    the marshalled answer; the next [getFeed] of any viewer whose
    coordinate lies in the same five-character cell, whoever that user
    is, is answered from the cache with exactly this value, marked
    [X-Cache: HIT], and makes no store query. *)
Theorem getFeed_miss_then_hit
    (W : Type) (sem : Sem W) (keys : W -> gmap string string) (w : W)
    (req req' : getFeedRequest) (auth auth' : Payload) (stories : list Story) :
  redis_faithful sem keys ->
  keys w !! feedCacheKey req = None ->
  feedCacheKey req' = feedCacheKey req ->
  In (Ev (GetStoriesWithinRadius
            (mkGetStoriesWithinRadiusParams (gf_Longitude req) (gf_Latitude req)
               50000%float (UserID auth))) (Ok stories))
     (trace_of sem (getFeed (Ok req) auth) w) ->
  feed_json stories <> EmptyString ->
  keys (run sem (getFeed (Ok req) auth) w).2 !! feedCacheKey req
    = Some (feed_json stories) /\
  result_of sem (getFeed (Ok req') auth') (run sem (getFeed (Ok req) auth) w).2
    = mkResponse 200 [("X-Cache", "HIT")] (Data "application/json" (feed_json stories)) /\
  trace_of sem (getFeed (Ok req') auth') (run sem (getFeed (Ok req) auth) w).2
    = [Ev (RedisGet (feedCacheKey req)) (Ok (feed_json stories))].
Proof.
  intros [Hhit Hmiss Heff] Hnone Hcell Hin Hjson.
  unfold result_of, trace_of in *. rewrite getFeed_run in *.
  pose proof (Hmiss (feedCacheKey req) w Hnone) as [e He].
  pose proof (Heff _ (RedisGet (feedCacheKey req)) w) as Hk1.
  destruct (sem _ (RedisGet (feedCacheKey req)) w) as [cached w1] eqn:E1.
  simpl in He, Hk1. subst cached.
  rewrite getFeed_miss_run in *. cbv zeta in *.
  pose proof (Heff _ (GetStoriesWithinRadius
                        (mkGetStoriesWithinRadiusParams (gf_Longitude req)
                           (gf_Latitude req) story.maxRadius (UserID auth))) w1) as Hk2.
  destruct (sem _ (GetStoriesWithinRadius _) w1) as [[stories' | e'] w2] eqn:E2;
    simpl in Hk2.
  2: { trace_in ev_GetStoriesWithinRadius Hin. }
  pose proof (Heff _ (RedisSet (feedCacheKey req) (feed_json stories') feedCacheTTL) w2)
    as Hk3.
  destruct (sem _ (RedisSet _ _ _) w2) as [u w3] eqn:E3. simpl in Hk3, Hin.
  trace_in ev_GetStoriesWithinRadius Hin. injection Hin as <-.
  assert (Hkey : keys w3 !! feedCacheKey req = Some (feed_json stories'))
    by (rewrite Hk3; apply lookup_insert_eq).
  cbn [snd]. split; [exact Hkey |].
  rewrite getFeed_run, Hcell.
  pose proof (Hhit (feedCacheKey req) w3 _ Hkey) as Hget.
  destruct (sem _ (RedisGet (feedCacheKey req)) w3) as [cached w4] eqn:E4.
  simpl in Hget. subst cached.
  destruct (feed_json stories') as [| a data] eqn:Ej; [contradiction |].
  split; reflexivity.
Qed.

(** The four ways [DeleteStory] can go. *)
Lemma DeleteStory_cases W (sem : Sem W) (w : W) (storyID userID : UUID) :
  (exists e,
     trace_of sem (story.DeleteStory storyID userID) w
       = [Ev (GetStoryByID storyID) (Err e)] /\
     result_of sem (story.DeleteStory storyID userID) w
       = Some (if decide (e = story.ErrNoRows) then "story not found" else e)) \/
  (exists st,
     Story_UserID st <> userID /\
     trace_of sem (story.DeleteStory storyID userID) w
       = [Ev (GetStoryByID storyID) (Ok st)] /\
     result_of sem (story.DeleteStory storyID userID) w
       = Some "you can only delete your own stories") \/
  (exists st e,
     Story_UserID st = userID /\
     trace_of sem (story.DeleteStory storyID userID) w
       = [Ev (GetStoryByID storyID) (Ok st); Ev (StoreDeleteStory storyID) (Some e)] /\
     result_of sem (story.DeleteStory storyID userID) w = Some e) \/
  (exists st,
     Story_UserID st = userID /\
     trace_of sem (story.DeleteStory storyID userID) w
       = [Ev (GetStoryByID storyID) (Ok st); Ev (StoreDeleteStory storyID) None;
          Ev (RedisDel ("feed:" ++ truncate_hash 5 (Story_Geohash st))%string) tt] /\
     result_of sem (story.DeleteStory storyID userID) w = None).
Proof.
  unfold story.DeleteStory, story.invalidateFeedCache. prog_simpl.
  destruct (sem _ (GetStoryByID storyID) w) as [[st | e] w1] eqn:E1; simpl.
  - destruct (decide (Story_UserID st = userID)) as [Hown | Hother]; simpl.
    + destruct (sem _ (StoreDeleteStory storyID) w1) as [[e |] w2] eqn:E2; simpl.
      * right. right. left. exists st, e. auto.
      * destruct (sem _ (RedisDel _) w2) as [[] w3] eqn:E3; simpl.
        right. right. right. exists st. auto.
    + right. left. exists st. auto.
  - left. exists e. destruct (decide (e = story.ErrNoRows)); simpl; auto.
Qed.

Ltac bad_status :=
  let Hs := fresh "Hs" in intros Hs; vm_compute in Hs; discriminate Hs.

(** X20.  The answers of [deleteUserStory].  An [id] that does not
    parse is answered HTTP 400 without any call.  The answer is HTTP
    200 exactly when the store's delete was called and succeeded, which
    happens only for a story the lookup showed to be the caller's.
    For a story of another user the answer is HTTP 403 with the
    service's message and nothing is deleted, neither the row nor a
    cache key; for a story the store does not have it is HTTP 404. *)
Theorem deleteUserStory_status
    (W : Type) (sem : Sem W) (w : W) (parsed : result UUID) (auth : Payload) :
  (forall err, parsed = Err err ->
     run sem (deleteUserStory parsed auth) w
       = (JSON StatusBadRequest (errorResponse err), [], w)) /\
  (status (result_of sem (deleteUserStory parsed auth) w) = 200%Z <->
     exists id,
       In (Ev (StoreDeleteStory id) None) (trace_of sem (deleteUserStory parsed auth) w)) /\
  (status (result_of sem (deleteUserStory parsed auth) w) = 200%Z ->
     result_of sem (deleteUserStory parsed auth) w
       = JSON 200 (H {[ "message" := "story deleted successfully" ]}) /\
     exists id st,
       parsed = Ok id /\
       In (Ev (GetStoryByID id) (Ok st)) (trace_of sem (deleteUserStory parsed auth) w) /\
       Story_UserID st = UserID auth) /\
  (forall id st,
     In (Ev (GetStoryByID id) (Ok st)) (trace_of sem (deleteUserStory parsed auth) w) ->
     Story_UserID st <> UserID auth ->
     result_of sem (deleteUserStory parsed auth) w
       = JSON 403 (H {[ "error" := "you can only delete your own stories" ]}) /\
     calls ev_StoreDeleteStory (trace_of sem (deleteUserStory parsed auth) w) = [] /\
     calls ev_RedisDel (trace_of sem (deleteUserStory parsed auth) w) = []) /\
  (forall id,
     In (Ev (GetStoryByID id) (Err story.ErrNoRows))
        (trace_of sem (deleteUserStory parsed auth) w) ->
     result_of sem (deleteUserStory parsed auth) w
       = JSON 404 (H {[ "error" := "story not found" ]})).
Proof.
  destruct parsed as [id | err].
  2: { split; [intros err' E; injection E as <-; reflexivity |].
       split; [split; [discriminate | intros [id []]] |].
       split; [discriminate |]. split; [intros id st [] | intros id []]. }
  split; [discriminate |].
  unfold deleteUserStory, result_of, trace_of. rewrite run_bind.
  pose proof (DeleteStory_cases W sem w id (UserID auth)) as Hcases.
  unfold result_of, trace_of, error in *. revert Hcases.
  match goal with
  | |- context [@run ?A ?B sem (story.DeleteStory id ?u) w] =>
      destruct (@run A B sem (story.DeleteStory id u) w) as [[err tr] w1]
  end.
  cbn [fst snd]. intros Hcases.
  destruct Hcases as [(e & -> & ->) | [(st & Hother & -> & ->)
                     | [(st & e & Hown & -> & ->) | (st & Hown & -> & ->)]]].
  all: repeat match goal with
              | |- context [@decide ?P ?I] =>
                  destruct (@decide P I); try discriminate; try contradiction
              end.
  all: simpl.
  all: split;
         [split;
            [first [bad_status | intros _; exists id; simpl; auto]
            | first [reflexivity
                    | intros [id' Hin]; trace_in ev_StoreDeleteStory Hin]] |].
  all: split;
         [first [bad_status
                | intros _; split; [reflexivity |]; exists id, st; simpl; auto] |].
  all: split;
         [intros id' st' Hin Hne'; trace_in ev_GetStoryByID Hin;
          first [injection Hin as _ <-; contradiction | repeat split; reflexivity] |].
  all: intros id' Hin; trace_in ev_GetStoryByID Hin;
    first [reflexivity | injection Hin as _ ->; contradiction].
Qed.

End handlers.

(** The scripted world keeps its Redis keys as Redis does. *)
Lemma script_sem_faithful : redis_faithful script_sem sc_keys.
Proof.
  split.
  - intros key w v Hk. simpl. rewrite Hk. reflexivity.
  - intros key w Hk. simpl. rewrite Hk. eauto.
  - intros X c w. destruct c; reflexivity.
Qed.

(** A premium-less author in the scripted world: the row expires 24
    hours after the clock reading. *)
Lemma CreateStory_stored_row_witness :
  exists user now,
    cs_ExpiresAt
      (mkDbCreateStoryParams 1%N "https://cdn.example/a.jpg" "image"
         (mkNullString "hi" true) "s1z0gtg9jq3w" 10.0078125%float 10.0078125%float
         false true (mkNullBool false true) 1700086400000000000%Z)
    = (now + (if NullBool_Valid (IsPremium user) && NullBool_Bool (IsPremium user)
              then 48 else 24) * Hour)%Z.
Proof.
  destruct (@CreateStory_stored_row sample_libs Script script_sem world_ghost
              sample_story_req
              (mkDbCreateStoryParams 1%N "https://cdn.example/a.jpg" "image"
                 (mkNullString "hi" true) "s1z0gtg9jq3w" 10.0078125%float
                 10.0078125%float false true (mkNullBool false true)
                 1700086400000000000%Z)
              (Ok sample_story))
    as (user & now & pre & post & _ & _ & _ & _ & Hexp & _).
  - vm_compute. do 3 right. left. reflexivity.
  - exists user, now. exact Hexp.
Defined.

(** A miss of user 1 fills the cache; user 2, 1/128 of a degree away
    in the same cell, is answered from it. *)
Lemma getFeed_miss_then_hit_witness :
  result_of script_sem (@getFeed sample_libs (Ok sample_neighbour) (mkPayload 2%N))
    (run script_sem (@getFeed sample_libs (Ok sample_viewer) sample_auth) world_ghost).2
  = mkResponse 200 [("X-Cache", "HIT")] (Data "application/json" "Stories found nearby").
Proof.
  destruct (@getFeed_miss_then_hit sample_libs Script script_sem sc_keys world_ghost
              sample_viewer sample_neighbour sample_auth (mkPayload 2%N) [sample_story]
              script_sem_faithful eq_refl eq_refl)
    as (_ & Hres & _).
  - vm_compute. right. left. reflexivity.
  - discriminate.
  - exact Hres.
Defined.

End story_props.

(** ** A chat handler that publishes *)

Module chat_props.
Import chat.

Section handlers.
Context `{GoLibs}.

(** The ways [removeReaction] can go. *)
Lemma removeReaction_cases W (sem : ChatSem W) (w : W) (id : string)
    (bound : result reactionRequest) (auth : api.Payload) :
  ((crun sem (removeReaction id bound auth) w).1.2 = [] /\
   status (crun sem (removeReaction id bound auth) w).1.1 = 400%Z) \/
  (exists messageID req,
     uuid_Parse id = Some messageID /\ bound = Ok req /\
     ((exists e,
         (crun sem (removeReaction id bound auth) w).1.2
           = [CEv (GetMessage messageID) (Err e)] /\
         (crun sem (removeReaction id bound auth) w).1.1
           = if decide (e = story.ErrNoRows)
             then JSON StatusNotFound (H {[ "error" := "Message not found" ]})
             else JSON StatusInternalServerError (errorResponse e)) \/
      (exists msg e,
         (crun sem (removeReaction id bound auth) w).1.2
           = [CEv (GetMessage messageID) (Ok msg);
              CEv (DeleteMessageReaction
                     (mkDeleteMessageReactionParams messageID (api.UserID auth)
                        (Emoji req))) (Some e)] /\
         (crun sem (removeReaction id bound auth) w).1.1
           = JSON StatusInternalServerError (errorResponse e)) \/
      (exists msg tail,
         (crun sem (removeReaction id bound auth) w).1.2
           = CEv (GetMessage messageID) (Ok msg)
               :: CEv (DeleteMessageReaction
                         (mkDeleteMessageReactionParams messageID (api.UserID auth)
                            (Emoji req))) None
               :: tail /\
         (crun sem (removeReaction id bound auth) w).1.1
           = JSON StatusOK (H {[ "message" := "Reaction removed" ]}) /\
         ((own_without_receiver msg auth = true /\ tail = []) \/
          (own_without_receiver msg auth = false /\
           exists err,
             tail = CEv (Base (XAdd (mkXAddArgs realtime.streamKey
                                       {[ "target_user_id" :=
                                            VString (uuid_String (other_party msg auth));
                                          "payload" :=
                                            VString
                                              (json_Marshal
                                                 (reaction_removed messageID
                                                    (api.UserID auth) (Emoji req))) ]}
                                       100000 true))) err
                    :: match err with
                       | Some _ =>
                           [CEv (Base (LogError
                                         "Failed to publish message to Redis Stream")) tt]
                       | None => []
                       end))))).
Proof.
  unfold removeReaction.
  destruct (uuid_Parse id) as [messageID |]; [| left; split; reflexivity].
  destruct bound as [req | err]; [| left; split; reflexivity].
  right. exists messageID, req. split; [reflexivity |]. split; [reflexivity |].
  simpl.
  destruct (sem _ (GetMessage messageID) w) as [[msg | e] w1]; simpl.
  2: { left. exists e. destruct (decide (e = story.ErrNoRows)); split; reflexivity. }
  destruct (sem _ (DeleteMessageReaction _) w1) as [[e |] w2]; simpl.
  { right. left. exists msg, e. split; reflexivity. }
  right. right. exists msg.
  unfold own_without_receiver, other_party.
  destruct (decide (SenderID msg = api.UserID auth)) as [Hme | Hother].
  - rewrite (bool_decide_eq_true_2 _ Hme).
    destruct (NullUUID_Valid (ReceiverID msg)); simpl.
    + unfold realtime.SendToUser. prog_simpl.
      destruct (sem _ (Base (XAdd _)) w2) as [[e |] w3]; simpl.
      * destruct (sem _ (Base (LogError _)) w3) as [[] w4]; simpl.
        eexists. split; [reflexivity |]. split; [reflexivity |].
        right. split; [reflexivity |]. exists (Some e). reflexivity.
      * eexists. split; [reflexivity |]. split; [reflexivity |].
        right. split; [reflexivity |]. exists None. reflexivity.
    + eexists. split; [reflexivity |]. split; [reflexivity |]. left. auto.
  - rewrite (bool_decide_eq_false_2 _ Hother). simpl.
    unfold realtime.SendToUser. prog_simpl.
    destruct (sem _ (Base (XAdd _)) w2) as [[e |] w3]; simpl.
    + destruct (sem _ (Base (LogError _)) w3) as [[] w4]; simpl.
      eexists. split; [reflexivity |]. split; [reflexivity |].
      right. split; [reflexivity |]. exists (Some e). reflexivity.
    + eexists. split; [reflexivity |]. split; [reflexivity |].
      right. split; [reflexivity |]. exists None. reflexivity.
Qed.

(** X21.  [removeReaction] notifies the other participant, once.  It
    answers HTTP 200 exactly when the store deleted the reaction, and
    the reaction it asks the store to delete is the caller's own.
    Every append to the routing stream it makes follows such a
    deletion, is the only one of the request, and goes through
    [SendToUser] to the message's receiver when the caller sent the
    message and to its sender otherwise, with the marshalled
    ["reaction_removed"] message naming the message, the caller and
    the emoji; the answer does not depend on whether the append
    succeeded.  After a deletion the append is made unless the caller
    sent the message to no single receiver. *)
Theorem removeReaction_notifies_other_party
    (W : Type) (sem : ChatSem W) (w : W) (id : string)
    (bound : result reactionRequest) (auth : api.Payload) :
  (status (crun sem (removeReaction id bound auth) w).1.1 = 200%Z <->
     exists p,
       In (CEv (DeleteMessageReaction p) None)
          (crun sem (removeReaction id bound auth) w).1.2) /\
  (forall p r,
     In (CEv (DeleteMessageReaction p) r) (crun sem (removeReaction id bound auth) w).1.2 ->
     dr_UserID p = api.UserID auth /\ uuid_Parse id = Some (dr_MessageID p)) /\
  (forall args err,
     In (CEv (Base (XAdd args)) err) (crun sem (removeReaction id bound auth) w).1.2 ->
     exists messageID req msg,
       uuid_Parse id = Some messageID /\ bound = Ok req /\
       In (CEv (GetMessage messageID) (Ok msg))
          (crun sem (removeReaction id bound auth) w).1.2 /\
       In (CEv (DeleteMessageReaction
                  (mkDeleteMessageReactionParams messageID (api.UserID auth) (Emoji req)))
               None)
          (crun sem (removeReaction id bound auth) w).1.2 /\
       own_without_receiver msg auth = false /\
       args = mkXAddArgs "locolive:stream:routing"
                {[ "target_user_id" := VString (uuid_String (other_party msg auth));
                   "payload" :=
                     VString (json_Marshal
                                (reaction_removed messageID (api.UserID auth)
                                   (Emoji req))) ]}
                100000 true /\
       omap cev_XAdd (crun sem (removeReaction id bound auth) w).1.2 = [(args, err)] /\
       (crun sem (removeReaction id bound auth) w).1.1
         = JSON 200 (H {[ "message" := "Reaction removed" ]})) /\
  (forall messageID msg p,
     In (CEv (GetMessage messageID) (Ok msg))
        (crun sem (removeReaction id bound auth) w).1.2 ->
     In (CEv (DeleteMessageReaction p) None)
        (crun sem (removeReaction id bound auth) w).1.2 ->
     own_without_receiver msg auth = false ->
     exists args err,
       In (CEv (Base (XAdd args)) err) (crun sem (removeReaction id bound auth) w).1.2).
Proof.
  destruct (removeReaction_cases W sem w id bound auth)
    as [[-> Hst] | (messageID & req & Hparse & -> &
         [(e & -> & ->) | [(msg & e & -> & ->) | (msg & tail & -> & -> & Htail)]])].
  - split; [split; [rewrite Hst; discriminate | intros [p []]] |].
    split; [intros p r [] |]. split; [intros args err [] | intros mid msg p []].
  - split; [split |].
    + intros Hs. destruct (decide (e = story.ErrNoRows)); vm_compute in Hs; discriminate Hs.
    + intros [p Hin]. trace_in cev_DeleteMessageReaction Hin.
    + split; [intros p r Hin; trace_in cev_DeleteMessageReaction Hin |].
      split; [intros args err Hin; trace_in cev_XAdd Hin |].
      intros mid msg p Hin. trace_in cev_GetMessage Hin.
  - split; [split |].
    + intros Hs. vm_compute in Hs. discriminate Hs.
    + intros [p Hin]. trace_in cev_DeleteMessageReaction Hin.
    + split; [intros p r Hin; trace_in cev_DeleteMessageReaction Hin;
              injection Hin as <- _; simpl; auto |].
      split; [intros args err Hin; trace_in cev_XAdd Hin |].
      intros mid msg' p _ Hin. trace_in cev_DeleteMessageReaction Hin.
  - split; [split; [intros _; eexists; right; left; reflexivity | reflexivity] |].
    destruct Htail as [[Hown ->] | [Hown (err0 & ->)]].
    + split; [intros p r Hin; trace_in cev_DeleteMessageReaction Hin;
              injection Hin as <- _; simpl; auto |].
      split; [intros args err Hin; trace_in cev_XAdd Hin |].
      intros mid msg' p Hin _ Hnot. trace_in cev_GetMessage Hin.
      injection Hin as _ <-. congruence.
    + split; [intros p r Hin; destruct err0; trace_in cev_DeleteMessageReaction Hin;
              injection Hin as <- _; simpl; auto |].
      split.
      * intros args err Hin. destruct err0; trace_in cev_XAdd Hin.
        all: injection Hin as <- <-.
        all: exists messageID, req, msg.
        all: split; [exact Hparse |]; split; [reflexivity |].
        all: split; [left; reflexivity |]; split; [right; left; reflexivity |].
        all: split; [exact Hown |]; split; [reflexivity |]; split; reflexivity.
      * intros mid msg' p _ _ _. eexists _, _. right. right. left. reflexivity.
Qed.

End handlers.
End chat_props.
